(** * SocketPacketUtils: a shallow embedding of socket_packet_utils.c

    The C file keeps one [serv_socket_state_t] per endpoint and talks to the
    operating system through a handful of system calls.  The embedding keeps
    the struct as a record that every function takes and gives back, and runs
    the system calls in a small monad [OS] over a [world]: the set of open
    descriptors, [errno], the environment variables, the answers the kernel
    is going to give (a script, consumed one call at a time) and the list of
    calls made so far. *)

From Stdlib Require Import ZArith String Ascii Strings.Byte Bool Lia List.
Import ListNotations.
Local Open Scope Z_scope.

(** ** Machine integers *)

Definition to_uint (z : Z) : Z := z mod 2 ^ 32.
Definition to_int (z : Z) : Z := (z + 2 ^ 31) mod 2 ^ 32 - 2 ^ 31.
Definition to_long (z : Z) : Z := Z.max (- 2 ^ 63) (Z.min (2 ^ 63 - 1) z).
Definition htons (port : Z) : Z := port mod 2 ^ 16.
Definition uint32_of_byte (b : byte) : Z := Z.of_N (Byte.to_N b).

(** [return -1] from a function of type [uint32_t]. *)
Definition NO_DATA : Z := to_uint (-1).

Definition STR_BUFF_SZ : Z := 256.
Definition O_NONBLOCK : Z := 2048.

(** ** The operating system *)

Inductive errno_t : Type :=
| EAGAIN | EBADF | EINTR | EPIPE | ECONNRESET | ECONNREFUSED | EADDRINUSE | EMFILE.

Definition errno_eqb (a b : errno_t) : bool :=
  match a, b with
  | EAGAIN, EAGAIN | EBADF, EBADF | EINTR, EINTR | EPIPE, EPIPE
  | ECONNRESET, ECONNRESET | ECONNREFUSED, ECONNREFUSED
  | EADDRINUSE, EADDRINUSE | EMFILE, EMFILE => true
  | _, _ => false
  end.

(** What the kernel answers to one call.  [Ok v bs]: the call succeeds; [v] is
    the number it yields (a new descriptor for socket and accept, the flags
    for fcntl(F_GETFL), the ready count for select, the number of bytes the
    send buffer can take for write) and [bs] the bytes a read finds.
    [Err e]: the call returns -1 and sets [errno] to [e]. *)
Inductive reply : Type :=
| Ok (v : nat) (bs : list byte)
| Err (e : errno_t).

Inductive call : Type :=
| c_signal_ignore_sigpipe
| c_socket
| c_setsockopt (fd : Z)
| c_getenv (var : string)
| c_bind (fd port : Z)
| c_listen (fd backlog : Z)
| c_connect (fd port : Z)
| c_fcntl_getfl (fd : Z)
| c_fcntl_setfl (fd flags : Z)
| c_accept (fd : Z)
| c_read (fd n : Z)
| c_write (fd : Z) (bs : list byte)
| c_close (fd : Z)
| c_select_read (fd : Z)
| c_select_write (fd : Z)
| c_usleep (usec : Z)
| c_printf (fmt : string)
| c_perror (msg : string).

Record world : Type := mkWorld {
  open_fds : list Z;
  errno : errno_t;
  env : string -> option string;
  script : list reply;
  trace : list call
}.

(** How a run ends: the function returns, the process leaves through
    [exit(EXIT_FAILURE)], an [assert] fails, or the script has no answer left
    for the call the program is waiting on. *)
Inductive outcome (A : Type) : Type :=
| Returned (a : A) (w : world)
| Exited (w : world)
| AssertFailed (w : world)
| Blocked (w : world).
Arguments Returned {A} a w.
Arguments Exited {A} w.
Arguments AssertFailed {A} w.
Arguments Blocked {A} w.

Definition OS (A : Type) : Type := world -> outcome A.

Definition ret {A} (a : A) : OS A := fun w => Returned a w.

Definition bind {A B} (c : OS A) (k : A -> OS B) : OS B :=
  fun w =>
    match c w with
    | Returned a w' => k a w'
    | Exited w' => Exited w'
    | AssertFailed w' => AssertFailed w'
    | Blocked w' => Blocked w'
    end.

Declare Scope os_scope.
Delimit Scope os_scope with os.
Notation "x <- c ;; k" := (bind c (fun x => k))
  (at level 61, c at next level, right associativity) : os_scope.
Notation "' pat <- c ;; k" := (bind c (fun x => match x with pat => k end))
  (at level 61, pat pattern, c at next level, right associativity) : os_scope.
Notation "c ;; k" := (bind c (fun _ => k))
  (at level 61, right associativity) : os_scope.
Local Open Scope os_scope.

Definition exit_failure {A} : OS A := fun w => Exited w.
Definition blocked {A} : OS A := fun w => Blocked w.
Definition assert (b : bool) : OS unit :=
  fun w => if b then Returned tt w else AssertFailed w.

(** The world after a call is logged, after the kernel has given its next
    answer, and after a call has set [errno]. *)
Definition logged (c : call) (w : world) : world :=
  mkWorld (open_fds w) (errno w) (env w) (script w) (trace w ++ [c]).

Definition answered (rest : list reply) (w : world) : world :=
  mkWorld (open_fds w) (errno w) (env w) rest (trace w).

Definition failed (e : errno_t) (w : world) : world :=
  mkWorld (open_fds w) e (env w) (script w) (trace w).

Definition emit (c : call) : OS unit := fun w => Returned tt (logged c w).

Definition next_reply : OS reply :=
  fun w =>
    match script w with
    | [] => Blocked w
    | r :: rest => Returned r (answered rest w)
    end.

Definition get_errno : OS errno_t := fun w => Returned (errno w) w.

Definition set_errno (e : errno_t) : OS unit := fun w => Returned tt (failed e w).

Definition is_open (fd : Z) (w : world) : bool := existsb (Z.eqb fd) (open_fds w).

Definition opened (fd : Z) (w : world) : world :=
  mkWorld (fd :: open_fds w) (errno w) (env w) (script w) (trace w).

Definition open_fd (fd : Z) : OS unit := fun w => Returned tt (opened fd w).

Definition drop_fd (fd : Z) : OS unit :=
  fun w => Returned tt
    (mkWorld (filter (fun x => negb (Z.eqb fd x)) (open_fds w)) (errno w) (env w) (script w) (trace w)).

(** A call on a descriptor: the kernel answers EBADF by itself when the
    descriptor is not open, and from the script otherwise. *)
Definition on_fd (fd : Z) (c : call) : OS reply :=
  emit c ;;
  fun w => if is_open fd w then next_reply w else Returned (Err EBADF) w.

Definition fails (e : errno_t) : OS Z := set_errno e ;; ret (-1).

(** Calls that yield 0 on success: setsockopt, bind, listen, connect,
    fcntl(F_SETFL). *)
Definition sys_plain (fd : Z) (c : call) : OS Z :=
  r <- on_fd fd c ;;
  match r with Ok _ _ => ret 0 | Err e => fails e end.

(** Calls that yield a number on success: fcntl(F_GETFL), select. *)
Definition sys_value (fd : Z) (c : call) : OS Z :=
  r <- on_fd fd c ;;
  match r with Ok v _ => ret (Z.of_nat v) | Err e => fails e end.

Definition sys_socket : OS Z :=
  emit c_socket ;;
  r <- next_reply ;;
  match r with
  | Ok v _ => open_fd (Z.of_nat v) ;; ret (Z.of_nat v)
  | Err e => fails e
  end.

Definition sys_accept (fd : Z) : OS Z :=
  r <- on_fd fd (c_accept fd) ;;
  match r with
  | Ok v _ => open_fd (Z.of_nat v) ;; ret (Z.of_nat v)
  | Err e => fails e
  end.

(** read(fd, buf, n) for 0 <= n: at most [n] of the bytes the kernel has. *)
Definition sys_read (fd n : Z) : OS (Z * list byte) :=
  r <- on_fd fd (c_read fd n) ;;
  match r with
  | Ok _ bs => let got := firstn (Z.to_nat n) bs in ret (Z.of_nat (length got), got)
  | Err e => set_errno e ;; ret (-1, [])
  end.

(** write(fd, bs, length bs): the kernel takes at most what it is handed. *)
Definition sys_write (fd : Z) (bs : list byte) : OS Z :=
  r <- on_fd fd (c_write fd bs) ;;
  match r with
  | Ok v _ => ret (Z.of_nat (Nat.min v (length bs)))
  | Err e => fails e
  end.

Definition sys_close (fd : Z) : OS unit := emit (c_close fd) ;; drop_fd fd.

Definition sys_getenv (var : string) : OS (option string) :=
  emit (c_getenv var) ;; fun w => Returned (env w var) w.

Definition printf (fmt : string) : OS unit := emit (c_printf fmt).
Definition perror (msg : string) : OS unit := emit (c_perror msg).
Definition usleep (usec : Z) : OS unit := emit (c_usleep usec).

(** ** libc's atoi, as glibc has it: [(int) strtol (nptr, NULL, 10)] *)

Definition isspace (c : ascii) : bool :=
  match nat_of_ascii c with
  | 9%nat | 10%nat | 11%nat | 12%nat | 13%nat | 32%nat => true
  | _ => false
  end.

Definition digit_of (c : ascii) : option Z :=
  let n := Z.of_nat (nat_of_ascii c) in
  if (48 <=? n) && (n <=? 57) then Some (n - 48) else None.

Fixpoint skip_space (s : string) : string :=
  match s with
  | String c rest => if isspace c then skip_space rest else s
  | EmptyString => s
  end.

Fixpoint digits (acc : Z) (s : string) : Z :=
  match s with
  | String c rest =>
      match digit_of c with
      | Some d => digits (10 * acc + d) rest
      | None => acc
      end
  | EmptyString => acc
  end.

Definition strtol10 (s : string) : Z :=
  match skip_space s with
  | String "-"%char rest => to_long (- digits 0 rest)
  | String "+"%char rest => to_long (digits 0 rest)
  | t => to_long (digits 0 t)
  end.

Definition atoi (s : string) : Z := to_int (strtol10 s).

(** ** Memory the caller hands in *)

(** The bytes behind a pointer, by offset: [result] of socket_getN and [data]
    of socket_putN. *)
Definition memory : Type := Z -> byte.

Definition poke (m : memory) (i : Z) (b : byte) : memory :=
  fun j => if j =? i then b else m j.

Definition store (m : memory) (off : Z) (bs : list byte) : memory :=
  fun j =>
    if (off <=? j) && (j <? off + Z.of_nat (length bs))
    then nth (Z.to_nat (j - off)) bs x00
    else m j.

Definition bytes_at (m : memory) (off len : Z) : list byte :=
  map (fun i => m (off + Z.of_nat i)) (seq 0 (Z.to_nat len)).

(** ** The endpoint *)

Record serv_socket_state_t : Type := mkState {
  name : string;
  port : Z;
  sock : Z;
  conn : Z
}.

Definition set_port (s : serv_socket_state_t) (p : Z) : serv_socket_state_t :=
  mkState (name s) p (sock s) (conn s).
Definition set_sock (s : serv_socket_state_t) (fd : Z) : serv_socket_state_t :=
  mkState (name s) (port s) fd (conn s).
Definition set_conn (s : serv_socket_state_t) (fd : Z) : serv_socket_state_t :=
  mkState (name s) (port s) (sock s) fd.

(** ** General helpers *)

Definition getPortNumber (name : string) (dflt_port : Z) : OS Z :=
  let env_var_name := (name ++ "_PORT")%string in
  s <- sys_getenv env_var_name ;;
  port <- match s with
          | Some v => ret (atoi v)
          | None =>
              printf "---- %s environment variable not defined, using default port %d instead" ;;
              ret (to_int dflt_port)
          end ;;
  assert ((0 <=? port) && (port <=? 65535)) ;;
  ret port.

Definition socketSetNonBlocking (sock : Z) : OS unit :=
  flags <- sys_value sock (c_fcntl_getfl sock) ;;
  if flags =? -1 then perror "fcntl" ;; exit_failure
  else
    r <- sys_plain sock (c_fcntl_setfl sock (Z.lor flags O_NONBLOCK)) ;;
    if r =? -1 then perror "fcntl" ;; exit_failure
    else ret tt.

(** The result of malloc is not tested by the code and is taken to be a
    fresh object.  The test on strncpy's result never fires: strncpy returns
    its first argument.  The name is kept whole, which is what
    strncpy (s->name, name, STR_BUFF_SZ) leaves of a name of fewer than
    STR_BUFF_SZ characters; a longer one is left in the buffer without its
    terminator, and no string describes what the code then reads.  The
    statements about created endpoints take that bound as a hypothesis. *)
Definition socket_create (name : string) (dflt_port : Z) : OS serv_socket_state_t :=
  let s := mkState name (to_int (to_uint dflt_port)) (-1) (-1) in
  printf "---- allocated socket for %s" ;;
  ret s.

Definition socket_init (s : serv_socket_state_t) (server : bool) : OS serv_socket_state_t :=
  if negb (sock s =? -1) then ret s
  else
    emit c_signal_ignore_sigpipe ;;
    fd <- sys_socket ;;
    let s := set_sock s fd in
    if sock s =? -1 then perror "socket" ;; exit_failure
    else
      r <- sys_plain (sock s) (c_setsockopt (sock s)) ;;
      if r =? -1 then perror "setsockopt" ;; exit_failure
      else
        p <- getPortNumber (name s) (to_uint (port s)) ;;
        let s := set_port s p in
        (if server then
           r <- sys_plain (sock s) (c_bind (sock s) (htons (port s))) ;;
           if r =? -1 then perror "bind" ;; exit_failure
           else
             r <- sys_plain (sock s) (c_listen (sock s) 0) ;;
             if r =? -1 then perror "listen" ;; exit_failure
             else ret tt
         else
           r <- sys_plain (sock s) (c_connect (sock s) (htons (port s))) ;;
           if r =? -1 then perror "connect" ;; exit_failure
           else ret tt) ;;
        socketSetNonBlocking (sock s) ;;
        printf "---- %s socket listening on port %d" ;;
        ret s.

Definition acceptConnection (s : serv_socket_state_t) (server : bool) : OS serv_socket_state_t :=
  if negb (conn s =? -1) then ret s
  else
    s <- (if sock s =? -1 then socket_init s server else ret s) ;;
    if server then
      c <- sys_accept (sock s) ;;
      let s := set_conn s c in
      if negb (conn s =? -1) then
        printf "---- %s socket got a connection" ;;
        socketSetNonBlocking (conn s) ;;
        ret s
      else ret s
    else ret (set_conn s (sock s)).

(** [!(n == -1 && errno == EAGAIN)] *)
Definition not_transient (n : Z) (e : errno_t) : bool :=
  negb ((n =? -1) && errno_eqb e EAGAIN).

(** ** Byte transfer *)

Definition socket_get8 (s : serv_socket_state_t) (server : bool) : OS (Z * serv_socket_state_t) :=
  s <- acceptConnection s server ;;
  if conn s =? -1 then ret (NO_DATA, s)
  else
    '(n, got) <- sys_read (conn s) 1 ;;
    if n =? 1 then ret (uint32_of_byte (hd x00 got), s)
    else
      e <- get_errno ;;
      if not_transient n e then
        sys_close (conn s) ;;
        ret (NO_DATA, set_conn s (-1))
      else ret (NO_DATA, s).

Definition socket_put8 (s : serv_socket_state_t) (b : byte) (server : bool) : OS (Z * serv_socket_state_t) :=
  s <- acceptConnection s server ;;
  if conn s =? -1 then ret (0, s)
  else
    n <- sys_write (conn s) [b] ;;
    if n =? 1 then ret (1, s)
    else
      e <- get_errno ;;
      if not_transient n e then
        sys_close (conn s) ;;
        ret (0, set_conn s (-1))
      else ret (0, s).

(** The body of [for (int i = 1; i <= 1000; i++)], by the number of rounds
    that are left, and what follows the loop. *)
Fixpoint put8_rounds (left : nat) (fd : Z) (b : byte) : OS Z :=
  match left with
  | O => perror "Failed to send byte in socket" ;; ret 0
  | S left' =>
      n <- sys_write fd [b] ;;
      if n =? 1 then ret 1
      else
        e <- get_errno ;;
        if not_transient n e then ret 0
        else usleep 1000000 ;; put8_rounds left' fd b
  end.

Definition socket_put8_blocking (s : serv_socket_state_t) (b : byte) (server : bool) : OS (Z * serv_socket_state_t) :=
  s <- acceptConnection s server ;;
  if conn s =? -1 then ret (0, s)
  else
    r <- put8_rounds 1000 (conn s) b ;;
    ret (r, s).

(** Every round of the two [while (count < nbytes)] loops waits in select,
    which takes an answer from the script or fails its assertion, so as many
    rounds as the script has answers, and one more, is all a run can make. *)
Definition rounds_left : OS nat := fun w => Returned (S (length (script w))) w.

Fixpoint getN_rest (rounds : nat) (fd : Z) (bytes : memory) (count nbytes : Z) : OS memory :=
  if count <? nbytes then
    match rounds with
    | O => blocked
    | S rounds' =>
        res <- sys_value fd (c_select_read fd) ;;
        assert (0 <=? res) ;;
        '(res, got) <- sys_read fd (nbytes - count) ;;
        assert (0 <=? res) ;;
        getN_rest rounds' fd (store bytes count got) (count + res) nbytes
    end
  else ret bytes.

Definition socket_getN (result : memory) (s : serv_socket_state_t) (nbytes : Z) (server : bool)
  : OS (memory * serv_socket_state_t) :=
  let bytes := result in
  s <- acceptConnection s server ;;
  if conn s =? -1 then ret (poke bytes nbytes xff, s)
  else
    '(count, got) <- sys_read (conn s) nbytes ;;
    let bytes := store bytes 0 got in
    if count =? nbytes then ret (poke bytes nbytes x00, s)
    else if 0 <? count then
      rounds <- rounds_left ;;
      bytes <- getN_rest rounds (conn s) bytes count nbytes ;;
      ret (poke bytes nbytes x00, s)
    else
      let bytes := poke bytes nbytes xff in
      e <- get_errno ;;
      if not_transient count e then
        sys_close (conn s) ;;
        ret (bytes, set_conn s (-1))
      else ret (bytes, s).

Fixpoint putN_rest (rounds : nat) (fd : Z) (bytes : memory) (count nbytes : Z) : OS unit :=
  if count <? nbytes then
    match rounds with
    | O => blocked
    | S rounds' =>
        res <- sys_value fd (c_select_write fd) ;;
        assert (0 <=? res) ;;
        res <- sys_write fd (bytes_at bytes count (nbytes - count)) ;;
        assert (0 <=? res) ;;
        putN_rest rounds' fd bytes (count + res) nbytes
    end
  else ret tt.

Definition socket_putN (s : serv_socket_state_t) (nbytes : Z) (data : memory) (server : bool)
  : OS (Z * serv_socket_state_t) :=
  s <- acceptConnection s server ;;
  if conn s =? -1 then ret (0, s)
  else
    let bytes := data in
    count <- sys_write (conn s) (bytes_at bytes 0 nbytes) ;;
    if count =? nbytes then ret (1, s)
    else if 0 <? count then
      rounds <- rounds_left ;;
      putN_rest rounds (conn s) bytes count nbytes ;;
      ret (1, s)
    else
      e <- get_errno ;;
      if not_transient count e then
        sys_close (conn s) ;;
        ret (0, set_conn s (-1))
      else ret (0, s).

(** ** The exported API *)

Definition serv_socket_create := socket_create.
Definition client_socket_create := socket_create.
Definition serv_socket_init s := socket_init s true.
Definition serv_socket_get8 s := socket_get8 s true.
Definition serv_socket_put8 s b := socket_put8 s b true.
Definition serv_socket_put8_blocking s b := socket_put8_blocking s b true.
Definition serv_socket_getN result s nbytes := socket_getN result s nbytes true.
Definition serv_socket_putN s nbytes data := socket_putN s nbytes data true.
Definition client_socket_init s := socket_init s false.
Definition client_socket_getN result s nbytes := socket_getN result s nbytes false.
Definition client_socket_putN s nbytes data := socket_putN s nbytes data false.

(** One call on a handle, and what it gives back. *)
Inductive op : Type :=
| op_init
| op_get8
| op_put8 (b : byte)
| op_put8_blocking (b : byte)
| op_getN (result : memory) (nbytes : Z)
| op_putN (nbytes : Z) (data : memory).

Inductive op_result : Type :=
| r_void
| r_word (v : Z)
| r_bytes (m : memory).

Definition run_op (server : bool) (o : op) (s : serv_socket_state_t)
  : OS (op_result * serv_socket_state_t) :=
  match o with
  | op_init => s' <- socket_init s server ;; ret (r_void, s')
  | op_get8 => '(v, s') <- socket_get8 s server ;; ret (r_word v, s')
  | op_put8 b => '(v, s') <- socket_put8 s b server ;; ret (r_word v, s')
  | op_put8_blocking b => '(v, s') <- socket_put8_blocking s b server ;; ret (r_word v, s')
  | op_getN result n => '(m, s') <- socket_getN result s n server ;; ret (r_bytes m, s')
  | op_putN n data => '(v, s') <- socket_putN s n data server ;; ret (r_word v, s')
  end.

Fixpoint run_ops (server : bool) (os : list op) (s : serv_socket_state_t)
  : OS (list op_result * serv_socket_state_t) :=
  match os with
  | [] => ret ([], s)
  | o :: rest =>
      '(r, s') <- run_op server o s ;;
      '(rs, s'') <- run_ops server rest s' ;;
      ret (r :: rs, s'')
  end.

(** ** Vocabulary of the statements *)

(** The world a run stops in, however it stops. *)
Definition final {A} (o : outcome A) : world :=
  match o with
  | Returned _ w | Exited w | AssertFailed w | Blocked w => w
  end.

(** The connection descriptor is set. *)
Definition attached (s : serv_socket_state_t) : Prop := conn s <> -1.

(** A byte count of a get or put operation is not negative. *)
Definition sized (o : op) : Prop :=
  match o with
  | op_getN _ n | op_putN n _ => 0 <= n
  | _ => True
  end.

(** The operation reports failure, or no data: the sentinel of get8, the
    status byte 0xFF of getN, 0 from the put operations. *)
Definition reports_failure (o : op) (r : op_result) : Prop :=
  match o, r with
  | op_init, _ => True
  | op_get8, r_word v => v = NO_DATA
  | op_getN _ n, r_bytes m => m n = xff
  | (op_put8 _ | op_put8_blocking _ | op_putN _ _), r_word v => v = 0
  | _, _ => False
  end.

(** A Client endpoint after its connection is lost: the one descriptor it
    has is closed, and the connection field is unset or names that closed
    descriptor again. *)
Definition broken (s : serv_socket_state_t) (w : world) : Prop :=
  sock s <> -1 /\ is_open (sock s) w = false /\ (conn s = -1 \/ conn s = sock s).

Definition is_write (c : call) : bool :=
  match c with c_write _ _ => true | _ => false end.

Definition is_select (c : call) : bool :=
  match c with c_select_read _ | c_select_write _ => true | _ => false end.

Definition count_calls (p : call -> bool) (w : world) : nat :=
  length (filter p (trace w)).

(** The kernel takes the byte of a one-byte write. *)
Definition accepts (r : reply) : bool :=
  match r with Ok (S _) _ => true | _ => false end.

Definition transient (r : reply) : bool :=
  match r with Err EAGAIN => true | _ => false end.

(** The calls of [j] rounds of socket_put8_blocking that found the send
    buffer full. *)
Definition full_rounds (j : nat) (fd : Z) (b : byte) : list call :=
  concat (repeat [c_write fd [b]; c_usleep 1000000] j).






(** The port the first initialisation settles on. *)
Definition resolved_port (s : serv_socket_state_t) (w : world) : Z :=
  match env w (name s ++ "_PORT")%string with
  | Some v => atoi v
  | None => to_int (to_uint (port s))
  end.

Definition valid_port (p : Z) : bool := (0 <=? p) && (p <=? 65535).

(** [s'] is [s] with its connection field possibly changed, after the first
    initialisation if [s] had no socket yet. *)
Definition settled (s s' : serv_socket_state_t) (w : world) : Prop :=
  name s' = name s /\
  ((sock s' = sock s /\ port s' = port s) \/
   (sock s = -1 /\ 0 <= sock s' /\ port s' = resolved_port s w /\
    valid_port (port s') = true)).

(** The endpoint an operation hands back is the one the attach step left,
    either untouched or with its connection closed and unset. *)
Definition kept_or_detached (s1 s' : serv_socket_state_t) (w' : world) : Prop :=
  s' = s1 \/ (conn s1 <> -1 /\ s' = set_conn s1 (-1) /\ is_open (conn s1) w' = false).

(** The status byte socket_getN leaves behind the data. *)
Definition status (m : memory) (nbytes : Z) : byte := m nbytes.

(** Chunks of bytes stored one behind the other from offset [off] on. *)
Fixpoint fill (m : memory) (off : Z) (chunks : list (list byte)) : memory :=
  match chunks with
  | [] => m
  | bs :: rest => fill (store m off bs) (off + Z.of_nat (length bs)) rest
  end.

Definition is_getenv (c : call) : bool :=
  match c with c_getenv _ => true | _ => false end.

(** A first initialisation in which every system call succeeds: the answers
    of the kernel ([fd] the new socket, [flags] its file status flags) and
    the calls made. *)
Definition init_replies (server : bool) (fd flags : nat) : list reply :=
  Ok fd [] :: Ok 0 []
    :: (if server then [Ok 0 []; Ok 0 []] else [Ok 0 []])
    ++ [Ok flags []; Ok 0 []].

Definition init_calls (server : bool) (s : serv_socket_state_t) (w : world) (fd flags : nat)
  : list call :=
  let sk := Z.of_nat fd in
  let p := htons (resolved_port s w) in
  [c_signal_ignore_sigpipe; c_socket; c_setsockopt sk; c_getenv (name s ++ "_PORT")%string]
    ++ match env w (name s ++ "_PORT")%string with
       | Some _ => []
       | None => [c_printf "---- %s environment variable not defined, using default port %d instead"]
       end
    ++ (if server then [c_bind sk p; c_listen sk 0] else [c_connect sk p])
    ++ [c_fcntl_getfl sk; c_fcntl_setfl sk (Z.lor (Z.of_nat flags) O_NONBLOCK);
        c_printf "---- %s socket listening on port %d"].


(** ** Sample endpoints and worlds *)

Definition no_env : string -> option string := fun _ => None.

Definition port_env (var value : string) : string -> option string :=
  fun v => if String.eqb v var then Some value else None.

(** A world with the given open descriptors and kernel answers. *)
Definition world_of (fds : list Z) (sc : list reply) : world :=
  mkWorld fds EINTR no_env sc [].

Definition zeros : memory := fun _ => x00.

(** Four bytes 1, 2, 3, 4 behind a pointer. *)
Definition one_to_four : memory :=
  fun i => nth (Z.to_nat i) [x01; x02; x03; x04] x00.

(** A server with its listening socket 3 and a peer on descriptor 4; a
    client connected through its socket 3; an endpoint as socket_create
    leaves it. *)
Definition server_attached : serv_socket_state_t := mkState "sim" 5000 3 4.
Definition client_attached : serv_socket_state_t := mkState "sim" 5000 3 3.
Definition created : serv_socket_state_t := mkState "sim" 5000 (-1) (-1).

(** ** Creation without a name *)

Definition ENV_DFLT_SOCKET_NAME : string := "SOCKET_PACKET_UTILS_DFLT_SOCKET_NAME".
Definition DFLT_SOCKET_NAME : string := "SOCKET_PACKET_UTILS_DFLT".

Definition serv_socket_create_nameless (dflt_port : Z) : OS serv_socket_state_t :=
  s <- sys_getenv ENV_DFLT_SOCKET_NAME ;;
  match s with
  | Some nm => serv_socket_create nm dflt_port
  | None =>
      printf "---- SOCKET_PACKET_UTILS_DFLT_SOCKET_NAME environment variable not defined" ;;
      printf ", using default socket name %s instead" ;;
      serv_socket_create DFLT_SOCKET_NAME dflt_port
  end.

(** ** More vocabulary *)

Definition is_ok (r : reply) : bool :=
  match r with Ok _ _ => true | Err _ => false end.

Definition is_close (c : call) : bool :=
  match c with c_close _ => true | _ => false end.

Definition is_read (c : call) : bool :=
  match c with c_read _ _ => true | _ => false end.

(** The calls by which the code waits on purpose: select without a timeout,
    and usleep. *)
Definition is_waiting (c : call) : bool :=
  match c with
  | c_select_read _ | c_select_write _ | c_usleep _ => true
  | _ => false
  end.

(** The microseconds spent in usleep over a list of calls. *)
Fixpoint slept (cs : list call) : Z :=
  match cs with
  | [] => 0
  | c_usleep usec :: rest => usec + slept rest
  | _ :: rest => slept rest
  end.

(** The calls of the attach step of a server that finds a peer waiting:
    accept on the listening socket, then the new descriptor is made
    non-blocking. *)
Definition accept_calls (sk c : Z) (flags : nat) : list call :=
  [c_accept sk; c_printf "---- %s socket got a connection";
   c_fcntl_getfl c; c_fcntl_setfl c (Z.lor (Z.of_nat flags) O_NONBLOCK)].

(** A setup call of socket_init by its position, for a server (socket,
    setsockopt, bind, listen, fcntl, fcntl) and for a client (socket,
    setsockopt, connect, fcntl, fcntl), with the word perror is given when
    it fails. *)
Definition setup_message (server : bool) (k : nat) : string :=
  match k, server with
  | 0%nat, _ => "socket"
  | 1%nat, _ => "setsockopt"
  | 2%nat, true => "bind"
  | 3%nat, true => "listen"
  | 2%nat, false => "connect"
  | _, _ => "fcntl"
  end.

Definition setup_length (server : bool) : nat := if server then 6%nat else 5%nat.

(** Calls only a server makes, and the call only a client makes. *)
Definition is_server_call (c : call) : bool :=
  match c with c_bind _ _ | c_listen _ _ | c_accept _ => true | _ => false end.

Definition is_connect (c : call) : bool :=
  match c with c_connect _ _ => true | _ => false end.

(** A computation makes no call of the kind [p], however it ends. *)
Definition avoids {A} (p : call -> bool) (c : OS A) : Prop :=
  forall w, count_calls p (final (c w)) = count_calls p w.

(** A server that listens on socket 3 and has no peer. *)
Definition server_listening : serv_socket_state_t := mkState "sim" 5000 3 (-1).

(** ** An endpoint among the rest of the process *)

(** What happens in the process over time, seen from one endpoint: an
    operation on the endpoint, or anything else, which changes the world
    behind its back (other endpoints are set up, descriptors are opened and
    closed, the kernel moves on in its answers). *)
Inductive event : Type :=
| on_endpoint (o : op)
| elsewhere (f : world -> world).

Fixpoint run_events (server : bool) (evs : list event) (s : serv_socket_state_t)
  : OS (list op_result * serv_socket_state_t) :=
  match evs with
  | [] => ret ([], s)
  | on_endpoint o :: rest =>
      '(r, s') <- run_op server o s ;;
      '(rs, s'') <- run_events server rest s' ;;
      ret (r :: rs, s'')
  | elsewhere f :: rest => fun w => run_events server rest s (f w)
  end.

(** The operations among the events. *)
Fixpoint operations (evs : list event) : list op :=
  match evs with
  | [] => []
  | on_endpoint o :: rest => o :: operations rest
  | elsewhere _ :: rest => operations rest
  end.

(** A change of the world that opens no descriptor of the number [fd]. *)
Definition keeps_closed (fd : Z) (f : world -> world) : Prop :=
  forall w, is_open fd w = false -> is_open fd (f w) = false.

(** The byte counts of the operations are not negative, and nothing else in
    the process opens a descriptor of the number [fd]. *)
Definition leaves_alone (fd : Z) (e : event) : Prop :=
  match e with
  | on_endpoint o => sized o
  | elsewhere f => keeps_closed fd f
  end.

(** * Properties *)

(** ** The monad *)

Lemma bind_Returned {A B} (c : OS A) (k : A -> OS B) w a w' :
  c w = Returned a w' -> bind c k w = k a w'.
Proof. intros H. unfold bind. now rewrite H. Qed.

Lemma bind_inv {A B} (c : OS A) (k : A -> OS B) w b w'' :
  bind c k w = Returned b w'' ->
  exists a w', c w = Returned a w' /\ k a w' = Returned b w''.
Proof.
  unfold bind. destruct (c w) as [a w'| | |]; try discriminate.
  intros H. now exists a, w'.
Qed.

Lemma NO_DATA_value : NO_DATA = 4294967295.
Proof. reflexivity. Qed.

Lemma uint32_of_byte_range (b : byte) : 0 <= uint32_of_byte b <= 255.
Proof.
  unfold uint32_of_byte. pose proof (Byte.to_N_bounded b). lia.
Qed.

Lemma not_transient_false n e :
  not_transient n e = false <-> n = -1 /\ e = EAGAIN.
Proof.
  unfold not_transient. rewrite negb_false_iff, andb_true_iff, Z.eqb_eq.
  split; intros [H1 H2]; split; auto.
  - now destruct e.
  - now subst e.
Qed.

(** ** The system calls *)

Lemma on_fd_closed fd c w :
  is_open fd w = false -> on_fd fd c w = Returned (Err EBADF) (logged c w).
Proof.
  intros H. unfold on_fd, bind, emit. cbn beta iota.
  change (is_open fd (logged c w)) with (is_open fd w). now rewrite H.
Qed.

Lemma on_fd_open fd c w r rest :
  is_open fd w = true -> script w = r :: rest ->
  on_fd fd c w = Returned r (answered rest (logged c w)).
Proof.
  intros H Hs. unfold on_fd, bind, emit. cbn beta iota.
  change (is_open fd (logged c w)) with (is_open fd w). rewrite H.
  unfold next_reply. cbn. now rewrite Hs.
Qed.

Lemma on_fd_starved fd c w :
  is_open fd w = true -> script w = [] -> on_fd fd c w = Blocked (logged c w).
Proof.
  intros H Hs. unfold on_fd, bind, emit. cbn beta iota.
  change (is_open fd (logged c w)) with (is_open fd w). rewrite H.
  unfold next_reply. cbn. now rewrite Hs.
Qed.

(** What a call on a descriptor comes to, in the three cases. *)
Lemma on_fd_cases fd c w :
  (is_open fd w = false /\ on_fd fd c w = Returned (Err EBADF) (logged c w)) \/
  (is_open fd w = true /\ script w = [] /\ on_fd fd c w = Blocked (logged c w)) \/
  (exists r rest, is_open fd w = true /\ script w = r :: rest /\
     on_fd fd c w = Returned r (answered rest (logged c w))).
Proof.
  destruct (is_open fd w) eqn:Ho.
  - destruct (script w) as [|r rest] eqn:Hs.
    + right; left. auto using on_fd_starved.
    + right; right. exists r, rest. auto using on_fd_open.
  - left. auto using on_fd_closed.
Qed.

Lemma sys_read_inv fd k w n got w' :
  sys_read fd k w = Returned (n, got) w' ->
  (n = -1 /\ got = []) \/
  (n = Z.of_nat (length got) /\ (length got <= Z.to_nat k)%nat).
Proof.
  unfold sys_read, bind.
  destruct (on_fd_cases fd (c_read fd k) w)
    as [[_ ->]|[(_ & _ & ->)|(r & rest & _ & _ & ->)]]; try discriminate.
  - cbn. intros [= <- <- <-]. now left.
  - destruct r as [v bs|e]; cbn.
    + intros [= <- <- <-]. right. split; auto. apply firstn_le_length.
    + intros [= <- <- <-]. now left.
Qed.

Lemma sys_write_inv fd bs w n w' :
  sys_write fd bs w = Returned n w' ->
  n = -1 \/ 0 <= n <= Z.of_nat (length bs).
Proof.
  unfold sys_write, bind.
  destruct (on_fd_cases fd (c_write fd bs) w)
    as [[_ ->]|[(_ & _ & ->)|(r & rest & _ & _ & ->)]]; try discriminate.
  - cbn. intros [= <- <-]. now left.
  - destruct r as [v x|e]; cbn.
    + intros [= <- <-]. right. lia.
    + intros [= <- <-]. now left.
Qed.

Lemma existsb_filter_out fd (l : list Z) :
  existsb (Z.eqb fd) (filter (fun x => negb (Z.eqb fd x)) l) = false.
Proof.
  induction l as [|x l IH]; cbn; auto.
  destruct (Z.eqb fd x) eqn:E; cbn; auto. now rewrite E.
Qed.

Lemma existsb_filter_keeps_out fd fd' (l : list Z) :
  existsb (Z.eqb fd') l = false ->
  existsb (Z.eqb fd') (filter (fun x => negb (Z.eqb fd x)) l) = false.
Proof.
  induction l as [|x l IH]; cbn; auto.
  intros H. apply orb_false_iff in H as [H1 H2].
  destruct (negb (fd =? x)); cbn; auto. now rewrite H1, IH.
Qed.

Lemma sys_close_spec fd w :
  exists w', sys_close fd w = Returned tt w' /\
    is_open fd w' = false /\
    trace w' = trace w ++ [c_close fd] /\
    script w' = script w /\ errno w' = errno w /\ env w' = env w /\
    (forall fd', is_open fd' w = false -> is_open fd' w' = false).
Proof.
  unfold sys_close, bind, emit, drop_fd. eexists. split; [reflexivity|].
  unfold is_open. cbn.
  split; [apply existsb_filter_out|]. repeat split; auto.
  intros fd'. apply existsb_filter_keeps_out.
Qed.

(** ** get8 *)

Lemma socket_get8_unattached s server w s1 w1 :
  acceptConnection s server w = Returned s1 w1 -> conn s1 = -1 ->
  socket_get8 s server w = Returned (NO_DATA, s1) w1.
Proof.
  intros H Hc. unfold socket_get8. rewrite (bind_Returned _ _ _ _ _ H).
  now rewrite Hc.
Qed.

Lemma socket_get8_read s server w s1 w1 n got w2 :
  acceptConnection s server w = Returned s1 w1 -> conn s1 <> -1 ->
  sys_read (conn s1) 1 w1 = Returned (n, got) w2 ->
  socket_get8 s server w =
    if n =? 1 then Returned (uint32_of_byte (hd x00 got), s1) w2
    else if not_transient n (errno w2)
         then (sys_close (conn s1) ;; ret (NO_DATA, set_conn s1 (-1))) w2
         else Returned (NO_DATA, s1) w2.
Proof.
  intros H Hc Hr. unfold socket_get8. rewrite (bind_Returned _ _ _ _ _ H).
  apply Z.eqb_neq in Hc. rewrite Hc.
  rewrite (bind_Returned _ _ _ _ _ Hr). cbn beta iota.
  destruct (n =? 1); auto.
  unfold bind at 1, get_errno. now destruct (not_transient n (errno w2)).
Qed.

(** C5. get8 gives back either the byte the one-byte read delivered, as a
    number from 0 to 255, or the sentinel 0xFFFFFFFF.  The sentinel comes in
    exactly three cases: the attach step leaves no connection; the read
    reports the transient condition (-1 with EAGAIN), and the endpoint stays
    as it is; the read ends in any other way without a byte, and the
    connection is closed and its descriptor unset.  No byte value equals the
    sentinel. *)
Theorem socket_get8_byte_or_sentinel s server w s1 w1 :
  acceptConnection s server w = Returned s1 w1 ->
  (conn s1 = -1 -> socket_get8 s server w = Returned (NO_DATA, s1) w1) /\
  (conn s1 <> -1 ->
   forall n got w2, sys_read (conn s1) 1 w1 = Returned (n, got) w2 ->
     (n = 1 ->
        exists b, got = [b] /\
          socket_get8 s server w = Returned (uint32_of_byte b, s1) w2 /\
          0 <= uint32_of_byte b <= 255) /\
     (n = -1 /\ errno w2 = EAGAIN ->
        socket_get8 s server w = Returned (NO_DATA, s1) w2) /\
     (n <> 1 -> ~ (n = -1 /\ errno w2 = EAGAIN) ->
        exists w3, sys_close (conn s1) w2 = Returned tt w3 /\
          socket_get8 s server w = Returned (NO_DATA, set_conn s1 (-1)) w3 /\
          conn (set_conn s1 (-1)) = -1 /\ is_open (conn s1) w3 = false)) /\
  NO_DATA = 4294967295 /\
  (forall b, uint32_of_byte b <> NO_DATA).
Proof.
  intros H. split; [|split; [|split]].
  - now apply socket_get8_unattached.
  - intros Hc n got w2 Hr.
    pose proof (socket_get8_read _ _ _ _ _ _ _ _ H Hc Hr) as E.
    split; [|split].
    + intros ->. cbn in E.
      apply sys_read_inv in Hr as [[Hn _]|[Hn _]]; [discriminate|].
      destruct got as [|b [|b' got]]; cbn in Hn; try lia.
      exists b. repeat split; auto; apply uint32_of_byte_range.
    + intros [-> He]. cbn in E.
      assert (Hnt : not_transient (-1) (errno w2) = false)
        by now apply not_transient_false.
      now rewrite Hnt in E.
    + intros Hn1 Hnt. apply Z.eqb_neq in Hn1. rewrite Hn1 in E.
      destruct (not_transient n (errno w2)) eqn:Ent.
      * destruct (sys_close_spec (conn s1) w2) as (w3 & Hcl & Hop & _).
        exists w3. repeat split; auto.
        rewrite E. now rewrite (bind_Returned _ _ _ _ _ Hcl).
      * apply not_transient_false in Ent. contradiction.
  - reflexivity.
  - intros b. pose proof (uint32_of_byte_range b). rewrite NO_DATA_value. lia.
Qed.


Lemma sys_write_trace fd bs w n w' :
  sys_write fd bs w = Returned n w' ->
  trace w' = trace w ++ [c_write fd bs] /\ env w' = env w /\
  (forall fd', is_open fd' w' = is_open fd' w).
Proof.
  unfold sys_write, bind.
  destruct (on_fd_cases fd (c_write fd bs) w)
    as [[_ ->]|[(_ & _ & ->)|(r & rest & _ & _ & ->)]]; try discriminate.
  - cbn. intros [= <- <-]. auto.
  - destruct r as [v x|e]; cbn; intros [= <- <-]; auto.
Qed.

(** ** put8 *)

Lemma socket_put8_unattached s b server w s1 w1 :
  acceptConnection s server w = Returned s1 w1 -> conn s1 = -1 ->
  socket_put8 s b server w = Returned (0, s1) w1.
Proof.
  intros H Hc. unfold socket_put8. rewrite (bind_Returned _ _ _ _ _ H).
  now rewrite Hc.
Qed.

Lemma socket_put8_write s b server w s1 w1 n w2 :
  acceptConnection s server w = Returned s1 w1 -> conn s1 <> -1 ->
  sys_write (conn s1) [b] w1 = Returned n w2 ->
  socket_put8 s b server w =
    if n =? 1 then Returned (1, s1) w2
    else if not_transient n (errno w2)
         then (sys_close (conn s1) ;; ret (0, set_conn s1 (-1))) w2
         else Returned (0, s1) w2.
Proof.
  intros H Hc Hr. unfold socket_put8. rewrite (bind_Returned _ _ _ _ _ H).
  apply Z.eqb_neq in Hc. rewrite Hc.
  rewrite (bind_Returned _ _ _ _ _ Hr). cbn beta iota.
  destruct (n =? 1); auto.
  unfold bind at 1, get_errno. now destruct (not_transient n (errno w2)).
Qed.

(** C6. put8 answers 1 exactly when its single one-byte write took the byte
    (the write returned 1).  Without a connection after the attach step it
    answers 0 and writes nothing.  When the write reports the transient
    condition (-1 with EAGAIN) it answers 0 and leaves the endpoint as it is,
    the connection descriptor still set.  On any other result of the write it
    closes the connection, unsets the descriptor and answers 0. *)
Theorem socket_put8_success_iff s b server w s1 w1 :
  acceptConnection s server w = Returned s1 w1 ->
  (conn s1 = -1 -> socket_put8 s b server w = Returned (0, s1) w1) /\
  (conn s1 <> -1 ->
   forall n w2, sys_write (conn s1) [b] w1 = Returned n w2 ->
     trace w2 = trace w1 ++ [c_write (conn s1) [b]] /\
     (exists r s' w', socket_put8 s b server w = Returned (r, s') w' /\
        (r = 1 <-> n = 1) /\ (r = 0 \/ r = 1)) /\
     (n = 1 -> socket_put8 s b server w = Returned (1, s1) w2) /\
     (n = -1 /\ errno w2 = EAGAIN ->
        socket_put8 s b server w = Returned (0, s1) w2 /\ attached s1) /\
     (n <> 1 -> ~ (n = -1 /\ errno w2 = EAGAIN) ->
        exists w3, sys_close (conn s1) w2 = Returned tt w3 /\
          socket_put8 s b server w = Returned (0, set_conn s1 (-1)) w3 /\
          conn (set_conn s1 (-1)) = -1 /\ is_open (conn s1) w3 = false)).
Proof.
  intros H. split.
  - now apply socket_put8_unattached.
  - intros Hc n w2 Hr.
    pose proof (socket_put8_write _ _ _ _ _ _ _ _ H Hc Hr) as E.
    destruct (sys_close_spec (conn s1) w2) as (w3 & Hcl & Hop & _).
    rewrite (bind_Returned _ _ _ _ _ Hcl) in E. unfold ret in E.
    split; [apply (sys_write_trace _ _ _ _ _ Hr)|].
    split; [|split; [|split]].
    + destruct (n =? 1) eqn:En.
      * apply Z.eqb_eq in En. exists 1, s1, w2. repeat split; auto.
      * apply Z.eqb_neq in En.
        destruct (not_transient n (errno w2)); eexists 0, _, _;
          (split; [exact E|]); split; auto; split; intros; lia.
    + intros ->. exact E.
    + intros [-> He]. cbn in E.
      assert (Hnt : not_transient (-1) (errno w2) = false)
        by now apply not_transient_false.
      rewrite Hnt in E. split; auto.
    + intros Hn1 Hnt. apply Z.eqb_neq in Hn1. rewrite Hn1 in E.
      destruct (not_transient n (errno w2)) eqn:Ent.
      * exists w3. repeat split; auto.
      * apply not_transient_false in Ent. contradiction.
Qed.

(** ** put8Blocking *)

Lemma sys_write_open fd bs w r rest :
  is_open fd w = true -> script w = r :: rest ->
  exists w', sys_write fd bs w =
      Returned (match r with Ok v _ => Z.of_nat (Nat.min v (length bs)) | Err _ => -1 end) w' /\
    trace w' = trace w ++ [c_write fd bs] /\ script w' = rest /\
    open_fds w' = open_fds w /\ env w' = env w /\
    errno w' = match r with Ok _ _ => errno w | Err e => e end.
Proof.
  intros Ho Hs. unfold sys_write, bind.
  rewrite (on_fd_open _ _ _ _ _ Ho Hs).
  destruct r as [v x|e]; cbn; eexists; split; try reflexivity; cbn; auto.
Qed.

Lemma sys_write_closed fd bs w :
  is_open fd w = false ->
  exists w', sys_write fd bs w = Returned (-1) w' /\
    trace w' = trace w ++ [c_write fd bs] /\ script w' = script w /\
    open_fds w' = open_fds w /\ env w' = env w /\ errno w' = EBADF.
Proof.
  intros Ho. unfold sys_write, bind. rewrite (on_fd_closed _ _ _ Ho).
  cbn. eexists; split; try reflexivity; cbn; auto.
Qed.

Lemma sys_write_outcome fd bs w :
  (exists n w', sys_write fd bs w = Returned n w' /\
     trace w' = trace w ++ [c_write fd bs]) \/
  (exists w', sys_write fd bs w = Blocked w' /\
     trace w' = trace w ++ [c_write fd bs]).
Proof.
  unfold sys_write, bind.
  destruct (on_fd_cases fd (c_write fd bs) w)
    as [[_ ->]|[(_ & _ & ->)|(r & rest & _ & _ & ->)]].
  - left. cbn. eauto.
  - right. eauto.
  - left. destruct r; cbn; eauto.
Qed.

Lemma count_calls_snoc p w w' c :
  trace w' = trace w ++ [c] ->
  count_calls p w' = (count_calls p w + if p c then 1 else 0)%nat.
Proof.
  unfold count_calls. intros ->. rewrite filter_app, length_app. cbn.
  now destruct (p c).
Qed.

Lemma is_open_same fd w w' : open_fds w' = open_fds w -> is_open fd w' = is_open fd w.
Proof. unfold is_open. now intros ->. Qed.

(** Rounds that find the send buffer full: each makes one write, sleeps one
    second and leaves one round less. *)
Lemma put8_rounds_full j : forall left fd b w rest,
  is_open fd w = true -> script w = repeat (Err EAGAIN) j ++ rest ->
  exists w', put8_rounds (j + left) fd b w = put8_rounds left fd b w' /\
    trace w' = trace w ++ full_rounds j fd b /\ script w' = rest /\
    open_fds w' = open_fds w /\ env w' = env w.
Proof.
  induction j as [|j IH]; intros left fd b w rest Ho Hs.
  - exists w. cbn in *. rewrite app_nil_r. auto.
  - cbn [repeat app] in Hs.
    destruct (sys_write_open fd [b] w _ _ Ho Hs)
      as (w1 & Hw & Ht & Hs1 & Hf & He & Hn).
    cbn [Nat.add put8_rounds]. rewrite (bind_Returned _ _ _ _ _ Hw).
    cbn beta iota. change (-1 =? 1) with false. cbn iota.
    unfold bind at 1, get_errno. rewrite Hn.
    change (not_transient (-1) EAGAIN) with false. cbn iota.
    unfold bind at 1, usleep, emit.
    destruct (IH left fd b (logged (c_usleep 1000000) w1) rest)
      as (w' & E & Ht' & Hs' & Hf' & He').
    + rewrite <- Ho. apply is_open_same. cbn. exact Hf.
    + cbn. exact Hs1.
    + exists w'. split; [exact E|]. cbn in Ht', Hf', He'.
      rewrite Ht', Ht, Hf', He', Hf, He. unfold full_rounds. cbn.
      rewrite <- !app_assoc. cbn. auto.
Qed.

(** The round that settles the matter: the kernel takes the byte, or the
    write fails for good. *)
Lemma put8_rounds_settled left fd b w r rest :
  is_open fd w = true -> script w = r :: rest -> transient r = false ->
  exists w', put8_rounds (S left) fd b w =
      Returned (if accepts r then 1 else 0) w' /\
    trace w' = trace w ++ [c_write fd [b]] /\ script w' = rest /\
    open_fds w' = open_fds w.
Proof.
  intros Ho Hs Hr.
  destruct (sys_write_open fd [b] w _ _ Ho Hs)
    as (w1 & Hw & Ht & Hs1 & Hf & He & Hn).
  cbn [put8_rounds]. rewrite (bind_Returned _ _ _ _ _ Hw). cbn beta iota.
  exists w1. split; auto.
  destruct r as [[|v] x|e]; cbn.
  - unfold bind, get_errno. reflexivity.
  - rewrite Nat.min_0_r. reflexivity.
  - unfold bind, get_errno. rewrite Hn. now destruct e.
Qed.

Lemma put8_rounds_closed left fd b w :
  is_open fd w = false ->
  exists w', put8_rounds (S left) fd b w = Returned 0 w' /\
    trace w' = trace w ++ [c_write fd [b]] /\ script w' = script w /\
    open_fds w' = open_fds w.
Proof.
  intros Ho.
  destruct (sys_write_closed fd [b] w Ho) as (w1 & Hw & Ht & Hs1 & Hf & He & Hn).
  cbn [put8_rounds]. rewrite (bind_Returned _ _ _ _ _ Hw). cbn beta iota.
  exists w1. split; auto. cbn. unfold bind, get_errno. now rewrite Hn.
Qed.

(** However the kernel answers, [left] rounds make at most [left] writes, and
    the loop ends by returning 0 or 1, or stops where the script ends. *)
Lemma put8_rounds_bound left : forall fd b w,
  (count_calls is_write (final (put8_rounds left fd b w))
     <= count_calls is_write w + left)%nat /\
  ((exists r w', put8_rounds left fd b w = Returned r w' /\ (r = 0 \/ r = 1)) \/
   (exists w', put8_rounds left fd b w = Blocked w')).
Proof.
  induction left as [|left IH]; intros fd b w.
  - cbn. split.
    + unfold count_calls. cbn. rewrite filter_app, length_app. cbn. lia.
    + left. eauto.
  - cbn [put8_rounds].
    destruct (sys_write_outcome fd [b] w) as [(n & w1 & Hw & Ht)|(w1 & Hw & Ht)].
    + rewrite (bind_Returned _ _ _ _ _ Hw). cbn beta iota.
      pose proof (count_calls_snoc is_write w w1 _ Ht) as Hc. cbn in Hc.
      destruct (n =? 1).
      * cbn. split; [lia|]. left. eauto.
      * unfold bind at 1 3 5, get_errno.
        destruct (not_transient n (errno w1)).
        -- cbn. split; [lia|]. left. eauto.
        -- unfold bind, usleep, emit.
           destruct (IH fd b (logged (c_usleep 1000000) w1)) as [Hb Hr].
           split; [|exact Hr].
           assert (count_calls is_write (logged (c_usleep 1000000) w1)
                   = count_calls is_write w1) as E.
           { unfold count_calls. cbn. rewrite filter_app, length_app. cbn. lia. }
           lia.
    + unfold bind. rewrite Hw. cbn.
      pose proof (count_calls_snoc is_write w w1 _ Ht) as Hc. cbn in Hc.
      split; [lia|]. right. eauto.
Qed.

Lemma socket_put8_blocking_attached s b server w s1 w1 :
  acceptConnection s server w = Returned s1 w1 -> conn s1 <> -1 ->
  socket_put8_blocking s b server w =
    (r <- put8_rounds 1000 (conn s1) b ;; ret (r, s1)) w1.
Proof.
  intros H Hc. unfold socket_put8_blocking.
  rewrite (bind_Returned _ _ _ _ _ H).
  apply Z.eqb_neq in Hc. now rewrite Hc.
Qed.

(** C4. put8Blocking makes at most 1000 one-byte writes, whatever the kernel
    answers.  After [j < 1000] writes that found the send buffer full, each
    followed by a sleep of one second, the first write that ends otherwise
    settles the call: 1 when the kernel took the byte, 0 when the write failed
    for another reason, and no further write is made.  After 1000 writes that
    found the buffer full it logs the failure and returns 0.  On a descriptor
    that is not open the first write fails and it returns 0.  Without a
    connection after the attach step it returns 0 and writes nothing. *)
Theorem socket_put8_blocking_bounded s b server w s1 w1 :
  acceptConnection s server w = Returned s1 w1 ->
  (conn s1 = -1 -> socket_put8_blocking s b server w = Returned (0, s1) w1) /\
  (conn s1 <> -1 ->
   (count_calls is_write (final (socket_put8_blocking s b server w))
      <= count_calls is_write w1 + 1000)%nat /\
   (is_open (conn s1) w1 = true ->
    forall j r rest, (j < 1000)%nat ->
      script w1 = repeat (Err EAGAIN) j ++ r :: rest -> transient r = false ->
      exists w', socket_put8_blocking s b server w =
          Returned (if accepts r then 1 else 0, s1) w' /\
        trace w' = trace w1 ++ full_rounds j (conn s1) b ++ [c_write (conn s1) [b]] /\
        script w' = rest) /\
   (is_open (conn s1) w1 = true ->
    forall rest, script w1 = repeat (Err EAGAIN) 1000 ++ rest ->
      exists w', socket_put8_blocking s b server w = Returned (0, s1) w' /\
        trace w' = trace w1 ++ full_rounds 1000 (conn s1) b
                     ++ [c_perror "Failed to send byte in socket"] /\
        script w' = rest) /\
   (is_open (conn s1) w1 = false ->
      exists w', socket_put8_blocking s b server w = Returned (0, s1) w' /\
        trace w' = trace w1 ++ [c_write (conn s1) [b]] /\
        script w' = script w1)).
Proof.
  intros H. split.
  - intros Hc. unfold socket_put8_blocking.
    rewrite (bind_Returned _ _ _ _ _ H). now rewrite Hc.
  - intros Hc. rewrite (socket_put8_blocking_attached _ _ _ _ _ _ H Hc).
    split; [|split; [|split]].
    + destruct (put8_rounds_bound 1000 (conn s1) b w1) as [Hb Hr].
      unfold bind.
      destruct Hr as [(r & w' & E & _)|(w' & E)]; rewrite E in *; exact Hb.
    + intros Ho j r rest Hj Hs Hr.
      destruct (put8_rounds_full j (S (999 - j)) (conn s1) b w1 _ Ho Hs)
        as (w2 & E & Ht & Hs2 & Hf & He).
      replace (j + S (999 - j))%nat with 1000%nat in E by lia.
      assert (Ho2 : is_open (conn s1) w2 = true)
        by (rewrite <- Ho; now apply is_open_same).
      destruct (put8_rounds_settled (999 - j) (conn s1) b w2 r rest Ho2 Hs2 Hr)
        as (w3 & E3 & Ht3 & Hs3 & _).
      exists w3. unfold bind. rewrite E, E3. split; [reflexivity|].
      rewrite Ht3, Ht, <- app_assoc. auto.
    + intros Ho rest Hs.
      destruct (put8_rounds_full 1000 0 (conn s1) b w1 _ Ho Hs)
        as (w2 & E & Ht & Hs2 & Hf & He).
      replace (1000 + 0)%nat with 1000%nat in E by lia.
      unfold bind. rewrite E. unfold put8_rounds, bind, perror, emit, ret.
      eexists. split; [reflexivity|]. cbn [trace script logged].
      rewrite Ht, <- app_assoc. auto.
    + intros Ho.
      destruct (put8_rounds_closed 999 (conn s1) b w1 Ho) as (w2 & E & Ht & Hs & _).
      change 1000%nat with (S 999). unfold bind. rewrite E.
      exists w2. auto.
Qed.

(** ** Initialisation *)

(** A branch that ends in exit(EXIT_FAILURE) returns nothing. *)
Ltac exits H := unfold bind, perror, emit, exit_failure in H; discriminate.

Ltac inv_bind H :=
  let a := fresh "a" in
  let w := fresh "w" in
  let H1 := fresh "H" in
  apply bind_inv in H as (a & w & H1 & H).

Lemma on_fd_env fd c w r w' : on_fd fd c w = Returned r w' -> env w' = env w.
Proof.
  destruct (on_fd_cases fd c w)
    as [[_ ->]|[(_ & _ & ->)|(r' & rest & _ & _ & ->)]]; try discriminate;
    now intros [= <- <-].
Qed.

Lemma on_fd_is_open fd c w r w' :
  on_fd fd c w = Returned r w' -> forall fd', is_open fd' w' = is_open fd' w.
Proof.
  destruct (on_fd_cases fd c w)
    as [[_ ->]|[(_ & _ & ->)|(r' & rest & _ & _ & ->)]]; try discriminate;
    now intros [= <- <-].
Qed.

Lemma sys_plain_env fd c w r w' : sys_plain fd c w = Returned r w' -> env w' = env w.
Proof.
  unfold sys_plain. intros H. inv_bind H. apply on_fd_env in H0.
  destruct a; cbn in H; injection H as <- <-; auto.
Qed.

Lemma sys_value_env fd c w r w' : sys_value fd c w = Returned r w' -> env w' = env w.
Proof.
  unfold sys_value. intros H. inv_bind H. apply on_fd_env in H0.
  destruct a; cbn in H; injection H as <- <-; auto.
Qed.

Lemma sys_socket_inv w fd w' :
  sys_socket w = Returned fd w' -> env w' = env w /\ (fd = -1 \/ 0 <= fd).
Proof.
  unfold sys_socket, bind, emit, next_reply. cbn.
  destruct (script w) as [|[v x|e] rest]; cbn; try discriminate;
    intros [= <- <-]; cbn; split; auto. right. lia.
Qed.

Lemma getPortNumber_inv nm d w p w' :
  getPortNumber nm d w = Returned p w' ->
  p = match env w (nm ++ "_PORT")%string with
      | Some v => atoi v
      | None => to_int d
      end /\
  valid_port p = true /\ env w' = env w.
Proof.
  unfold getPortNumber, sys_getenv, bind, emit, printf, emit, assert, ret. cbn.
  destruct (env w (nm ++ "_PORT")%string) as [v|]; cbn.
  - fold (valid_port (atoi v)). destruct (valid_port (atoi v)) eqn:E; try discriminate.
    intros [= <- <-]. auto.
  - fold (valid_port (to_int d)). destruct (valid_port (to_int d)) eqn:E; try discriminate.
    intros [= <- <-]. auto.
Qed.

Lemma getPortNumber_bad nm d w :
  valid_port (match env w (nm ++ "_PORT")%string with
              | Some v => atoi v
              | None => to_int d
              end) = false ->
  exists w', getPortNumber nm d w = AssertFailed w'.
Proof.
  unfold getPortNumber, sys_getenv, bind, emit, printf, emit, assert, ret. cbn.
  destruct (env w (nm ++ "_PORT")%string) as [v|]; cbn.
  - fold (valid_port (atoi v)). intros ->. eauto.
  - fold (valid_port (to_int d)). intros ->. eauto.
Qed.

Lemma socketSetNonBlocking_env fd w u w' :
  socketSetNonBlocking fd w = Returned u w' -> env w' = env w.
Proof.
  unfold socketSetNonBlocking. intros H. inv_bind H.
  apply sys_value_env in H0. rewrite <- H0.
  destruct (a =? -1).
  - exits H.
  - inv_bind H. apply sys_plain_env in H1. rewrite <- H1.
    destruct (a0 =? -1).
    + exits H.
    + unfold ret in H. now inversion H.
Qed.

Lemma to_int_to_uint z : to_int (to_uint z) = to_int z.
Proof.
  unfold to_int, to_uint.
  rewrite <- (Zplus_mod_idemp_l z). reflexivity.
Qed.

(** An endpoint that has its socket is left alone by socket_init. *)
Lemma socket_init_done s server w :
  sock s <> -1 -> socket_init s server w = Returned s w.
Proof.
  intros H. unfold socket_init. apply Z.eqb_neq in H. now rewrite H.
Qed.

(** What the first initialisation leaves when it returns. *)
Lemma socket_init_first s server w s' w' :
  sock s = -1 -> socket_init s server w = Returned s' w' ->
  exists fd, 0 <= fd /\
    s' = mkState (name s) (resolved_port s w) fd (conn s) /\
    valid_port (resolved_port s w) = true /\ env w' = env w.
Proof.
  intros Hs H. unfold socket_init in H. rewrite Hs in H. cbn [Z.eqb negb] in H.
  apply bind_inv in H as (u0 & w0 & H0 & H).
  unfold emit in H0. injection H0 as _ <-.
  apply bind_inv in H as (fd & w1 & H1 & H).
  apply sys_socket_inv in H1 as [He1 Hfd]. cbn [env logged] in He1.
  cbn [sock set_sock] in H.
  destruct (fd =? -1) eqn:Ea.
  { exits H. }
  apply Z.eqb_neq in Ea. destruct Hfd as [Hfd|Hfd]; [contradiction|].
  apply bind_inv in H as (r2 & w2 & H2 & H). apply sys_plain_env in H2.
  destruct (r2 =? -1).
  { exits H. }
  apply bind_inv in H as (p & w3 & H3 & H). cbn [name port set_sock] in H3.
  apply getPortNumber_inv in H3 as (Hp & Hv & He3).
  apply bind_inv in H as (u4 & w4 & H4 & H).
  apply bind_inv in H as (u5 & w5 & H5 & H).
  apply socketSetNonBlocking_env in H5.
  apply bind_inv in H as (u6 & w6 & H6 & H).
  unfold printf, emit in H6. injection H6 as _ <-.
  unfold ret in H. injection H as <- <-.
  assert (He4 : env w4 = env w3).
  { destruct server.
    - apply bind_inv in H4 as (r & w7 & H7 & H4). apply sys_plain_env in H7.
      rewrite <- H7. destruct (r =? -1).
      + exits H4.
      + apply bind_inv in H4 as (r' & w8 & H8 & H4). apply sys_plain_env in H8.
        rewrite <- H8. destruct (r' =? -1).
        * exits H4.
        * unfold ret in H4. now inversion H4.
    - apply bind_inv in H4 as (r & w7 & H7 & H4). apply sys_plain_env in H7.
      rewrite <- H7. destruct (r =? -1).
      + exits H4.
      + unfold ret in H4. now inversion H4. }
  assert (Hr : p = resolved_port s w).
  { unfold resolved_port. now rewrite Hp, H2, He1. }
  exists fd. split; [exact Hfd|]. split; [now rewrite Hr|].
  split; [now rewrite <- Hr|]. cbn [env logged]. now rewrite H5, He4, He3, H2, He1.
Qed.

Lemma is_open_opened fd w : is_open fd (opened fd w) = true.
Proof. unfold is_open. cbn [open_fds opened existsb]. now rewrite Z.eqb_refl. Qed.

Lemma sys_socket_ok w v x rest :
  script w = Ok v x :: rest ->
  sys_socket w =
    Returned (Z.of_nat v) (opened (Z.of_nat v) (answered rest (logged c_socket w))).
Proof.
  intros Hs. unfold sys_socket, bind, emit, next_reply.
  cbn [script logged]. now rewrite Hs.
Qed.

Lemma sys_plain_ok fd c w v x rest :
  is_open fd w = true -> script w = Ok v x :: rest ->
  sys_plain fd c w = Returned 0 (answered rest (logged c w)).
Proof.
  intros Ho Hs. unfold sys_plain, bind. now rewrite (on_fd_open _ _ _ _ _ Ho Hs).
Qed.

Lemma sys_value_ok fd c w v x rest :
  is_open fd w = true -> script w = Ok v x :: rest ->
  sys_value fd c w = Returned (Z.of_nat v) (answered rest (logged c w)).
Proof.
  intros Ho Hs. unfold sys_value, bind. now rewrite (on_fd_open _ _ _ _ _ Ho Hs).
Qed.

Lemma socketSetNonBlocking_ok fd w flags x v y rest :
  is_open fd w = true -> script w = Ok flags x :: Ok v y :: rest ->
  socketSetNonBlocking fd w =
    Returned tt
      (answered rest
         (logged (c_fcntl_setfl fd (Z.lor (Z.of_nat flags) O_NONBLOCK))
            (answered (Ok v y :: rest) (logged (c_fcntl_getfl fd) w)))).
Proof.
  intros Ho Hs. unfold socketSetNonBlocking.
  rewrite (bind_Returned _ _ _ _ _ (sys_value_ok _ _ _ _ _ _ Ho Hs)).
  assert (E : (Z.of_nat flags =? -1) = false) by (apply Z.eqb_neq; lia).
  rewrite E.
  erewrite bind_Returned; [|apply sys_plain_ok with (v := v) (x := y) (rest := rest)];
    [reflexivity|exact Ho|reflexivity].
Qed.

Lemma getPortNumber_ok nm d w :
  valid_port (match env w (nm ++ "_PORT")%string with
              | Some v => atoi v
              | None => to_int d
              end) = true ->
  exists w', getPortNumber nm d w =
      Returned (match env w (nm ++ "_PORT")%string with
                | Some v => atoi v
                | None => to_int d
                end) w' /\
    open_fds w' = open_fds w /\ script w' = script w /\ env w' = env w /\
    trace w' = trace w ++
      (c_getenv (nm ++ "_PORT")%string
         :: match env w (nm ++ "_PORT")%string with
            | Some _ => []
            | None => [c_printf "---- %s environment variable not defined, using default port %d instead"]
            end).
Proof.
  unfold getPortNumber, sys_getenv, bind, emit, printf, emit, assert, ret. cbn.
  destruct (env w (nm ++ "_PORT")%string) as [v|]; cbn.
  - fold (valid_port (atoi v)). intros ->. eexists. split; [reflexivity|]. cbn. auto.
  - fold (valid_port (to_int d)). intros ->. eexists. split; [reflexivity|]. cbn.
    rewrite <- app_assoc. auto.
Qed.

(** The first initialisation returns when every system call succeeds and the
    port is in range. *)
Lemma socket_init_succeeds s server w fd flags rest :
  sock s = -1 -> valid_port (resolved_port s w) = true ->
  script w = init_replies server fd flags ++ rest ->
  exists w', socket_init s server w =
      Returned (mkState (name s) (resolved_port s w) (Z.of_nat fd) (conn s)) w' /\
    script w' = rest /\ trace w' = trace w ++ init_calls server s w fd flags /\
    is_open (Z.of_nat fd) w' = true /\ env w' = env w.
Proof.
  intros Hk Hv Hs. unfold socket_init. rewrite Hk.
  change (negb (-1 =? -1)) with false. cbn iota.
  unfold bind at 1, emit. cbn beta iota.
  set (w0 := logged c_signal_ignore_sigpipe w).
  assert (Hs0 : script w0 = init_replies server fd flags ++ rest) by exact Hs.
  unfold init_replies in Hs0. cbn [app] in Hs0.
  rewrite (bind_Returned _ _ _ _ _ (sys_socket_ok _ _ _ _ Hs0)).
  cbn [sock set_sock name port].
  assert (E : (Z.of_nat fd =? -1) = false) by (apply Z.eqb_neq; lia).
  rewrite E.
  set (w1 := opened (Z.of_nat fd) _).
  assert (Ho1 : is_open (Z.of_nat fd) w1 = true) by apply is_open_opened.
  erewrite bind_Returned; [|eapply sys_plain_ok; [exact Ho1|reflexivity]].
  change (0 =? -1) with false. cbn iota.
  set (w2 := answered _ (logged _ w1)).
  assert (Hv2 : valid_port
      match env w2 (name s ++ "_PORT")%string with
      | Some v => atoi v
      | None => to_int (to_uint (port s))
      end = true) by exact Hv.
  destruct (getPortNumber_ok (name s) (to_uint (port s)) w2 Hv2)
    as (w3 & Hp & Hf3 & Hs3 & He3 & Ht3).
  rewrite (bind_Returned _ _ _ _ _ Hp).
  change (match env w2 (name s ++ "_PORT")%string with
          | Some v => atoi v
          | None => to_int (to_uint (port s))
          end) with (resolved_port s w) in *.
  cbn [sock set_sock set_port name port conn].
  assert (Ho3 : is_open (Z.of_nat fd) w3 = true)
    by (rewrite <- Ho1; now apply is_open_same).
  cbn [script w2 answered] in Hs3.
  destruct server; cbn [app] in Hs3.
  - erewrite bind_Returned.
    2:{ erewrite bind_Returned; [|eapply sys_plain_ok; [exact Ho3|exact Hs3]].
        change (0 =? -1) with false. cbn iota.
        erewrite bind_Returned; [|eapply sys_plain_ok; [exact Ho3|reflexivity]].
        change (0 =? -1) with false. cbn iota. reflexivity. }
    erewrite bind_Returned;
      [|eapply socketSetNonBlocking_ok; [exact Ho3|reflexivity]].
    unfold bind, printf, emit, ret. eexists. split; [reflexivity|].
    cbn [script trace env answered logged]. split; [reflexivity|].
    split; [|split; [exact Ho3|exact He3]].
    rewrite Ht3. unfold init_calls. cbn [trace w2 w1 w0 answered logged opened].
    rewrite <- !app_assoc. reflexivity.
  - erewrite bind_Returned.
    2:{ erewrite bind_Returned; [|eapply sys_plain_ok; [exact Ho3|exact Hs3]].
        change (0 =? -1) with false. cbn iota. reflexivity. }
    erewrite bind_Returned;
      [|eapply socketSetNonBlocking_ok; [exact Ho3|reflexivity]].
    unfold bind, printf, emit, ret. eexists. split; [reflexivity|].
    cbn [script trace env answered logged]. split; [reflexivity|].
    split; [|split; [exact Ho3|exact He3]].
    rewrite Ht3. unfold init_calls. cbn [trace w2 w1 w0 answered logged opened].
    rewrite <- !app_assoc. reflexivity.
Qed.

(** A port out of range stops the first initialisation at the assertion of
    getPortNumber, once the socket is there. *)
Lemma socket_init_bad_port s server w fd x v y rest :
  sock s = -1 -> valid_port (resolved_port s w) = false ->
  script w = Ok fd x :: Ok v y :: rest ->
  exists w', socket_init s server w = AssertFailed w'.
Proof.
  intros Hk Hv Hs. unfold socket_init. rewrite Hk.
  change (negb (-1 =? -1)) with false. cbn iota.
  unfold bind at 1, emit. cbn beta iota.
  set (w0 := logged c_signal_ignore_sigpipe w).
  assert (Hs0 : script w0 = Ok fd x :: Ok v y :: rest) by exact Hs.
  rewrite (bind_Returned _ _ _ _ _ (sys_socket_ok _ _ _ _ Hs0)).
  cbn [sock set_sock name port].
  assert (E : (Z.of_nat fd =? -1) = false) by (apply Z.eqb_neq; lia).
  rewrite E.
  set (w1 := opened (Z.of_nat fd) _).
  assert (Ho1 : is_open (Z.of_nat fd) w1 = true) by apply is_open_opened.
  erewrite bind_Returned; [|eapply sys_plain_ok; [exact Ho1|reflexivity]].
  change (0 =? -1) with false. cbn iota.
  set (w2 := answered _ (logged _ w1)).
  assert (Hv2 : valid_port
      match env w2 (name s ++ "_PORT")%string with
      | Some v => atoi v
      | None => to_int (to_uint (port s))
      end = false) by exact Hv.
  destruct (getPortNumber_bad (name s) (to_uint (port s)) w2 Hv2) as (w3 & Hp).
  unfold bind at 1. rewrite Hp. eauto.
Qed.

(** ** The attach step *)

Lemma acceptConnection_attached s server w :
  conn s <> -1 -> acceptConnection s server w = Returned s w.
Proof.
  intros H. unfold acceptConnection. apply Z.eqb_neq in H. now rewrite H.
Qed.

Lemma settled_refl s w : settled s s w.
Proof. split; auto. Qed.

Lemma settled_set_conn s s' w c : settled s s' w -> settled s (set_conn s' c) w.
Proof. intros [Hn H]. split; auto. Qed.

Lemma socket_init_settled s server w s' w' :
  socket_init s server w = Returned s' w' -> settled s s' w /\ conn s' = conn s.
Proof.
  intros H. destruct (Z.eq_dec (sock s) (-1)) as [E|E].
  - destruct (socket_init_first _ _ _ _ _ E H) as (fd & Hfd & -> & Hv & _).
    split; [split|]; cbn; auto.
  - rewrite (socket_init_done _ _ _ E) in H. injection H as <- <-.
    split; auto using settled_refl.
Qed.

Lemma sys_accept_inv fd w c w' :
  sys_accept fd w = Returned c w' -> c = -1 \/ (0 <= c /\ is_open c w' = true).
Proof.
  unfold sys_accept. intros H. apply bind_inv in H as (r & w1 & H1 & H).
  destruct r as [v x|e].
  - unfold bind, open_fd, ret in H. injection H as <- <-.
    right. split; [lia|apply is_open_opened].
  - unfold fails, bind, set_errno, ret in H. injection H as <- <-. now left.
Qed.

(** What the attach step leaves when it returns: for a client the connection
    is the socket itself; for a server it is unset or a descriptor that
    accept has just opened. *)
Lemma acceptConnection_inv s server w s1 w1 :
  acceptConnection s server w = Returned s1 w1 ->
  settled s s1 w /\
  (conn s <> -1 -> s1 = s /\ w1 = w) /\
  (conn s = -1 -> server = false -> conn s1 = sock s1 /\ (sock s <> -1 -> w1 = w)) /\
  (conn s = -1 -> server = true -> conn s1 = -1 \/ is_open (conn s1) w1 = true).
Proof.
  intros H. destruct (Z.eq_dec (conn s) (-1)) as [E|E].
  - unfold acceptConnection in H. rewrite E in H.
    change (negb (-1 =? -1)) with false in H. cbn iota in H.
    apply bind_inv in H as (s2 & w2 & H2 & H).
    assert (Hs2 : settled s s2 w /\ conn s2 = conn s /\ (sock s <> -1 -> w2 = w)).
    { destruct (sock s =? -1) eqn:Ek.
      - apply socket_init_settled in H2 as [? ?]. apply Z.eqb_eq in Ek.
        split; [assumption|split; [assumption|intros; contradiction]].
      - unfold ret in H2. injection H2 as <- <-.
        split; [apply settled_refl|split; auto]. }
    destruct Hs2 as (Hst & Hc2 & Hw2).
    destruct server.
    + apply bind_inv in H as (c & w3 & H3 & H).
      apply sys_accept_inv in H3. cbn [conn set_conn] in H.
      destruct (c =? -1) eqn:Ec; cbn [negb] in H.
      * unfold ret in H. injection H as <- <-. apply Z.eqb_eq in Ec.
        split; [now apply settled_set_conn|].
        split; [intros; contradiction|]. split; [discriminate|].
        intros _ _. now left.
      * apply Z.eqb_neq in Ec. destruct H3 as [?|[Hc Ho]]; [contradiction|].
        apply bind_inv in H as (u & w4 & H4 & H).
        apply bind_inv in H as (u' & w5 & H5 & H).
        unfold ret in H. injection H as <- <-.
        split; [now apply settled_set_conn|].
        split; [intros; contradiction|]. split; [discriminate|].
        intros _ _. right. cbn [conn set_conn].
        unfold printf, emit in H4. injection H4 as _ <-.
        unfold socketSetNonBlocking in H5.
        apply bind_inv in H5 as (fl & w6 & H6 & H5).
        assert (Ho6 : is_open c w6 = true).
        { unfold sys_value in H6. apply bind_inv in H6 as (r & w7 & H7 & H6).
          transitivity (is_open c w7).
          - destruct r; unfold fails, bind, set_errno, ret in H6;
              injection H6 as _ <-; reflexivity.
          - rewrite (on_fd_is_open _ _ _ _ _ H7 c). exact Ho. }
        destruct (fl =? -1).
        { exits H5. }
        apply bind_inv in H5 as (r & w7 & H7 & H5).
        destruct (r =? -1).
        { exits H5. }
        unfold ret in H5. injection H5 as _ <-.
        unfold sys_plain in H7. apply bind_inv in H7 as (r' & w8 & H8 & H7).
        rewrite <- Ho6.
        transitivity (is_open c w8).
        { destruct r'; unfold fails, bind, set_errno, ret in H7;
            injection H7 as _ <-; reflexivity. }
        apply (on_fd_is_open _ _ _ _ _ H8).
    + unfold ret in H. injection H as <- <-.
      split; [now apply settled_set_conn|].
      split; [intros; contradiction|]. split; [|discriminate].
      intros _ _. split; [reflexivity|exact Hw2].
  - rewrite (acceptConnection_attached _ _ _ E) in H. injection H as <- <-.
    split; [apply settled_refl|]. split; [auto|].
    split; intros; contradiction.
Qed.

(** ** What an operation does to the endpoint *)

Lemma close_tail {A} fd (x : A) s1 w2 r s' w' :
  (sys_close fd ;; ret (x, set_conn s1 (-1))) w2 = Returned (r, s') w' ->
  r = x /\ s' = set_conn s1 (-1) /\ is_open fd w' = false.
Proof.
  destruct (sys_close_spec fd w2) as (w3 & Hcl & Ho & _).
  rewrite (bind_Returned _ _ _ _ _ Hcl). unfold ret.
  intros [= <- <- <-]. auto.
Qed.

Lemma socket_get8_inv s server w v s' w' :
  socket_get8 s server w = Returned (v, s') w' ->
  exists s1 w1, acceptConnection s server w = Returned s1 w1 /\
    kept_or_detached s1 s' w'.
Proof.
  unfold socket_get8. intros H. apply bind_inv in H as (s1 & w1 & H1 & H).
  exists s1, w1. split; auto.
  destruct (conn s1 =? -1) eqn:Ec.
  - unfold ret in H. injection H as _ <- _. now left.
  - apply Z.eqb_neq in Ec.
    apply bind_inv in H as ([n got] & w2 & H2 & H).
    destruct (n =? 1).
    + unfold ret in H. injection H as _ <- _. now left.
    + unfold bind at 1, get_errno in H.
      destruct (not_transient n (errno w2)).
      * apply close_tail in H as (_ & -> & Ho). right. auto.
      * unfold ret in H. injection H as _ <- _. now left.
Qed.

Lemma socket_put8_inv s b server w v s' w' :
  socket_put8 s b server w = Returned (v, s') w' ->
  exists s1 w1, acceptConnection s server w = Returned s1 w1 /\
    kept_or_detached s1 s' w'.
Proof.
  unfold socket_put8. intros H. apply bind_inv in H as (s1 & w1 & H1 & H).
  exists s1, w1. split; auto.
  destruct (conn s1 =? -1) eqn:Ec.
  - unfold ret in H. injection H as _ <- _. now left.
  - apply Z.eqb_neq in Ec.
    apply bind_inv in H as (n & w2 & H2 & H).
    destruct (n =? 1).
    + unfold ret in H. injection H as _ <- _. now left.
    + unfold bind at 1, get_errno in H.
      destruct (not_transient n (errno w2)).
      * apply close_tail in H as (_ & -> & Ho). right. auto.
      * unfold ret in H. injection H as _ <- _. now left.
Qed.

Lemma socket_put8_blocking_inv s b server w v s' w' :
  socket_put8_blocking s b server w = Returned (v, s') w' ->
  exists w1, acceptConnection s server w = Returned s' w1.
Proof.
  unfold socket_put8_blocking. intros H. apply bind_inv in H as (s1 & w1 & H1 & H).
  exists w1.
  destruct (conn s1 =? -1).
  - unfold ret in H. now injection H as _ <- _.
  - apply bind_inv in H as (n & w2 & H2 & H).
    unfold ret in H. now injection H as _ <- _.
Qed.

Lemma socket_getN_inv result s n server w m s' w' :
  socket_getN result s n server w = Returned (m, s') w' ->
  exists s1 w1, acceptConnection s server w = Returned s1 w1 /\
    kept_or_detached s1 s' w'.
Proof.
  unfold socket_getN. intros H. apply bind_inv in H as (s1 & w1 & H1 & H).
  exists s1, w1. split; auto.
  destruct (conn s1 =? -1) eqn:Ec.
  - unfold ret in H. injection H as _ <- _. now left.
  - apply Z.eqb_neq in Ec.
    apply bind_inv in H as ([count got] & w2 & H2 & H).
    destruct (count =? n).
    + unfold ret in H. injection H as _ <- _. now left.
    + destruct (0 <? count).
      * apply bind_inv in H as (rounds & w3 & H3 & H).
        apply bind_inv in H as (m' & w4 & H4 & H).
        unfold ret in H. injection H as _ <- _. now left.
      * unfold bind at 1, get_errno in H.
        destruct (not_transient count (errno w2)).
        -- apply close_tail in H as (_ & -> & Ho). right. auto.
        -- unfold ret in H. injection H as _ <- _. now left.
Qed.

Lemma socket_putN_inv s n data server w v s' w' :
  socket_putN s n data server w = Returned (v, s') w' ->
  exists s1 w1, acceptConnection s server w = Returned s1 w1 /\
    kept_or_detached s1 s' w'.
Proof.
  unfold socket_putN. intros H. apply bind_inv in H as (s1 & w1 & H1 & H).
  exists s1, w1. split; auto.
  destruct (conn s1 =? -1) eqn:Ec.
  - unfold ret in H. injection H as _ <- _. now left.
  - apply Z.eqb_neq in Ec.
    apply bind_inv in H as (count & w2 & H2 & H).
    destruct (count =? n).
    + unfold ret in H. injection H as _ <- _. now left.
    + destruct (0 <? count).
      * apply bind_inv in H as (rounds & w3 & H3 & H).
        apply bind_inv in H as (u & w4 & H4 & H).
        unfold ret in H. injection H as _ <- _. now left.
      * unfold bind at 1, get_errno in H.
        destruct (not_transient count (errno w2)).
        -- apply close_tail in H as (_ & -> & Ho). right. auto.
        -- unfold ret in H. injection H as _ <- _. now left.
Qed.

(** Every operation but init starts with the attach step and hands back the
    endpoint that step left, untouched or detached. *)
Lemma run_op_inv server o s w r s' w' :
  run_op server o s w = Returned (r, s') w' ->
  (o = op_init /\ socket_init s server w = Returned s' w') \/
  (o <> op_init /\ exists s1 w1, acceptConnection s server w = Returned s1 w1 /\
     kept_or_detached s1 s' w').
Proof.
  destruct o as [| |b|b|result n|n data]; cbn [run_op]; intros H;
    apply bind_inv in H as (x & w2 & H2 & H).
  - left. unfold ret in H. injection H as _ <- <-. auto.
  - right. split; [discriminate|]. destruct x as [v s2].
    unfold ret in H. injection H as _ <- <-. eapply socket_get8_inv; eauto.
  - right. split; [discriminate|]. destruct x as [v s2].
    unfold ret in H. injection H as _ <- <-. eapply socket_put8_inv; eauto.
  - right. split; [discriminate|]. destruct x as [v s2].
    unfold ret in H. injection H as _ <- <-.
    apply socket_put8_blocking_inv in H2 as (w1 & H1).
    exists s2, w1. split; auto. now left.
  - right. split; [discriminate|]. destruct x as [v s2].
    unfold ret in H. injection H as _ <- <-. eapply socket_getN_inv; eauto.
  - right. split; [discriminate|]. destruct x as [v s2].
    unfold ret in H. injection H as _ <- <-. eapply socket_putN_inv; eauto.
Qed.

Lemma run_op_settled server o s w r s' w' :
  run_op server o s w = Returned (r, s') w' -> settled s s' w.
Proof.
  intros H. apply run_op_inv in H as [[_ H]|(_ & s1 & w1 & H & K)].
  - now apply socket_init_settled in H.
  - apply acceptConnection_inv in H as (Hs & _).
    destruct K as [->|(_ & -> & _)]; auto using settled_set_conn.
Qed.

(** Once the socket is there, no operation touches the socket descriptor or
    the port. *)
Lemma run_op_keeps server o s w r s' w' :
  sock s <> -1 -> run_op server o s w = Returned (r, s') w' ->
  sock s' = sock s /\ port s' = port s /\ name s' = name s.
Proof.
  intros Hk H. apply run_op_settled in H as (Hn & [[? ?]|[? _]]); auto.
  contradiction.
Qed.

Lemma run_ops_keeps server os : forall s w rs s' w',
  sock s <> -1 -> run_ops server os s w = Returned (rs, s') w' ->
  sock s' = sock s /\ port s' = port s /\ name s' = name s.
Proof.
  induction os as [|o os IH]; intros s w rs s' w' Hk H; cbn [run_ops] in H.
  - unfold ret in H. injection H as _ <- _. auto.
  - apply bind_inv in H as ([r s1] & w1 & H1 & H).
    apply bind_inv in H as ([rs' s2] & w2 & H2 & H).
    unfold ret in H. injection H as _ <- _.
    apply run_op_keeps in H1 as (E1 & E2 & E3); auto.
    apply IH in H2 as (F1 & F2 & F3); [|now rewrite E1].
    rewrite F1, F2, F3. auto.
Qed.

Lemma valid_port_range p : valid_port p = true <-> 0 <= p <= 65535.
Proof. unfold valid_port. rewrite andb_true_iff, !Z.leb_le. tauto. Qed.

(** On an endpoint that has neither socket nor connection, every operation
    goes through the first initialisation. *)
Lemma run_op_first server o s w r s1 w1 :
  sock s = -1 -> conn s = -1 ->
  run_op server o s w = Returned (r, s1) w1 ->
  0 <= sock s1 /\ port s1 = resolved_port s w /\ valid_port (port s1) = true.
Proof.
  intros Hk Hc H.
  assert (Hi : forall s2 w2, socket_init s server w = Returned s2 w2 ->
             0 <= sock s2 /\ port s2 = resolved_port s w /\
             valid_port (port s2) = true).
  { intros s2 w2 H2.
    destruct (socket_init_first _ _ _ _ _ Hk H2) as (fd & Hfd & -> & Hv & _).
    cbn. auto. }
  apply run_op_inv in H as [[_ H]|(_ & s2 & w2 & H & K)]; [eauto|].
  unfold acceptConnection in H. rewrite Hc, Hk in H.
  change (negb (-1 =? -1)) with false in H. change (-1 =? -1) with true in H.
  cbn iota in H. apply bind_inv in H as (s3 & w3 & H3 & H).
  apply Hi in H3.
  assert (E : sock s2 = sock s3 /\ port s2 = port s3).
  { destruct server.
    - apply bind_inv in H as (c & w4 & _ & H).
      destruct (negb (conn (set_conn s3 c) =? -1)).
      + apply bind_inv in H as (u & w5 & _ & H).
        apply bind_inv in H as (u' & w6 & _ & H).
        unfold ret in H. injection H as <- _. auto.
      + unfold ret in H. injection H as <- _. auto.
    - unfold ret in H. injection H as <- _. auto. }
  destruct E as [E1 E2].
  destruct K as [->|(_ & -> & _)]; cbn [sock port set_conn]; rewrite E1, E2; auto.
Qed.

(** C8. init is idempotent.  On an endpoint whose socket descriptor is set,
    socket_init returns at once: the endpoint and the world, and with it the
    list of system calls made, are exactly as before, so there is no second
    port lookup, socket, bind, listen or connect.  Whenever an init returns,
    the descriptor is set, a further init (in either role) changes nothing,
    and no later sequence of operations changes the descriptor: it goes from
    unset to set once. *)
Theorem socket_init_idempotent s server w :
  (sock s <> -1 -> socket_init s server w = Returned s w) /\
  (forall s1 w1, socket_init s server w = Returned s1 w1 ->
     sock s1 <> -1 /\
     (forall server', socket_init s1 server' w1 = Returned s1 w1) /\
     (forall server' os rs s' w',
        run_ops server' os s1 w1 = Returned (rs, s') w' -> sock s' = sock s1)).
Proof.
  split; [apply socket_init_done|].
  intros s1 w1 H.
  assert (Hk : sock s1 <> -1).
  { destruct (Z.eq_dec (sock s) (-1)) as [E|E].
    - destruct (socket_init_first _ _ _ _ _ E H) as (fd & Hfd & -> & _).
      cbn. lia.
    - rewrite (socket_init_done _ _ _ E) in H. now injection H as <- _. }
  split; [exact Hk|]. split.
  - intros server'. now apply socket_init_done.
  - intros server' os rs s' w' H'. now apply run_ops_keeps in H'.
Qed.

Lemma socket_create_inv nm dflt w0 s w0' :
  socket_create nm dflt w0 = Returned s w0' ->
  s = mkState nm (to_int (to_uint dflt)) (-1) (-1).
Proof.
  unfold socket_create, bind, printf, emit, ret. now intros [= <- _].
Qed.

Lemma to_int_idem z : to_int (to_int z) = to_int z.
Proof.
  unfold to_int. change (2 ^ 31) with 2147483648. change (2 ^ 32) with 4294967296.
  pose proof (Z.mod_pos_bound (z + 2147483648) 4294967296 eq_refl).
  replace ((z + 2147483648) mod 4294967296 - 2147483648 + 2147483648)
    with ((z + 2147483648) mod 4294967296) by lia.
  now rewrite Z.mod_mod.
Qed.

Lemma to_int_in_range z :
  0 <= z < 2 ^ 32 -> 0 <= to_int z <= 65535 -> to_int z = z.
Proof.
  unfold to_int. change (2 ^ 31) with 2147483648. change (2 ^ 32) with 4294967296.
  intros Hz H.
  destruct (Z_lt_le_dec z 2147483648) as [Hs|Hs].
  - rewrite Z.mod_small by lia. lia.
  - exfalso.
    replace (z + 2147483648) with ((z - 2147483648) + 1 * 4294967296) in H by lia.
    rewrite Z.mod_add in H by lia. rewrite Z.mod_small in H by lia. lia.
Qed.

(** C9. The port of an endpoint made by socket_create is settled by the
    first operation run on it, which goes through the first initialisation:
    it is the value of the environment variable <name>_PORT when that is
    defined and the default given at creation otherwise, it lies between 0
    and 65535, and no later sequence of operations changes it.  The first
    initialisation looks the variable up once and returns when its system
    calls succeed and the port is in range; a port out of range ends the
    process at the assertion of getPortNumber. *)
Theorem configured_port_resolved_once nm dflt w0 w0' s server w :
  Z.of_nat (String.length nm) < STR_BUFF_SZ -> 0 <= dflt < 2 ^ 32 ->
  socket_create nm dflt w0 = Returned s w0' ->
  let p := match env w (nm ++ "_PORT")%string with
           | Some v => atoi v
           | None => to_int dflt
           end in
  sock s = -1 /\
  (forall o r s1 w1, run_op server o s w = Returned (r, s1) w1 ->
     port s1 = p /\ 0 <= p <= 65535 /\
     (env w (nm ++ "_PORT")%string = None -> p = dflt) /\
     sock s1 <> -1 /\
     (forall server' os rs s' w',
        run_ops server' os s1 w1 = Returned (rs, s') w' -> port s' = p)) /\
  (forall fd flags rest,
     script w = init_replies server fd flags ++ rest -> valid_port p = true ->
     exists s1 w1, socket_init s server w = Returned s1 w1 /\ port s1 = p /\
       count_calls is_getenv w1 = S (count_calls is_getenv w)) /\
  (forall fd x v y rest,
     script w = Ok fd x :: Ok v y :: rest -> valid_port p = false ->
     exists w1, socket_init s server w = AssertFailed w1).
Proof.
  intros Hn Hd Hc p. apply socket_create_inv in Hc.
  assert (Hp : resolved_port s w = p).
  { subst s p. unfold resolved_port. cbn [name port].
    now rewrite !to_int_to_uint, to_int_idem. }
  assert (Hk : sock s = -1) by now subst s.
  assert (Hcn : conn s = -1) by now subst s.
  split; [exact Hk|]. split; [|split].
  - intros o r s1 w1 H.
    destruct (run_op_first _ _ _ _ _ _ _ Hk Hcn H) as (Hfd & Hport & Hv).
    rewrite Hp in Hport. rewrite Hport in Hv.
    apply valid_port_range in Hv.
    split; [exact Hport|]. split; [exact Hv|]. split; [|split].
    + intros He. subst p. rewrite He in *. now apply to_int_in_range.
    + lia.
    + intros server' os rs s' w' H'.
      apply run_ops_keeps in H' as (_ & E & _); [|lia]. now rewrite E.
  - intros fd flags rest Hs Hv. rewrite <- Hp in Hv.
    destruct (socket_init_succeeds s server w fd flags rest Hk Hv Hs)
      as (w1 & E & _ & Ht & _).
    eexists _, w1. split; [exact E|]. split; [exact Hp|].
    unfold count_calls. rewrite Ht, filter_app, length_app.
    unfold init_calls.
    destruct (env w (name s ++ "_PORT")%string), server; cbn; lia.
  - intros fd x v y rest Hs Hv. rewrite <- Hp in Hv.
    eapply socket_init_bad_port; eauto.
Qed.

(** ** A client after its connection is lost *)

Lemma sys_read_closed fd n w :
  is_open fd w = false ->
  exists w', sys_read fd n w = Returned (-1, []) w' /\
    trace w' = trace w ++ [c_read fd n] /\ script w' = script w /\
    open_fds w' = open_fds w /\ env w' = env w /\ errno w' = EBADF.
Proof.
  intros Ho. unfold sys_read, bind. rewrite (on_fd_closed _ _ _ Ho).
  cbn. eexists; split; try reflexivity; cbn; auto.
Qed.

Lemma broken_attach s w :
  broken s w ->
  exists s1, acceptConnection s false w = Returned s1 w /\
    conn s1 = sock s /\ sock s1 = sock s /\ (forall c, set_conn s1 c = set_conn s c).
Proof.
  intros (Hk & Ho & [Hc|Hc]).
  - exists (set_conn s (sock s)). unfold acceptConnection. rewrite Hc.
    change (negb (-1 =? -1)) with false. cbn iota.
    apply Z.eqb_neq in Hk. rewrite Hk. auto.
  - exists s. rewrite acceptConnection_attached by congruence. auto.
Qed.

Lemma broken_detached (s : serv_socket_state_t) (w' : world) :
  sock s <> -1 -> is_open (sock s) w' = false ->
  broken (set_conn s (-1)) w'.
Proof. intros Hk Ho. split; [|split]; cbn; auto. Qed.

Lemma socket_get8_broken s w :
  broken s w ->
  exists w', socket_get8 s false w = Returned (NO_DATA, set_conn s (-1)) w' /\
    is_open (sock s) w' = false /\ script w' = script w.
Proof.
  intros Hb. pose proof Hb as (Hk & Ho & Hc).
  destruct (broken_attach s w Hb) as (s1 & Ha & Hc1 & Hk1 & Hset).
  assert (Hne : (conn s1 =? -1) = false) by (apply Z.eqb_neq; congruence).
  assert (Ho1 : is_open (conn s1) w = false) by now rewrite Hc1.
  destruct (sys_read_closed (conn s1) 1 w Ho1) as (w2 & Hr & _ & Hs2 & Hf2 & _ & He2).
  destruct (sys_close_spec (conn s1) w2) as (w3 & Hcl & _ & _ & Hs3 & _ & _ & Hkeep).
  unfold socket_get8.
  rewrite (bind_Returned _ _ _ _ _ Ha), Hne, (bind_Returned _ _ _ _ _ Hr).
  cbn beta iota. change (-1 =? 1) with false. cbn iota.
  unfold bind at 1, get_errno. rewrite He2.
  change (not_transient (-1) EBADF) with true. cbn iota.
  rewrite (bind_Returned _ _ _ _ _ Hcl). unfold ret. rewrite Hset.
  exists w3. split; [reflexivity|]. split; [|congruence].
  apply Hkeep. rewrite <- Ho. apply is_open_same. exact Hf2.
Qed.

Lemma socket_put8_broken s b w :
  broken s w ->
  exists w', socket_put8 s b false w = Returned (0, set_conn s (-1)) w' /\
    is_open (sock s) w' = false /\ script w' = script w.
Proof.
  intros Hb. pose proof Hb as (Hk & Ho & Hc).
  destruct (broken_attach s w Hb) as (s1 & Ha & Hc1 & Hk1 & Hset).
  assert (Hne : (conn s1 =? -1) = false) by (apply Z.eqb_neq; congruence).
  assert (Ho1 : is_open (conn s1) w = false) by now rewrite Hc1.
  destruct (sys_write_closed (conn s1) [b] w Ho1) as (w2 & Hr & _ & Hs2 & Hf2 & _ & He2).
  destruct (sys_close_spec (conn s1) w2) as (w3 & Hcl & _ & _ & Hs3 & _ & _ & Hkeep).
  unfold socket_put8.
  rewrite (bind_Returned _ _ _ _ _ Ha), Hne, (bind_Returned _ _ _ _ _ Hr).
  cbn beta iota. change (-1 =? 1) with false. cbn iota.
  unfold bind at 1, get_errno. rewrite He2.
  change (not_transient (-1) EBADF) with true. cbn iota.
  rewrite (bind_Returned _ _ _ _ _ Hcl). unfold ret. rewrite Hset.
  exists w3. split; [reflexivity|]. split; [|congruence].
  apply Hkeep. rewrite <- Ho. apply is_open_same. exact Hf2.
Qed.

Lemma socket_put8_blocking_broken s b w :
  broken s w ->
  exists s' w', socket_put8_blocking s b false w = Returned (0, s') w' /\
    broken s' w' /\ script w' = script w.
Proof.
  intros Hb. pose proof Hb as (Hk & Ho & Hc).
  destruct (broken_attach s w Hb) as (s1 & Ha & Hc1 & Hk1 & Hset).
  assert (Hne : (conn s1 =? -1) = false) by (apply Z.eqb_neq; congruence).
  assert (Ho1 : is_open (conn s1) w = false) by now rewrite Hc1.
  destruct (put8_rounds_closed 999 (conn s1) b w Ho1) as (w2 & Hr & _ & Hs2 & Hf2).
  unfold socket_put8_blocking.
  rewrite (bind_Returned _ _ _ _ _ Ha), Hne.
  change 1000%nat with (S 999). rewrite (bind_Returned _ _ _ _ _ Hr).
  unfold ret. exists s1, w2. split; [reflexivity|]. split; [|exact Hs2].
  split; [congruence|]. split; [|right; congruence].
  rewrite Hk1, <- Ho. apply is_open_same. exact Hf2.
Qed.

Lemma socket_getN_broken result s n w :
  broken s w -> 0 <= n ->
  exists m w', socket_getN result s n false w = Returned (m, set_conn s (-1)) w' /\
    status m n = xff /\ is_open (sock s) w' = false /\ script w' = script w.
Proof.
  intros Hb Hn. pose proof Hb as (Hk & Ho & Hc).
  destruct (broken_attach s w Hb) as (s1 & Ha & Hc1 & Hk1 & Hset).
  assert (Hne : (conn s1 =? -1) = false) by (apply Z.eqb_neq; congruence).
  assert (Ho1 : is_open (conn s1) w = false) by now rewrite Hc1.
  destruct (sys_read_closed (conn s1) n w Ho1) as (w2 & Hr & _ & Hs2 & Hf2 & _ & He2).
  destruct (sys_close_spec (conn s1) w2) as (w3 & Hcl & _ & _ & Hs3 & _ & _ & Hkeep).
  unfold socket_getN.
  rewrite (bind_Returned _ _ _ _ _ Ha), Hne, (bind_Returned _ _ _ _ _ Hr).
  cbn beta iota.
  assert (E : (-1 =? n) = false) by (apply Z.eqb_neq; lia). rewrite E.
  change (0 <? -1) with false. cbn iota.
  unfold bind at 1, get_errno. rewrite He2.
  change (not_transient (-1) EBADF) with true. cbn iota.
  rewrite (bind_Returned _ _ _ _ _ Hcl). unfold ret. rewrite Hset.
  eexists _, w3. split; [reflexivity|].
  split; [unfold status, poke; now rewrite Z.eqb_refl|]. split; [|congruence].
  apply Hkeep. rewrite <- Ho. apply is_open_same. exact Hf2.
Qed.

Lemma socket_putN_broken s n data w :
  broken s w -> 0 <= n ->
  exists w', socket_putN s n data false w = Returned (0, set_conn s (-1)) w' /\
    is_open (sock s) w' = false /\ script w' = script w.
Proof.
  intros Hb Hn. pose proof Hb as (Hk & Ho & Hc).
  destruct (broken_attach s w Hb) as (s1 & Ha & Hc1 & Hk1 & Hset).
  assert (Hne : (conn s1 =? -1) = false) by (apply Z.eqb_neq; congruence).
  assert (Ho1 : is_open (conn s1) w = false) by now rewrite Hc1.
  destruct (sys_write_closed (conn s1) (bytes_at data 0 n) w Ho1)
    as (w2 & Hr & _ & Hs2 & Hf2 & _ & He2).
  destruct (sys_close_spec (conn s1) w2) as (w3 & Hcl & _ & _ & Hs3 & _ & _ & Hkeep).
  unfold socket_putN.
  rewrite (bind_Returned _ _ _ _ _ Ha), Hne, (bind_Returned _ _ _ _ _ Hr).
  cbn beta iota.
  assert (E : (-1 =? n) = false) by (apply Z.eqb_neq; lia). rewrite E.
  change (0 <? -1) with false. cbn iota.
  unfold bind at 1, get_errno. rewrite He2.
  change (not_transient (-1) EBADF) with true. cbn iota.
  rewrite (bind_Returned _ _ _ _ _ Hcl). unfold ret. rewrite Hset.
  exists w3. split; [reflexivity|]. split; [|congruence].
  apply Hkeep. rewrite <- Ho. apply is_open_same. exact Hf2.
Qed.

(** Every operation on such an endpoint returns, reports failure, asks the
    kernel nothing and leaves the endpoint as lost as it was. *)
Lemma run_op_broken o s w :
  broken s w -> sized o ->
  exists r s' w', run_op false o s w = Returned (r, s') w' /\
    reports_failure o r /\ broken s' w' /\ script w' = script w /\
    match o with
    | op_init | op_put8_blocking _ => True
    | _ => conn s' = -1
    end.
Proof.
  intros Hb Hz. pose proof Hb as (Hk & Ho & Hc).
  destruct o as [| |b|b|result n|n data]; cbn [run_op sized] in *.
  - rewrite (bind_Returned _ _ _ _ _ (socket_init_done _ _ _ Hk)).
    unfold ret. eexists _, _, _. split; [reflexivity|]. cbn. auto.
  - destruct (socket_get8_broken s w Hb) as (w' & E & Ho' & Hs').
    rewrite (bind_Returned _ _ _ _ _ E). unfold ret.
    eexists _, _, _. split; [reflexivity|].
    split; [reflexivity|]. split; [now apply broken_detached|auto].
  - destruct (socket_put8_broken s b w Hb) as (w' & E & Ho' & Hs').
    rewrite (bind_Returned _ _ _ _ _ E). unfold ret.
    eexists _, _, _. split; [reflexivity|].
    split; [reflexivity|]. split; [now apply broken_detached|auto].
  - destruct (socket_put8_blocking_broken s b w Hb) as (s' & w' & E & Hb' & Hs').
    rewrite (bind_Returned _ _ _ _ _ E). unfold ret.
    eexists _, _, _. split; [reflexivity|]. split; [reflexivity|auto].
  - destruct (socket_getN_broken result s n w Hb Hz) as (m & w' & E & Hm & Ho' & Hs').
    rewrite (bind_Returned _ _ _ _ _ E). unfold ret.
    eexists _, _, _. split; [reflexivity|].
    split; [exact Hm|]. split; [now apply broken_detached|auto].
  - destruct (socket_putN_broken s n data w Hb Hz) as (w' & E & Ho' & Hs').
    rewrite (bind_Returned _ _ _ _ _ E). unfold ret.
    eexists _, _, _. split; [reflexivity|].
    split; [reflexivity|]. split; [now apply broken_detached|auto].
Qed.

Lemma run_ops_broken os : forall s w,
  broken s w -> Forall sized os ->
  exists rs s' w', run_ops false os s w = Returned (rs, s') w' /\
    Forall2 reports_failure os rs /\ broken s' w' /\ script w' = script w.
Proof.
  induction os as [|o os IH]; intros s w Hb Hz; cbn [run_ops].
  - exists [], s, w. unfold ret. auto.
  - inversion Hz as [|? ? Ho Hos]; subst.
    destruct (run_op_broken o s w Hb Ho) as (r & s1 & w1 & E & Hr & Hb1 & Hs1 & _).
    destruct (IH s1 w1 Hb1 Hos) as (rs & s2 & w2 & E2 & Hrs & Hb2 & Hs2).
    rewrite (bind_Returned _ _ _ _ _ E). cbn beta iota.
    rewrite (bind_Returned _ _ _ _ _ E2). unfold ret.
    exists (r :: rs), s2, w2. split; [reflexivity|].
    split; [now constructor|]. split; [exact Hb2|congruence].
Qed.

(** A client is attached through its one socket; when an operation hands it
    back with the connection unset, that socket has been closed. *)
Lemma client_detach_broken o s w r s' w' :
  conn s = sock s -> attached s ->
  run_op false o s w = Returned (r, s') w' -> conn s' = -1 ->
  broken s' w'.
Proof.
  intros Hcs Ha H Hc'. unfold attached in Ha.
  apply run_op_inv in H as [[_ H]|(_ & s1 & w1 & H & K)].
  - rewrite socket_init_done in H by congruence. injection H as <- _.
    contradiction.
  - rewrite acceptConnection_attached in H by exact Ha. injection H as <- <-.
    destruct K as [->|(_ & -> & Ho)]; [contradiction|].
    split; [|split]; cbn; [congruence|now rewrite <- Hcs|now left].
Qed.

(** The same holds whatever else happens in the process between the
    operations, as long as no descriptor of the socket's number is opened. *)
Lemma run_events_broken evs : forall s w,
  broken s w -> Forall (leaves_alone (sock s)) evs ->
  exists rs s' w', run_events false evs s w = Returned (rs, s') w' /\
    Forall2 reports_failure (operations evs) rs /\ broken s' w' /\ sock s' = sock s.
Proof.
  induction evs as [|[o|f] evs IH]; intros s w Hb Hz; cbn [run_events operations].
  - exists [], s, w. unfold ret. auto.
  - inversion Hz as [|? ? Ho Hos]; subst. cbn [leaves_alone] in Ho.
    destruct (run_op_broken o s w Hb Ho) as (r & s1 & w1 & E & Hr & Hb1 & _).
    pose proof (run_op_keeps _ _ _ _ _ _ _ (proj1 Hb) E) as (Hk1 & _).
    rewrite <- Hk1 in Hos.
    destruct (IH s1 w1 Hb1 Hos) as (rs & s2 & w2 & E2 & Hrs & Hb2 & Hk2).
    rewrite (bind_Returned _ _ _ _ _ E). cbn beta iota.
    rewrite (bind_Returned _ _ _ _ _ E2). unfold ret.
    exists (r :: rs), s2, w2. split; [reflexivity|].
    split; [now constructor|]. split; [exact Hb2|congruence].
  - inversion Hz as [|? ? Hf Hos]; subst. cbn [leaves_alone] in Hf.
    assert (Hb1 : broken s (f w)).
    { destruct Hb as (Hk & Ho & Hc). split; [|split]; auto. }
    exact (IH s (f w) Hb1 Hos).
Qed.

(** A client without connection takes whatever descriptor the number of its
    socket names at the time: when that number is open, get8 reads from it. *)
Lemma client_reads_number s w v b bs rest :
  sock s <> -1 -> conn s = -1 -> is_open (sock s) w = true ->
  script w = Ok v (b :: bs) :: rest ->
  run_op false op_get8 s w =
    Returned (r_word (uint32_of_byte b), set_conn s (sock s))
      (answered rest (logged (c_read (sock s) 1) w)).
Proof.
  intros Hk Hc Ho Hs.
  assert (Ea : acceptConnection s false w = Returned (set_conn s (sock s)) w).
  { unfold acceptConnection. rewrite Hc. cbn [negb Z.eqb].
    apply Z.eqb_neq in Hk. rewrite Hk. reflexivity. }
  assert (Er : sys_read (sock s) 1 w =
                 Returned (1, [b]) (answered rest (logged (c_read (sock s) 1) w))).
  { unfold sys_read, bind. now rewrite (on_fd_open _ _ _ _ _ Ho Hs). }
  assert (Eg : socket_get8 s false w =
                 Returned (uint32_of_byte b, set_conn s (sock s))
                   (answered rest (logged (c_read (sock s) 1) w))).
  { rewrite (socket_get8_read s false w _ _ 1 [b] _ Ea (Hk : conn (set_conn s (sock s)) <> -1) Er).
    reflexivity. }
  cbn [run_op]. now rewrite (bind_Returned _ _ _ _ _ Eg).
Qed.

(** C3, as the code has it.  Once an operation has handed a Client endpoint
    back with its connection descriptor unset, the one socket of the endpoint
    is closed.  Every later operation starts by pointing the connection field
    at the number of that socket again, so the field is not always unset.
    As long as the process opens no descriptor of that number, whatever else
    it does between the operations, the field never names an open
    descriptor: every later sequence of get and put operations returns, each
    of them reports failure or no data, and no operation takes an answer
    from the kernel.  The condition is needed: once the number is open again,
    get8 on the endpoint reads from the descriptor that now bears it and
    returns its byte. *)
Theorem client_detach_permanent s w o0 r0 s0 w0 :
  conn s = sock s -> attached s ->
  run_op false o0 s w = Returned (r0, s0) w0 -> conn s0 = -1 ->
  broken s0 w0 /\
  (exists s1, acceptConnection s0 false w0 = Returned s1 w0 /\
     conn s1 = sock s0 /\ is_open (conn s1) w0 = false) /\
  (forall os, Forall sized os ->
     exists rs s' w', run_ops false os s0 w0 = Returned (rs, s') w' /\
       Forall2 reports_failure os rs /\ broken s' w' /\ script w' = script w0) /\
  (forall evs, Forall (leaves_alone (sock s0)) evs ->
     exists rs s' w', run_events false evs s0 w0 = Returned (rs, s') w' /\
       Forall2 reports_failure (operations evs) rs /\ broken s' w' /\
       forall o, sized o ->
         exists r s'' w'', run_op false o s' w' = Returned (r, s'') w'' /\
           reports_failure o r /\ script w'' = script w') /\
  (forall w1 v b bs rest,
     is_open (sock s0) w1 = true -> script w1 = Ok v (b :: bs) :: rest ->
     run_op false op_get8 s0 w1 =
       Returned (r_word (uint32_of_byte b), set_conn s0 (sock s0))
         (answered rest (logged (c_read (sock s0) 1) w1))).
Proof.
  intros Hcs Ha H Hc.
  pose proof (client_detach_broken _ _ _ _ _ _ Hcs Ha H Hc) as Hb.
  split; [exact Hb|]. split; [|split; [|split]].
  - destruct (broken_attach s0 w0 Hb) as (s1 & E & Hc1 & _).
    exists s1. split; [exact E|]. split; [exact Hc1|].
    rewrite Hc1. apply Hb.
  - intros os Hos. now apply run_ops_broken.
  - intros evs Hev.
    destruct (run_events_broken evs s0 w0 Hb Hev) as (rs & s' & w' & E & Hrs & Hb' & _).
    exists rs, s', w'. split; [exact E|]. split; [exact Hrs|]. split; [exact Hb'|].
    intros o Ho.
    destruct (run_op_broken o s' w' Hb' Ho) as (r & s'' & w'' & E' & Hr & _ & Hs & _).
    now exists r, s'', w''.
  - intros w1 v b bs rest Ho Hs.
    apply client_reads_number with (v := v) (bs := bs); [apply Hb|exact Hc|exact Ho|exact Hs].
Qed.

(** ** getN *)

Lemma sys_read_open fd n w v bs rest :
  is_open fd w = true -> script w = Ok v bs :: rest ->
  sys_read fd n w =
    Returned (Z.of_nat (length (firstn (Z.to_nat n) bs)), firstn (Z.to_nat n) bs)
      (answered rest (logged (c_read fd n) w)).
Proof.
  intros Ho Hs. unfold sys_read, bind. now rewrite (on_fd_open _ _ _ _ _ Ho Hs).
Qed.

Lemma sys_read_err fd n w e rest :
  is_open fd w = true -> script w = Err e :: rest ->
  sys_read fd n w = Returned (-1, []) (failed e (answered rest (logged (c_read fd n) w))).
Proof.
  intros Ho Hs. unfold sys_read, bind. now rewrite (on_fd_open _ _ _ _ _ Ho Hs).
Qed.

Lemma sys_value_err fd c w e rest :
  is_open fd w = true -> script w = Err e :: rest ->
  sys_value fd c w = Returned (-1) (failed e (answered rest (logged c w))).
Proof.
  intros Ho Hs. unfold sys_value, bind. now rewrite (on_fd_open _ _ _ _ _ Ho Hs).
Qed.


Lemma sys_write_ok fd bs w v x rest :
  is_open fd w = true -> script w = Ok v x :: rest ->
  sys_write fd bs w =
    Returned (Z.of_nat (Nat.min v (length bs))) (answered rest (logged (c_write fd bs) w)).
Proof.
  intros Ho Hs. unfold sys_write, bind. now rewrite (on_fd_open _ _ _ _ _ Ho Hs).
Qed.



Lemma poke_same m i b : poke m i b i = b.
Proof. unfold poke. now rewrite Z.eqb_refl. Qed.

Lemma poke_other m i b j : j <> i -> poke m i b j = m j.
Proof. unfold poke. intros H. apply Z.eqb_neq in H. now rewrite H. Qed.

Lemma store_inside m off bs j :
  off <= j < off + Z.of_nat (length bs) ->
  store m off bs j = nth (Z.to_nat (j - off)) bs x00.
Proof.
  intros H. unfold store.
  assert (E : (off <=? j) && (j <? off + Z.of_nat (length bs)) = true)
    by (apply andb_true_iff; split; [apply Z.leb_le|apply Z.ltb_lt]; lia).
  now rewrite E.
Qed.

Lemma store_outside m off bs j :
  j < off \/ off + Z.of_nat (length bs) <= j -> store m off bs j = m j.
Proof.
  intros H. unfold store.
  assert (E : (off <=? j) && (j <? off + Z.of_nat (length bs)) = false).
  { apply andb_false_iff. destruct H; [left; apply Z.leb_gt|right; apply Z.ltb_ge]; lia. }
  now rewrite E.
Qed.

(** Chunks stored one behind the other are their concatenation stored at
    once. *)
Lemma fill_spec chunks : forall m off j,
  fill m off chunks j =
    if (off <=? j) && (j <? off + Z.of_nat (length (concat chunks)))
    then nth (Z.to_nat (j - off)) (concat chunks) x00
    else m j.
Proof.
  induction chunks as [|bs cs IH]; intros m off j; cbn [fill concat].
  - cbn [length Z.of_nat]. rewrite Z.add_0_r.
    destruct (off <=? j) eqn:E1, (j <? off) eqn:E2; cbn; auto.
    apply Z.leb_le in E1. apply Z.ltb_lt in E2. lia.
  - rewrite IH, length_app, Nat2Z.inj_add.
    destruct (Z_lt_le_dec j off) as [H|H].
    + assert (E1 : (off <=? j) = false) by (apply Z.leb_gt; lia).
      assert (E2 : (off + Z.of_nat (length bs) <=? j) = false) by (apply Z.leb_gt; lia).
      rewrite E1, E2. cbn. apply store_outside. lia.
    + assert (E1 : (off <=? j) = true) by (apply Z.leb_le; lia). rewrite E1.
      destruct (Z_lt_le_dec j (off + Z.of_nat (length bs))) as [H1|H1].
      * assert (E2 : (off + Z.of_nat (length bs) <=? j) = false) by (apply Z.leb_gt; lia).
        assert (E3 : (j <? off + (Z.of_nat (length bs) + Z.of_nat (length (concat cs)))) = true)
          by (apply Z.ltb_lt; lia).
        rewrite E2, E3. cbn. rewrite store_inside by lia.
        rewrite app_nth1 by lia. reflexivity.
      * assert (E2 : (off + Z.of_nat (length bs) <=? j) = true) by (apply Z.leb_le; lia).
        rewrite E2. cbn.
        replace (off + Z.of_nat (length bs) + Z.of_nat (length (concat cs)))
          with (off + (Z.of_nat (length bs) + Z.of_nat (length (concat cs)))) by lia.
        destruct (j <? off + (Z.of_nat (length bs) + Z.of_nat (length (concat cs)))) eqn:E3.
        -- rewrite app_nth2 by lia. f_equal. lia.
        -- apply store_outside. lia.
Qed.

Lemma getN_rest_unfold rounds fd bytes count nbytes :
  getN_rest rounds fd bytes count nbytes =
    if count <? nbytes then
      match rounds with
      | O => blocked
      | S rounds' =>
          res <- sys_value fd (c_select_read fd) ;;
          assert (0 <=? res) ;;
          '(res, got) <- sys_read fd (nbytes - count) ;;
          assert (0 <=? res) ;;
          getN_rest rounds' fd (store bytes count got) (count + res) nbytes
      end
    else ret bytes.
Proof. destruct rounds; reflexivity. Qed.


(** Whenever the blocking phase returns, the bytes it stored fill the buffer
    exactly up to [n]. *)
Lemma getN_rest_inv rounds : forall fd bytes count n w m' w',
  count <= n -> getN_rest rounds fd bytes count n w = Returned m' w' ->
  exists chunks, m' = fill bytes count chunks /\
    count + Z.of_nat (length (concat chunks)) = n.
Proof.
  induction rounds as [|rounds IH]; intros fd bytes count n w m' w' Hc H;
    rewrite getN_rest_unfold in H; destruct (count <? n) eqn:E.
  - discriminate.
  - apply Z.ltb_ge in E. unfold ret in H. injection H as <- _.
    exists []. cbn. split; auto. lia.
  - apply bind_inv in H as (res & w1 & H1 & H).
    apply bind_inv in H as (u & w2 & H2 & H).
    apply bind_inv in H as ([res' got] & w3 & H3 & H).
    apply bind_inv in H as (u' & w4 & H4 & H).
    unfold assert in H4. destruct (0 <=? res') eqn:Er; [|discriminate].
    apply Z.leb_le in Er.
    apply sys_read_inv in H3 as [[-> _]|[-> Hlen]]; [lia|].
    apply Z.ltb_lt in E.
    apply IH in H as (chunks & -> & Hn); [|lia].
    exists (got :: chunks). split; [reflexivity|].
    cbn [concat]. rewrite length_app, Nat2Z.inj_add. lia.
  - apply Z.ltb_ge in E. unfold ret in H. injection H as <- _.
    exists []. cbn. split; auto. lia.
Qed.



Lemma socket_getN_attached result s n server w count got w1 :
  attached s -> sys_read (conn s) n w = Returned (count, got) w1 ->
  socket_getN result s n server w =
    if count =? n then Returned (poke (store result 0 got) n x00, s) w1
    else if 0 <? count then
      (rounds <- rounds_left ;;
       bytes <- getN_rest rounds (conn s) (store result 0 got) count n ;;
       ret (poke bytes n x00, s)) w1
    else if not_transient count (errno w1)
         then (sys_close (conn s) ;; ret (poke (store result 0 got) n xff, set_conn s (-1))) w1
         else Returned (poke (store result 0 got) n xff, s) w1.
Proof.
  intros Ha Hr. unfold socket_getN.
  rewrite (bind_Returned _ _ _ _ _ (acceptConnection_attached s server w Ha)).
  unfold attached in Ha. apply Z.eqb_neq in Ha. rewrite Ha.
  rewrite (bind_Returned _ _ _ _ _ Hr). cbn beta iota.
  destruct (count =? n); auto. destruct (0 <? count); auto.
  unfold bind at 1, get_errno. now destruct (not_transient count (errno w1)).
Qed.



Lemma count_calls_app p w w' cs :
  trace w' = trace w ++ cs ->
  count_calls p w' = (count_calls p w + length (filter p cs))%nat.
Proof. unfold count_calls. intros ->. now rewrite filter_app, length_app. Qed.

(** getN with n = 0 on an attached endpoint, by what its one read meets: no
    answer, a count, an error, or a descriptor that is not open. *)
Lemma socket_getN_zero_cases result s server w :
  attached s ->
  let run := socket_getN result s 0 server w in
  let w1 := logged (c_read (conn s) 0) w in
  let m b := poke (store result 0 []) 0 b in
  (is_open (conn s) w = true /\ script w = [] /\ run = Blocked w1) \/
  (exists v bs rest, is_open (conn s) w = true /\ script w = Ok v bs :: rest /\
     run = Returned (m x00, s) (answered rest w1)) \/
  (exists e rest, is_open (conn s) w = true /\ script w = Err e :: rest /\
     run = if errno_eqb e EAGAIN
           then Returned (m xff, s) (failed e (answered rest w1))
           else (sys_close (conn s) ;; ret (m xff, set_conn s (-1)))
                  (failed e (answered rest w1))) \/
  (is_open (conn s) w = false /\
     run = (sys_close (conn s) ;; ret (m xff, set_conn s (-1))) (failed EBADF w1)).
Proof.
  intros Ha run w1 m.
  destruct (is_open (conn s) w) eqn:Ho; [destruct (script w) as [|[v bs|e] rest] eqn:Hs|].
  - left. split; [reflexivity|]. split; [reflexivity|].
    unfold run, socket_getN.
    rewrite (bind_Returned _ _ _ _ _ (acceptConnection_attached s server w Ha)).
    unfold attached in Ha. apply Z.eqb_neq in Ha. rewrite Ha.
    unfold sys_read, bind. now rewrite (on_fd_starved _ _ _ Ho Hs).
  - right; left. exists v, bs, rest. split; [reflexivity|]. split; [reflexivity|].
    pose proof (sys_read_open (conn s) 0 w v bs rest Ho Hs) as Hr.
    exact (socket_getN_attached result s 0 server w 0 [] _ Ha Hr).
  - right; right; left. exists e, rest. split; [reflexivity|]. split; [reflexivity|].
    pose proof (sys_read_err (conn s) 0 w e rest Ho Hs) as Hr.
    unfold run. rewrite (socket_getN_attached result s 0 server w (-1) [] _ Ha Hr).
    unfold not_transient. cbn [errno failed].
    now destruct (errno_eqb e EAGAIN).
  - right; right; right. split; [reflexivity|].
    assert (Hr : sys_read (conn s) 0 w = Returned (-1, []) (failed EBADF w1)).
    { unfold sys_read, bind. now rewrite (on_fd_closed _ _ _ Ho). }
    exact (socket_getN_attached result s 0 server w (-1) [] _ Ha Hr).
Qed.

(** C10, as the code has it.  On an attached endpoint getN with n = 0 makes
    one zero-length read, moves no byte into the buffer and never enters the
    blocking phase: it makes no select call.  When the read yields a count,
    which is then 0, getN sets the status byte, at index 0, to 0 and leaves
    the endpoint as it was.  When the read fails, getN reports no data: the
    status byte is 0xFF.  With EAGAIN the endpoint stays attached; with any
    other error, and so when the descriptor of the connection is not open,
    the connection is closed and unset. *)
Theorem socket_getN_zero result s server w :
  attached s ->
  let run := socket_getN result s 0 server w in
  let w1 := logged (c_read (conn s) 0) w in
  count_calls is_select (final run) = count_calls is_select w /\
  (forall v bs rest, is_open (conn s) w = true -> script w = Ok v bs :: rest ->
     exists m, run = Returned (m, s) (answered rest w1) /\
       status m 0 = x00 /\ status m 0 <> xff /\
       (forall i, i <> 0 -> m i = result i) /\
       trace (answered rest w1) = trace w ++ [c_read (conn s) 0]) /\
  (forall e rest, is_open (conn s) w = true -> script w = Err e :: rest ->
     exists m s' w', run = Returned (m, s') w' /\
       status m 0 = xff /\ (forall i, i <> 0 -> m i = result i) /\
       script w' = rest /\ errno w' = e /\
       if errno_eqb e EAGAIN
       then s' = s /\ trace w' = trace w ++ [c_read (conn s) 0]
       else s' = set_conn s (-1) /\ is_open (conn s) w' = false /\
            trace w' = trace w ++ [c_read (conn s) 0; c_close (conn s)]) /\
  (is_open (conn s) w = false ->
     exists m w', run = Returned (m, set_conn s (-1)) w' /\
       status m 0 = xff /\ (forall i, i <> 0 -> m i = result i) /\
       script w' = script w /\ errno w' = EBADF /\
       trace w' = trace w ++ [c_read (conn s) 0; c_close (conn s)]) /\
  (is_open (conn s) w = true -> script w = [] -> run = Blocked w1).
Proof.
  intros Ha run w1.
  assert (Hm : forall b i, i <> 0 -> poke (store result 0 []) 0 b i = result i).
  { intros b i Hi. rewrite poke_other by exact Hi. apply store_outside. cbn. lia. }
  assert (Hcl : forall (x : memory) e w2, trace w2 = trace w ++ [c_read (conn s) 0] ->
            script (failed e w2) = script w2 ->
            exists w', (sys_close (conn s) ;; ret (x, set_conn s (-1))) (failed e w2)
                         = Returned (x, set_conn s (-1)) w' /\
              is_open (conn s) w' = false /\ script w' = script w2 /\ errno w' = e /\
              trace w' = trace w ++ [c_read (conn s) 0; c_close (conn s)]).
  { intros x e w2 Ht _.
    destruct (sys_close_spec (conn s) (failed e w2)) as (w' & E & Ho' & Ht' & Hs' & He' & _).
    exists w'. rewrite (bind_Returned _ _ _ _ _ E). unfold ret.
    split; [reflexivity|]. split; [exact Ho'|]. split; [exact Hs'|]. split; [exact He'|].
    rewrite Ht'. cbn [trace failed]. rewrite Ht, <- app_assoc. reflexivity. }
  pose proof (socket_getN_zero_cases result s server w Ha) as C. cbv zeta in C.
  fold run w1 in C.
  split; [|split; [|split; [|split]]].
  - destruct C as [(_ & _ & E)|[(v & bs & rest & _ & _ & E)|[(e & rest & _ & _ & E)|(_ & E)]]].
    + rewrite E. cbn [final]. now rewrite (count_calls_app is_select w w1 [c_read (conn s) 0]).
    + rewrite E. cbn [final].
      now rewrite (count_calls_app is_select w (answered rest w1) [c_read (conn s) 0]).
    + destruct (errno_eqb e EAGAIN).
      * rewrite E. cbn [final].
        now rewrite (count_calls_app is_select w (failed e (answered rest w1))
                       [c_read (conn s) 0]).
      * destruct (Hcl (poke (store result 0 []) 0 xff) e (answered rest w1) eq_refl eq_refl)
          as (w' & E' & _ & _ & _ & Ht).
        rewrite E, E'. cbn [final]. now rewrite (count_calls_app is_select w w' _ Ht).
    + destruct (Hcl (poke (store result 0 []) 0 xff) EBADF w1 eq_refl eq_refl)
        as (w' & E' & _ & _ & _ & Ht).
      rewrite E, E'. cbn [final]. now rewrite (count_calls_app is_select w w' _ Ht).
  - intros v bs rest Ho Hs.
    destruct C as [(_ & Hs' & _)|[(v' & bs' & rest' & _ & Hs' & E)|[(e & rest' & _ & Hs' & _)|(Ho' & _)]]];
      try congruence.
    rewrite Hs in Hs'. injection Hs' as _ _ <-.
    eexists. split; [exact E|]. unfold status. rewrite poke_same.
    split; [reflexivity|]. split; [discriminate|]. split; [apply Hm|reflexivity].
  - intros e rest Ho Hs.
    destruct C as [(_ & Hs' & _)|[(v' & bs' & rest' & _ & Hs' & _)|[(e' & rest' & _ & Hs' & E)|(Ho' & _)]]];
      try congruence.
    rewrite Hs in Hs'. injection Hs' as <- <-.
    destruct (errno_eqb e EAGAIN).
    + eexists _, _, _. split; [exact E|]. unfold status. rewrite poke_same.
      split; [reflexivity|]. split; [apply Hm|]. repeat split.
    + destruct (Hcl (poke (store result 0 []) 0 xff) e (answered rest w1) eq_refl eq_refl)
        as (w' & E' & Ho' & Hs' & He' & Ht).
      eexists _, _, w'. split; [rewrite E; exact E'|]. unfold status. rewrite poke_same.
      split; [reflexivity|]. split; [apply Hm|]. repeat split; assumption.
  - intros Ho.
    destruct C as [(Ho' & _)|[(v' & bs' & rest' & Ho' & _)|[(e' & rest' & Ho' & _)|(_ & E)]]];
      try congruence.
    destruct (Hcl (poke (store result 0 []) 0 xff) EBADF w1 eq_refl eq_refl)
      as (w' & E' & _ & Hs' & He' & Ht).
    eexists _, w'. split; [rewrite E; exact E'|]. unfold status. rewrite poke_same.
    split; [reflexivity|]. split; [apply Hm|]. repeat split; assumption.
  - intros Ho Hs.
    destruct C as [(_ & _ & E)|[(v' & bs' & rest' & _ & Hs' & _)|[(e' & rest' & _ & Hs' & _)|(Ho' & _)]]];
      congruence.
Qed.

(** ** putN *)



Lemma putN_rest_unfold rounds fd bytes count nbytes :
  putN_rest rounds fd bytes count nbytes =
    if count <? nbytes then
      match rounds with
      | O => blocked
      | S rounds' =>
          res <- sys_value fd (c_select_write fd) ;;
          assert (0 <=? res) ;;
          res <- sys_write fd (bytes_at bytes count (nbytes - count)) ;;
          assert (0 <=? res) ;;
          putN_rest rounds' fd bytes (count + res) nbytes
      end
    else ret tt.
Proof. destruct rounds; reflexivity. Qed.







Lemma socket_putN_attached s n data server w count w1 :
  attached s -> sys_write (conn s) (bytes_at data 0 n) w = Returned count w1 ->
  socket_putN s n data server w =
    if count =? n then Returned (1, s) w1
    else if 0 <? count then
      (rounds <- rounds_left ;;
       putN_rest rounds (conn s) data count n ;;
       ret (1, s)) w1
    else if not_transient count (errno w1)
         then (sys_close (conn s) ;; ret (0, set_conn s (-1))) w1
         else Returned (0, s) w1.
Proof.
  intros Ha Hr. unfold socket_putN.
  rewrite (bind_Returned _ _ _ _ _ (acceptConnection_attached s server w Ha)).
  unfold attached in Ha. apply Z.eqb_neq in Ha. rewrite Ha.
  rewrite (bind_Returned _ _ _ _ _ Hr).
  destruct (count =? n); auto. destruct (0 <? count); auto.
  unfold bind at 1, get_errno. now destruct (not_transient count (errno w1)).
Qed.


(** ** The rounds of the blocking phases *)

Lemma sys_value_script fd c w r w' :
  sys_value fd c w = Returned r w' -> 0 <= r ->
  (length (script w') < length (script w))%nat.
Proof.
  unfold sys_value, bind.
  destruct (on_fd_cases fd c w)
    as [[_ ->]|[(_ & _ & ->)|(r' & rest & _ & Hs & ->)]]; try discriminate.
  - cbn. intros [= <- _]. lia.
  - destruct r' as [v x|e]; cbn; intros [= <- <-] Hr; [|lia].
    cbn. rewrite Hs. cbn. lia.
Qed.

Lemma sys_read_script fd n w x w' :
  sys_read fd n w = Returned x w' -> (length (script w') <= length (script w))%nat.
Proof.
  unfold sys_read, bind.
  destruct (on_fd_cases fd (c_read fd n) w)
    as [[_ ->]|[(_ & _ & ->)|(r' & rest & _ & Hs & ->)]]; try discriminate.
  - cbn. intros [= _ <-]. cbn. lia.
  - destruct r' as [v bs|e]; cbn; intros [= _ <-]; cbn; rewrite Hs; cbn; lia.
Qed.

Lemma sys_write_script fd bs w x w' :
  sys_write fd bs w = Returned x w' -> (length (script w') <= length (script w))%nat.
Proof.
  unfold sys_write, bind.
  destruct (on_fd_cases fd (c_write fd bs) w)
    as [[_ ->]|[(_ & _ & ->)|(r' & rest & _ & Hs & ->)]]; try discriminate.
  - cbn. intros [= _ <-]. cbn. lia.
  - destruct r' as [v y|e]; cbn; intros [= _ <-]; cbn; rewrite Hs; cbn; lia.
Qed.

(** More rounds than the script has answers change nothing: the bound that
    rounds_left puts on the two loops never cuts a run short. *)
Lemma getN_rest_rounds r1 : forall r2 fd bytes count n w,
  (length (script w) < r1)%nat -> (length (script w) < r2)%nat ->
  getN_rest r1 fd bytes count n w = getN_rest r2 fd bytes count n w.
Proof.
  induction r1 as [|r1 IH]; intros r2 fd bytes count n w H1 H2; [lia|].
  destruct r2 as [|r2]; [lia|].
  rewrite (getN_rest_unfold (S r1)), (getN_rest_unfold (S r2)).
  destruct (count <? n); [|reflexivity].
  unfold bind at 1 5.
  destruct (sys_value fd (c_select_read fd) w) as [res w1| | |] eqn:E1; try reflexivity.
  unfold bind at 1 4, assert.
  destruct (0 <=? res) eqn:Er; [|reflexivity].
  apply Z.leb_le in Er. pose proof (sys_value_script _ _ _ _ _ E1 Er) as L1.
  unfold bind at 1 3.
  destruct (sys_read fd (n - count) w1) as [[res' got] w2| | |] eqn:E2; try reflexivity.
  pose proof (sys_read_script _ _ _ _ _ E2) as L2.
  unfold bind, assert. destruct (0 <=? res'); [|reflexivity].
  apply IH; lia.
Qed.

Lemma putN_rest_rounds r1 : forall r2 fd data count n w,
  (length (script w) < r1)%nat -> (length (script w) < r2)%nat ->
  putN_rest r1 fd data count n w = putN_rest r2 fd data count n w.
Proof.
  induction r1 as [|r1 IH]; intros r2 fd data count n w H1 H2; [lia|].
  destruct r2 as [|r2]; [lia|].
  rewrite (putN_rest_unfold (S r1)), (putN_rest_unfold (S r2)).
  destruct (count <? n); [|reflexivity].
  unfold bind at 1 5.
  destruct (sys_value fd (c_select_write fd) w) as [res w1| | |] eqn:E1; try reflexivity.
  unfold bind at 1 4, assert.
  destruct (0 <=? res) eqn:Er; [|reflexivity].
  apply Z.leb_le in Er. pose proof (sys_value_script _ _ _ _ _ E1 Er) as L1.
  unfold bind at 1 3.
  destruct (sys_write fd (bytes_at data count (n - count)) w1) as [res' w2| | |] eqn:E2;
    try reflexivity.
  pose proof (sys_write_script _ _ _ _ _ E2) as L2.
  unfold bind, assert. destruct (0 <=? res'); [|reflexivity].
  apply IH; lia.
Qed.

(** ** Runs on sample inputs *)

Lemma socket_get8_byte_or_sentinel_witness :
  let s := server_attached in
  let w := world_of [3; 4] [Ok 0 [x41]] in
  let w2 := mkWorld [3; 4] EINTR no_env [] [c_read 4 1] in
  exists b, [x41] = [b] /\
    socket_get8 s true w = Returned (uint32_of_byte b, s) w2 /\
    0 <= uint32_of_byte b <= 255.
Proof.
  intros s w w2.
  destruct (socket_get8_byte_or_sentinel s true w s w eq_refl) as (_ & H & _).
  assert (Hc : conn s <> -1) by (cbn; lia).
  destruct (H Hc 1 [x41] w2 eq_refl) as (H1 & _).
  exact (H1 eq_refl).
Defined.

Lemma socket_put8_success_iff_witness :
  let s := server_attached in
  let w := world_of [3; 4] [Err EAGAIN] in
  let w2 := mkWorld [3; 4] EAGAIN no_env [] [c_write 4 [x41]] in
  socket_put8 s x41 true w = Returned (0, s) w2 /\ attached s.
Proof.
  intros s w w2.
  destruct (socket_put8_success_iff s x41 true w s w eq_refl) as (_ & H).
  assert (Hc : conn s <> -1) by (cbn; lia).
  destruct (H Hc (-1) w2 eq_refl) as (_ & _ & _ & H1 & _).
  exact (H1 (conj eq_refl eq_refl)).
Defined.

Lemma socket_put8_blocking_bounded_witness :
  let s := server_attached in
  let w := world_of [3; 4] [Err EAGAIN; Err EAGAIN; Ok 1 []] in
  exists w', socket_put8_blocking s x41 true w = Returned (1, s) w' /\
    trace w' = trace w ++ full_rounds 2 4 x41 ++ [c_write 4 [x41]] /\
    script w' = [].
Proof.
  intros s w.
  destruct (socket_put8_blocking_bounded s x41 true w s w eq_refl) as (_ & H).
  assert (Hc : conn s <> -1) by (cbn; lia).
  destruct (H Hc) as (_ & H1 & _ & _).
  assert (Hj : (2 < 1000)%nat) by lia.
  exact (H1 eq_refl 2%nat (Ok 1 []) [] Hj eq_refl eq_refl).
Defined.

Lemma socket_init_idempotent_witness :
  let s := server_attached in
  let w := world_of [3; 4] [Ok 7 []] in
  socket_init s true w = Returned s w.
Proof.
  intros s w.
  assert (Hk : sock s <> -1) by (cbn; lia).
  exact (proj1 (socket_init_idempotent s true w) Hk).
Defined.

Lemma configured_port_resolved_once_witness :
  let w := mkWorld [] EINTR (port_env "sim_PORT" "8080") (init_replies true 3 2) [] in
  exists s1 w1, socket_init created true w = Returned s1 w1 /\ port s1 = 8080 /\
    count_calls is_getenv w1 = S (count_calls is_getenv w).
Proof.
  intros w.
  assert (Hn : Z.of_nat (String.length "sim") < STR_BUFF_SZ) by reflexivity.
  assert (Hd : 0 <= 5000 < 2 ^ 32) by lia.
  destruct (configured_port_resolved_once "sim" 5000 (world_of [] []) _ created true w
              Hn Hd eq_refl) as (_ & _ & H & _).
  exact (H 3%nat 2%nat [] eq_refl eq_refl).
Defined.

Lemma client_detach_permanent_witness :
  let s := client_attached in
  let w := world_of [3] [Err ECONNRESET] in
  let s0 := mkState "sim" 5000 3 (-1) in
  let w0 := mkWorld [] ECONNRESET no_env [] [c_read 3 2; c_close 3] in
  let os := [op_getN zeros 4; op_putN 4 one_to_four; op_put8_blocking x41] in
  let evs := [on_endpoint op_get8; elsewhere (opened 5); on_endpoint (op_put8 x41);
              elsewhere (answered [Ok 1 [x42]]); on_endpoint (op_getN zeros 4)] in
  let w1 := opened 3 (answered [Ok 1 [x42]] w0) in
  broken s0 w0 /\
  (exists rs s' w', run_ops false os s0 w0 = Returned (rs, s') w' /\
     Forall2 reports_failure os rs /\ broken s' w' /\ script w' = script w0) /\
  (exists rs s' w', run_events false evs s0 w0 = Returned (rs, s') w' /\
     Forall2 reports_failure (operations evs) rs /\ broken s' w' /\
     forall o, sized o ->
       exists r s'' w'', run_op false o s' w' = Returned (r, s'') w'' /\
         reports_failure o r /\ script w'' = script w') /\
  run_op false op_get8 s0 w1 =
    Returned (r_word (uint32_of_byte x42), set_conn s0 (sock s0))
      (answered [] (logged (c_read (sock s0) 1) w1)).
Proof.
  intros s w s0 w0 os evs w1.
  assert (Ha : attached s) by (unfold attached; cbn; lia).
  destruct (client_detach_permanent s w (op_getN zeros 2)
              (r_bytes (poke (store zeros 0 []) 2 xff)) s0 w0 eq_refl Ha eq_refl eq_refl)
    as (Hb & _ & H & K & R).
  split; [exact Hb|]. split; [|split].
  - apply H. repeat constructor; cbn; lia.
  - apply K. repeat constructor; cbn; try lia; intros x Hx; exact Hx.
  - exact (R w1 1%nat x42 [] [] eq_refl eq_refl).
Defined.



Lemma socket_getN_zero_witness :
  let s := server_attached in
  let w := world_of [3; 4] [Ok 0 [x41]] in
  let w1 := mkWorld [3; 4] EINTR no_env [] [c_read 4 0] in
  count_calls is_select (final (socket_getN zeros s 0 true w)) = count_calls is_select w /\
  exists m, socket_getN zeros s 0 true w = Returned (m, s) w1 /\
    status m 0 = x00 /\ status m 0 <> xff /\
    (forall i, i <> 0 -> m i = zeros i) /\
    trace w1 = trace w ++ [c_read (conn s) 0].
Proof.
  intros s w w1.
  assert (Ha : attached s) by (unfold attached; cbn; lia).
  pose proof (socket_getN_zero zeros s true w Ha) as H. cbv zeta in H.
  destruct H as (Hc & Hok & _).
  split; [exact Hc|]. exact (Hok 0%nat [x41] [] eq_refl eq_refl).
Defined.

(** C2, on put8Blocking.  The write of socket_put8_blocking fails with EPIPE,
    which is not the transient condition: the function returns 0 and leaves
    the connection descriptor 4 set and open.  On the same input socket_put8
    closes descriptor 4 and unsets the field. *)
Theorem socket_put8_blocking_keeps_descriptor :
  let s := server_attached in
  let w := world_of [3; 4] [Err EPIPE] in
  socket_put8_blocking s x41 true w =
    Returned (0, s) (mkWorld [3; 4] EPIPE no_env [] [c_write 4 [x41]]) /\
  conn s = 4 /\
  socket_put8 s x41 true w =
    Returned (0, set_conn s (-1))
      (mkWorld [3] EPIPE no_env [] [c_write 4 [x41]; c_close 4]).
Proof. cbv zeta. split; [reflexivity|]. split; reflexivity. Qed.



(** C3 as stated does not hold.  A client loses its connection in getN (the
    read fails with ECONNRESET) and is handed back with the descriptor
    unset.  The attach step of the next operation sets the connection field
    to the closed socket 3 again, and socket_put8_blocking returns with the
    field still set; both report failure all the same. *)
Lemma client_reattaches_closed_socket :
  let s := client_attached in
  let w := world_of [3] [Err ECONNRESET] in
  let s0 := mkState "sim" 5000 3 (-1) in
  let w0 := mkWorld [] ECONNRESET no_env [] [c_read 3 2; c_close 3] in
  (exists m, run_op false (op_getN zeros 2) s w = Returned (r_bytes m, s0) w0 /\
     status m 2 = xff) /\
  conn s0 = -1 /\
  acceptConnection s0 false w0 = Returned (set_conn s0 3) w0 /\
  attached (set_conn s0 3) /\
  run_op false (op_put8_blocking x41) s0 w0
    = Returned (r_word 0, set_conn s0 3)
        (mkWorld [] EBADF no_env [] [c_read 3 2; c_close 3; c_write 3 [x41]]).
Proof.
  cbv zeta.
  split; [exists (poke (store zeros 0 []) 2 xff); split; reflexivity|].
  split; [reflexivity|]. split; [reflexivity|].
  split; [unfold attached; cbn; lia|reflexivity].
Qed.

(** C10 as stated does not hold.  A client loses its connection in get8,
    which closes descriptor 3 and unsets the field; put8Blocking then points
    the field at descriptor 3 again and returns with it set.  The endpoint is
    attached, and getN with n = 0 reports no data: its read fails on the
    closed descriptor, the status byte is 0xFF and the connection is unset. *)
Lemma socket_getN_zero_no_data :
  let s := client_attached in
  let w := world_of [3] [Err ECONNRESET] in
  let w2 := mkWorld [] EBADF no_env [] [c_read 3 1; c_close 3; c_write 3 [x41]] in
  let w3 := mkWorld [] EBADF no_env []
              [c_read 3 1; c_close 3; c_write 3 [x41]; c_read 3 0; c_close 3] in
  run_ops false [op_get8; op_put8_blocking x41] s w
    = Returned ([r_word NO_DATA; r_word 0], s) w2 /\
  attached s /\ conn s = 3 /\
  exists m, socket_getN zeros s 0 false w2 = Returned (m, set_conn s (-1)) w3 /\
    status m 0 = xff.
Proof.
  cbv zeta. split; [reflexivity|].
  split; [unfold attached; cbn; lia|]. split; [reflexivity|].
  exists (poke (store zeros 0 []) 0 xff). split; reflexivity.
Qed.

(** * More of the code *)

(** ** Making a descriptor non-blocking *)

Lemma sys_value_inv fd c w r w' :
  sys_value fd c w = Returned r w' ->
  trace w' = trace w ++ [c] /\ open_fds w' = open_fds w /\ env w' = env w /\
  ((r = -1 /\ script w' = script w /\ is_open fd w = false) \/
   (r = -1 /\ exists e, script w = Err e :: script w') \/
   (exists v x, r = Z.of_nat v /\ script w = Ok v x :: script w' /\
      is_open fd w = true /\ errno w' = errno w)).
Proof.
  unfold sys_value, bind.
  destruct (on_fd_cases fd c w)
    as [[Ho ->]|[(_ & _ & ->)|(r' & rest & Ho & Hs & ->)]]; try discriminate.
  - cbn. intros [= <- <-]. cbn. auto 8.
  - destruct r' as [v x|e]; cbn; intros [= <- <-]; cbn; repeat split; auto.
    + right; right. exists v, x. auto.
    + right; left. eauto.
Qed.

Lemma sys_plain_inv fd c w r w' :
  sys_plain fd c w = Returned r w' ->
  trace w' = trace w ++ [c] /\ open_fds w' = open_fds w /\ env w' = env w /\
  ((r = -1 /\ script w' = script w /\ is_open fd w = false) \/
   (r = -1 /\ exists e, script w = Err e :: script w') \/
   (exists v x, r = 0 /\ script w = Ok v x :: script w' /\
      is_open fd w = true /\ errno w' = errno w)).
Proof.
  unfold sys_plain, bind.
  destruct (on_fd_cases fd c w)
    as [[Ho ->]|[(_ & _ & ->)|(r' & rest & Ho & Hs & ->)]]; try discriminate.
  - cbn. intros [= <- <-]. cbn. auto 8.
  - destruct r' as [v x|e]; cbn; intros [= <- <-]; cbn; repeat split; auto.
    + right; right. exists v, x. auto.
    + right; left. eauto.
Qed.

(** The four ways a call on a descriptor can go. *)
Lemma sys_value_cases fd c w :
  (is_open fd w = false /\
     sys_value fd c w = Returned (-1) (failed EBADF (logged c w))) \/
  (is_open fd w = true /\ script w = [] /\ sys_value fd c w = Blocked (logged c w)) \/
  (exists e rest, is_open fd w = true /\ script w = Err e :: rest /\
     sys_value fd c w = Returned (-1) (failed e (answered rest (logged c w)))) \/
  (exists v x rest, is_open fd w = true /\ script w = Ok v x :: rest /\
     sys_value fd c w = Returned (Z.of_nat v) (answered rest (logged c w))).
Proof.
  unfold sys_value, bind.
  destruct (on_fd_cases fd c w)
    as [[Ho ->]|[(Ho & Hs & ->)|(r & rest & Ho & Hs & ->)]].
  - left. auto.
  - right; left. auto.
  - destruct r as [v x|e].
    + right; right; right. exists v, x, rest. auto.
    + right; right; left. exists e, rest. auto.
Qed.

Lemma sys_plain_cases fd c w :
  (is_open fd w = false /\
     sys_plain fd c w = Returned (-1) (failed EBADF (logged c w))) \/
  (is_open fd w = true /\ script w = [] /\ sys_plain fd c w = Blocked (logged c w)) \/
  (exists e rest, is_open fd w = true /\ script w = Err e :: rest /\
     sys_plain fd c w = Returned (-1) (failed e (answered rest (logged c w)))) \/
  (exists v x rest, is_open fd w = true /\ script w = Ok v x :: rest /\
     sys_plain fd c w = Returned 0 (answered rest (logged c w))).
Proof.
  unfold sys_plain, bind.
  destruct (on_fd_cases fd c w)
    as [[Ho ->]|[(Ho & Hs & ->)|(r & rest & Ho & Hs & ->)]].
  - left. auto.
  - right; left. auto.
  - destruct r as [v x|e].
    + right; right; right. exists v, x, rest. auto.
    + right; right; left. exists e, rest. auto.
Qed.

Lemma O_NONBLOCK_bit flags i :
  0 <= i ->
  Z.testbit (Z.lor flags O_NONBLOCK) i = Z.testbit flags i || (i =? 11).
Proof.
  intros Hi. rewrite Z.lor_spec. f_equal.
  change O_NONBLOCK with (2 ^ 11). destruct (i =? 11) eqn:E.
  - apply Z.eqb_eq in E. subst i. now rewrite Z.pow2_bits_true.
  - apply Z.eqb_neq in E. apply Z.pow2_bits_false. lia.
Qed.

(** What socketSetNonBlocking comes to, in every case. *)
Lemma socketSetNonBlocking_outcome fd w :
  match socketSetNonBlocking fd w with
  | Returned _ w' =>
      exists flags x v y,
        is_open fd w = true /\
        script w = Ok flags x :: Ok v y :: script w' /\
        trace w' = trace w ++
          [c_fcntl_getfl fd; c_fcntl_setfl fd (Z.lor (Z.of_nat flags) O_NONBLOCK)] /\
        (forall i, 0 <= i ->
           Z.testbit (Z.lor (Z.of_nat flags) O_NONBLOCK) i
           = Z.testbit (Z.of_nat flags) i || (i =? 11)) /\
        open_fds w' = open_fds w /\ env w' = env w /\ errno w' = errno w
  | Exited w' =>
      (is_open fd w = false \/
       (exists e rest, script w = Err e :: rest /\ errno w' = e) \/
       (exists f x e rest, script w = Ok f x :: Err e :: rest /\ errno w' = e)) /\
      exists cs, trace w' = trace w ++ cs ++ [c_perror "fcntl"]
  | AssertFailed _ => False
  | Blocked w' => script w' = []
  end.
Proof.
  unfold socketSetNonBlocking.
  destruct (sys_value_cases fd (c_fcntl_getfl fd) w)
    as [[Ho E]|[(Ho & Hs & E)|[(e & rest & Ho & Hs & E)|(v & x & rest & Ho & Hs & E)]]].
  - rewrite (bind_Returned _ _ _ _ _ E). cbn. split.
    + now left.
    + exists [c_fcntl_getfl fd]. now rewrite <- app_assoc.
  - unfold bind. rewrite E. cbn. exact Hs.
  - rewrite (bind_Returned _ _ _ _ _ E). cbn. split.
    + right; left. exists e, rest. auto.
    + exists [c_fcntl_getfl fd]. now rewrite <- app_assoc.
  - rewrite (bind_Returned _ _ _ _ _ E).
    assert (Hv : (Z.of_nat v =? -1) = false) by (apply Z.eqb_neq; lia).
    rewrite Hv.
    set (w1 := answered rest (logged (c_fcntl_getfl fd) w)).
    set (c2 := c_fcntl_setfl fd (Z.lor (Z.of_nat v) O_NONBLOCK)).
    assert (Ho1 : is_open fd w1 = true) by exact Ho.
    destruct (sys_plain_cases fd c2 w1)
      as [[Ho' E']|[(_ & Hs' & E')|[(e & rest' & _ & Hs' & E')|(v' & x' & rest' & _ & Hs' & E')]]].
    + congruence.
    + unfold bind. rewrite E'. cbn. exact Hs'.
    + rewrite (bind_Returned _ _ _ _ _ E'). cbn. cbn in Hs'. split.
      * right; right. exists v, x, e, rest'. split; [|reflexivity].
        now rewrite Hs, Hs'.
      * exists [c_fcntl_getfl fd; c2]. now rewrite <- !app_assoc.
    + rewrite (bind_Returned _ _ _ _ _ E'). cbn. cbn in Hs'.
      exists v, x, v', x'. split; [exact Ho|]. split; [now rewrite Hs, Hs'|].
      split; [now rewrite <- app_assoc|]. split; [|auto].
      intros i Hi. now apply O_NONBLOCK_bit.
Qed.

(** X1. socketSetNonBlocking returns only when both fcntl calls succeeded:
    it has then read the file status flags and written them back with the
    O_NONBLOCK bit added and every other bit as it was.  When either call
    fails, on a closed descriptor too, it reports "fcntl" and the process
    exits.  It fails no assertion, and stops short only where the script
    ends. *)
Theorem socketSetNonBlocking_sets_flag fd w :
  match socketSetNonBlocking fd w with
  | Returned _ w' =>
      exists flags x v y,
        is_open fd w = true /\
        script w = Ok flags x :: Ok v y :: script w' /\
        trace w' = trace w ++
          [c_fcntl_getfl fd; c_fcntl_setfl fd (Z.lor (Z.of_nat flags) O_NONBLOCK)] /\
        (forall i, 0 <= i ->
           Z.testbit (Z.lor (Z.of_nat flags) O_NONBLOCK) i
           = Z.testbit (Z.of_nat flags) i || (i =? 11)) /\
        open_fds w' = open_fds w
  | Exited w' =>
      (is_open fd w = false \/
       (exists e rest, script w = Err e :: rest /\ errno w' = e) \/
       (exists f x e rest, script w = Ok f x :: Err e :: rest /\ errno w' = e)) /\
      exists cs, trace w' = trace w ++ cs ++ [c_perror "fcntl"]
  | AssertFailed _ => False
  | Blocked w' => script w' = []
  end.
Proof.
  pose proof (socketSetNonBlocking_outcome fd w) as H.
  destruct (socketSetNonBlocking fd w); auto.
  destruct H as (flags & x & v & y & H1 & H2 & H3 & H4 & H5 & _).
  exists flags, x, v, y. auto.
Qed.

(** ** Initialisation, call by call *)

Lemma sys_socket_inv_ok w fd w' :
  sys_socket w = Returned fd w' -> (fd =? -1) = false ->
  exists v x, fd = Z.of_nat v /\ script w = Ok v x :: script w' /\
    trace w' = trace w ++ [c_socket] /\ open_fds w' = fd :: open_fds w /\
    env w' = env w /\ errno w' = errno w.
Proof.
  unfold sys_socket, bind, emit, next_reply. cbn.
  destruct (script w) as [|[v x|e] rest] eqn:Hs; cbn; try discriminate.
  - intros [= <- <-] _. exists v, x. cbn. auto 6.
  - intros [= <- <-]. discriminate.
Qed.

Lemma sys_plain_inv_ok fd c w r w' :
  sys_plain fd c w = Returned r w' -> (r =? -1) = false ->
  exists v x, script w = Ok v x :: script w' /\ is_open fd w = true /\
    trace w' = trace w ++ [c] /\ open_fds w' = open_fds w /\
    env w' = env w /\ errno w' = errno w.
Proof.
  intros H Hr. apply Z.eqb_neq in Hr.
  apply sys_plain_inv in H
    as (Ht & Hf & He & [(? & _)|[(? & _)|(v & x & _ & Hs & Ho & Hn)]]);
    try contradiction.
  exists v, x. auto 6.
Qed.

Lemma getPortNumber_returns nm d w p w' :
  getPortNumber nm d w = Returned p w' ->
  open_fds w' = open_fds w /\ script w' = script w /\ env w' = env w /\
  errno w' = errno w /\
  trace w' = trace w ++
    (c_getenv (nm ++ "_PORT")%string
       :: match env w (nm ++ "_PORT")%string with
          | Some _ => []
          | None => [c_printf "---- %s environment variable not defined, using default port %d instead"]
          end).
Proof.
  unfold getPortNumber, sys_getenv, bind, emit, printf, emit, assert, ret. cbn.
  destruct (env w (nm ++ "_PORT")%string) as [v|]; cbn.
  - destruct ((0 <=? atoi v) && (atoi v <=? 65535)); try discriminate.
    intros [= _ <-]. cbn. auto.
  - destruct ((0 <=? to_int d) && (to_int d <=? 65535)); try discriminate.
    intros [= _ <-]. cbn. rewrite <- app_assoc. auto.
Qed.

(** The bind and listen of a server, or the connect of a client, when both
    the role's calls succeed. *)
Lemma role_step_inv (server : bool) sk p w (u : unit) w' :
  (if server then
     r <- sys_plain sk (c_bind sk p) ;;
     if r =? -1 then perror "bind" ;; exit_failure
     else
       r <- sys_plain sk (c_listen sk 0) ;;
       if r =? -1 then perror "listen" ;; exit_failure
       else ret tt
   else
     r <- sys_plain sk (c_connect sk p) ;;
     if r =? -1 then perror "connect" ;; exit_failure
     else ret tt) w = Returned u w' ->
  exists replies,
    script w = replies ++ script w' /\
    replies = (if server then [nth 0 replies (Err EBADF); nth 1 replies (Err EBADF)]
               else [nth 0 replies (Err EBADF)]) /\
    forallb is_ok replies = true /\
    trace w' = trace w ++ (if server then [c_bind sk p; c_listen sk 0] else [c_connect sk p]) /\
    open_fds w' = open_fds w /\ env w' = env w /\ errno w' = errno w.
Proof.
  destruct server; intros H.
  - apply bind_inv in H as (r & w1 & H1 & H).
    destruct (r =? -1) eqn:E1; [exits H|].
    apply (sys_plain_inv_ok _ _ _ _ _ H1) in E1
      as (v & x & Hs1 & _ & Ht1 & Hf1 & He1 & Hn1).
    apply bind_inv in H as (r' & w2 & H2 & H).
    destruct (r' =? -1) eqn:E2; [exits H|].
    apply (sys_plain_inv_ok _ _ _ _ _ H2) in E2
      as (v' & x' & Hs2 & _ & Ht2 & Hf2 & He2 & Hn2).
    unfold ret in H. injection H as _ <-.
    exists [Ok v x; Ok v' x']. cbn. rewrite Hs1, Hs2, Ht2, Ht1, <- app_assoc.
    repeat split; auto; congruence.
  - apply bind_inv in H as (r & w1 & H1 & H).
    destruct (r =? -1) eqn:E1; [exits H|].
    apply (sys_plain_inv_ok _ _ _ _ _ H1) in E1
      as (v & x & Hs1 & _ & Ht1 & Hf1 & He1 & Hn1).
    unfold ret in H. injection H as _ <-.
    exists [Ok v x]. cbn. rewrite Hs1, Ht1. repeat split; auto.
Qed.

(** X2. The first initialisation returns only after the whole setup has
    succeeded: the kernel answered every one of its system calls with
    success (six for a server, five for a client), the calls made are socket,
    setsockopt, the port lookup, bind and listen or connect, and the two
    fcntl calls, in this order, and the new socket is open.  The endpoint it
    hands back has that socket, the resolved port, and its name and
    connection as before. *)
Theorem socket_init_returns_complete s server w s' w' :
  sock s = -1 -> socket_init s server w = Returned s' w' ->
  exists fd flags replies,
    script w = replies ++ script w' /\
    length replies = setup_length server /\
    forallb is_ok replies = true /\
    trace w' = trace w ++ init_calls server s w fd flags /\
    s' = mkState (name s) (resolved_port s w) (Z.of_nat fd) (conn s) /\
    is_open (sock s') w' = true /\ errno w' = errno w.
Proof.
  intros Hk H. unfold socket_init in H. rewrite Hk in H.
  change (negb (-1 =? -1)) with false in H. cbn iota in H.
  apply bind_inv in H as (u0 & w0 & H0 & H).
  unfold emit in H0. injection H0 as _ <-.
  apply bind_inv in H as (fd & w1 & H1 & H).
  cbn [sock set_sock name port] in H.
  destruct (fd =? -1) eqn:Ea; [exits H|].
  apply (sys_socket_inv_ok _ _ _ H1) in Ea
    as (v & x & -> & Hs1 & Ht1 & Hf1 & He1 & Hn1).
  apply bind_inv in H as (r2 & w2 & H2 & H).
  destruct (r2 =? -1) eqn:E2; [exits H|].
  apply (sys_plain_inv_ok _ _ _ _ _ H2) in E2
    as (v2 & x2 & Hs2 & _ & Ht2 & Hf2 & He2 & Hn2).
  apply bind_inv in H as (p & w3 & H3 & H).
  pose proof (getPortNumber_inv _ _ _ _ _ H3) as (Hp & _ & _).
  apply getPortNumber_returns in H3 as (Hf3 & Hs3 & He3 & Hn3 & Ht3).
  apply bind_inv in H as (u4 & w4 & H4 & H).
  cbn [sock set_sock set_port name port] in H4.
  apply role_step_inv in H4 as (rs & Hs4 & Hrs & Hok & Ht4 & Hf4 & He4 & Hn4).
  apply bind_inv in H as (u5 & w5 & H5 & H).
  cbn [sock set_sock set_port] in H5.
  pose proof (socketSetNonBlocking_outcome (Z.of_nat v) w4) as H5'.
  rewrite H5 in H5'.
  destruct H5' as (flags & x5 & v6 & x6 & _ & Hs5 & Ht5 & _ & Hf5 & He5 & Hn5).
  apply bind_inv in H as (u6 & w6 & H6 & H).
  unfold printf, emit in H6. injection H6 as _ <-.
  unfold ret in H. injection H as <- <-.
  assert (Henv : env w2 = env w) by (rewrite He2, He1; reflexivity).
  assert (Hr : p = resolved_port s w).
  { unfold resolved_port. now rewrite Hp, Henv. }
  clear Hp. subst p.
  exists v, flags, (Ok v x :: Ok v2 x2 :: rs ++ [Ok flags x5; Ok v6 x6]).
  split; [|split; [|split; [|split; [|split; [|split]]]]].
  - cbn [script logged] in Hs1. rewrite Hs1, Hs2, <- Hs3, Hs4, Hs5.
    cbn [app]. now rewrite <- app_assoc.
  - cbn [length]. rewrite length_app. cbn [length].
    rewrite Hrs. destruct server; reflexivity.
  - cbn [forallb is_ok]. rewrite forallb_app, Hok. reflexivity.
  - cbn [trace logged]. rewrite Ht5, Ht4, Ht3, Ht2, Ht1. cbn [trace logged].
    unfold init_calls. rewrite Henv. rewrite <- !app_assoc.
    destruct server, (env w (name s ++ "_PORT")%string); reflexivity.
  - reflexivity.
  - cbn [sock]. unfold is_open. cbn [open_fds logged].
    rewrite Hf5, Hf4, Hf3, Hf2, Hf1. cbn [existsb]. now rewrite Z.eqb_refl.
  - cbn [errno logged]. rewrite Hn5, Hn4, Hn3, Hn2, Hn1. reflexivity.
Qed.

Lemma sys_plain_err fd c w e rest :
  is_open fd w = true -> script w = Err e :: rest ->
  sys_plain fd c w = Returned (-1) (failed e (answered rest (logged c w))).
Proof.
  intros Ho Hs. unfold sys_plain, bind. now rewrite (on_fd_open _ _ _ _ _ Ho Hs).
Qed.

Lemma sys_socket_err w e rest :
  script w = Err e :: rest ->
  sys_socket w = Returned (-1) (failed e (answered rest (logged c_socket w))).
Proof.
  intros Hs. unfold sys_socket, bind, emit, next_reply.
  cbn [script logged]. now rewrite Hs.
Qed.

Lemma socketSetNonBlocking_get_fails fd w e rest :
  is_open fd w = true -> script w = Err e :: rest ->
  exists w', socketSetNonBlocking fd w = Exited w' /\
    trace w' = trace w ++ [c_fcntl_getfl fd; c_perror "fcntl"] /\
    errno w' = e /\ script w' = rest.
Proof.
  intros Ho Hs. unfold socketSetNonBlocking.
  rewrite (bind_Returned _ _ _ _ _ (sys_value_err _ _ _ _ _ Ho Hs)).
  cbn. eexists. split; [reflexivity|]. cbn. rewrite <- app_assoc. auto.
Qed.

Lemma socketSetNonBlocking_set_fails fd w f x e rest :
  is_open fd w = true -> script w = Ok f x :: Err e :: rest ->
  exists w', socketSetNonBlocking fd w = Exited w' /\
    trace w' = trace w ++ [c_fcntl_getfl fd;
                           c_fcntl_setfl fd (Z.lor (Z.of_nat f) O_NONBLOCK);
                           c_perror "fcntl"] /\
    errno w' = e /\ script w' = rest.
Proof.
  intros Ho Hs. unfold socketSetNonBlocking.
  rewrite (bind_Returned _ _ _ _ _ (sys_value_ok _ _ _ _ _ _ Ho Hs)).
  assert (E : (Z.of_nat f =? -1) = false) by (apply Z.eqb_neq; lia).
  rewrite E.
  erewrite bind_Returned; [|eapply sys_plain_err; [exact Ho|reflexivity]].
  cbn. eexists. split; [reflexivity|]. cbn. rewrite <- !app_assoc. auto.
Qed.

(** The first initialisation up to the port: with the socket made, its
    option set and the port in range, what is left is the role's calls and
    the switch to non-blocking. *)
Lemma socket_init_reaches_role s server w fd x v y rest :
  sock s = -1 -> valid_port (resolved_port s w) = true ->
  script w = Ok fd x :: Ok v y :: rest ->
  exists w3 cs,
    socket_init s server w =
      ((if server then
          r <- sys_plain (Z.of_nat fd) (c_bind (Z.of_nat fd) (htons (resolved_port s w))) ;;
          if r =? -1 then perror "bind" ;; exit_failure
          else
            r <- sys_plain (Z.of_nat fd) (c_listen (Z.of_nat fd) 0) ;;
            if r =? -1 then perror "listen" ;; exit_failure
            else ret tt
        else
          r <- sys_plain (Z.of_nat fd) (c_connect (Z.of_nat fd) (htons (resolved_port s w))) ;;
          if r =? -1 then perror "connect" ;; exit_failure
          else ret tt) ;;
       socketSetNonBlocking (Z.of_nat fd) ;;
       printf "---- %s socket listening on port %d" ;;
       ret (mkState (name s) (resolved_port s w) (Z.of_nat fd) (conn s))) w3 /\
    is_open (Z.of_nat fd) w3 = true /\ script w3 = rest /\
    trace w3 = trace w ++ cs /\ errno w3 = errno w.
Proof.
  intros Hk Hv Hs. unfold socket_init. rewrite Hk.
  change (negb (-1 =? -1)) with false. cbn iota.
  unfold bind at 1, emit. cbn beta iota.
  set (w0 := logged c_signal_ignore_sigpipe w).
  assert (Hs0 : script w0 = Ok fd x :: Ok v y :: rest) by exact Hs.
  rewrite (bind_Returned _ _ _ _ _ (sys_socket_ok _ _ _ _ Hs0)).
  cbn [sock set_sock name port].
  assert (E : (Z.of_nat fd =? -1) = false) by (apply Z.eqb_neq; lia).
  rewrite E.
  set (w1 := opened (Z.of_nat fd) _).
  assert (Ho1 : is_open (Z.of_nat fd) w1 = true) by apply is_open_opened.
  erewrite bind_Returned; [|eapply sys_plain_ok; [exact Ho1|reflexivity]].
  change (0 =? -1) with false. cbn iota.
  set (w2 := answered _ (logged _ w1)).
  assert (Hv2 : valid_port
      match env w2 (name s ++ "_PORT")%string with
      | Some v => atoi v
      | None => to_int (to_uint (port s))
      end = true) by exact Hv.
  destruct (getPortNumber_ok (name s) (to_uint (port s)) w2 Hv2)
    as (w3 & Hp & Hf3 & Hs3 & He3 & Ht3).
  pose proof (getPortNumber_returns _ _ _ _ _ Hp) as (_ & _ & _ & Hn3 & _).
  rewrite (bind_Returned _ _ _ _ _ Hp).
  change (match env w2 (name s ++ "_PORT")%string with
          | Some v => atoi v
          | None => to_int (to_uint (port s))
          end) with (resolved_port s w) in *.
  eexists w3, _. split; [reflexivity|].
  split; [rewrite <- Ho1; now apply is_open_same|].
  split; [exact Hs3|]. split; [|exact Hn3].
  rewrite Ht3. cbn [trace w2 w1 w0 answered logged opened].
  rewrite <- !app_assoc. reflexivity.
Qed.

(** X3. A failing setup call is fatal.  When the kernel answers the first
    [k] setup calls of the first initialisation with success and the next one
    with an error, socket_init reports that call by name ("socket",
    "setsockopt", "bind", "listen", "connect" or "fcntl") and the process
    exits: no endpoint is handed back.  The kernel is asked nothing after the
    failing call. *)
Theorem socket_init_setup_failure_exits s server w k pre e rest :
  sock s = -1 -> (k < setup_length server)%nat ->
  length pre = k -> forallb is_ok pre = true ->
  script w = pre ++ Err e :: rest ->
  ((2 <= k)%nat -> valid_port (resolved_port s w) = true) ->
  exists w' cs, socket_init s server w = Exited w' /\
    trace w' = trace w ++ cs ++ [c_perror (setup_message server k)] /\
    errno w' = e /\ script w' = rest.
Proof.
  intros Hk Hlt Hlen Hok Hs Hv.
  destruct pre as [|[fd x|?] pre]; [| |discriminate].
  { (* socket *)
    cbn in Hlen, Hs. subst k. unfold socket_init. rewrite Hk.
    change (negb (-1 =? -1)) with false. cbn iota.
    unfold bind at 1, emit. cbn beta iota.
    set (w0 := logged c_signal_ignore_sigpipe w).
    assert (Hs0 : script w0 = Err e :: rest) by exact Hs.
    rewrite (bind_Returned _ _ _ _ _ (sys_socket_err _ _ _ Hs0)).
    cbn. eexists _, [c_signal_ignore_sigpipe; c_socket].
    split; [reflexivity|]. cbn. rewrite <- !app_assoc. auto. }
  destruct pre as [|[v y|?] pre]; [| |discriminate].
  { (* setsockopt *)
    cbn in Hlen, Hs. subst k. unfold socket_init. rewrite Hk.
    change (negb (-1 =? -1)) with false. cbn iota.
    unfold bind at 1, emit. cbn beta iota.
    set (w0 := logged c_signal_ignore_sigpipe w).
    assert (Hs0 : script w0 = Ok fd x :: Err e :: rest) by exact Hs.
    rewrite (bind_Returned _ _ _ _ _ (sys_socket_ok _ _ _ _ Hs0)).
    cbn [sock set_sock name port].
    assert (E : (Z.of_nat fd =? -1) = false) by (apply Z.eqb_neq; lia).
    rewrite E.
    set (w1 := opened (Z.of_nat fd) _).
    assert (Ho1 : is_open (Z.of_nat fd) w1 = true) by apply is_open_opened.
    erewrite bind_Returned; [|eapply sys_plain_err; [exact Ho1|reflexivity]].
    cbn. eexists _, [c_signal_ignore_sigpipe; c_socket; c_setsockopt (Z.of_nat fd)].
    split; [reflexivity|]. cbn. rewrite <- !app_assoc. auto. }
  assert (Hv' : valid_port (resolved_port s w) = true)
    by (apply Hv; cbn in Hlen; lia).
  cbn [app] in Hs.
  destruct (socket_init_reaches_role s server w fd x v y _ Hk Hv' Hs)
    as (w3 & cs & E & Ho & Hs3 & Ht3 & Hn3).
  rewrite E. clear E.
  destruct server; cbn [setup_length] in Hlt.
  - (* server: bind, listen, fcntl, fcntl *)
    destruct pre as [|[v2 y2|?] pre]; [| |discriminate].
    { cbn in Hlen, Hs3. subst k.
      unfold bind at 1.
      erewrite bind_Returned; [|eapply sys_plain_err; [exact Ho|exact Hs3]].
      cbn. eexists _, (cs ++ [c_bind (Z.of_nat fd) (htons (resolved_port s w))]).
      split; [reflexivity|].
      cbn. rewrite Ht3, <- !app_assoc. repeat split; reflexivity. }
    destruct pre as [|[v3 y3|?] pre]; [| |discriminate].
    { cbn in Hlen, Hs3. subst k.
      unfold bind at 1.
      erewrite bind_Returned; [|eapply sys_plain_ok; [exact Ho|exact Hs3]].
      change (0 =? -1) with false. cbn iota.
      erewrite bind_Returned; [|eapply sys_plain_err; [exact Ho|reflexivity]].
      cbn. eexists _, (cs ++ [c_bind (Z.of_nat fd) (htons (resolved_port s w));
                              c_listen (Z.of_nat fd) 0]).
      split; [reflexivity|].
      cbn. rewrite Ht3, <- !app_assoc. repeat split; reflexivity. }
    cbn [app] in Hs3.
    assert (R : exists w4,
      (r <- sys_plain (Z.of_nat fd) (c_bind (Z.of_nat fd) (htons (resolved_port s w))) ;;
       if r =? -1 then perror "bind" ;; exit_failure
       else
         r <- sys_plain (Z.of_nat fd) (c_listen (Z.of_nat fd) 0) ;;
         if r =? -1 then perror "listen" ;; exit_failure
         else ret tt) w3 = Returned tt w4 /\
      is_open (Z.of_nat fd) w4 = true /\ script w4 = pre ++ Err e :: rest /\
      trace w4 = trace w3 ++ [c_bind (Z.of_nat fd) (htons (resolved_port s w));
                              c_listen (Z.of_nat fd) 0]).
    { erewrite bind_Returned; [|eapply sys_plain_ok; [exact Ho|exact Hs3]].
      change (0 =? -1) with false. cbn iota.
      erewrite bind_Returned; [|eapply sys_plain_ok; [exact Ho|reflexivity]].
      change (0 =? -1) with false. cbn iota.
      eexists. split; [reflexivity|]. cbn. rewrite <- app_assoc. auto. }
    destruct R as (w4 & E4 & Ho4 & Hs4 & Ht4).
    rewrite (bind_Returned _ _ _ _ _ E4).
    destruct pre as [|[v4 y4|?] pre]; [| |discriminate].
    { cbn in Hlen, Hs4. subst k.
      destruct (socketSetNonBlocking_get_fails _ _ _ _ Ho4 Hs4)
        as (w5 & E5 & Ht5 & Hn5 & Hs5).
      unfold bind. rewrite E5.
      exists w5, (cs ++ [c_bind (Z.of_nat fd) (htons (resolved_port s w));
                        c_listen (Z.of_nat fd) 0;
                        c_fcntl_getfl (Z.of_nat fd)]).
      split; [reflexivity|]. rewrite Ht5, Ht4, Ht3. split; [|auto].
      rewrite <- !app_assoc. reflexivity. }
    destruct pre as [|? pre]; [|cbn in Hlen; lia].
    { cbn in Hlen, Hs4. subst k.
      destruct (socketSetNonBlocking_set_fails _ _ _ _ _ _ Ho4 Hs4)
        as (w5 & E5 & Ht5 & Hn5 & Hs5).
      unfold bind. rewrite E5.
      exists w5, (cs ++ [c_bind (Z.of_nat fd) (htons (resolved_port s w));
                        c_listen (Z.of_nat fd) 0;
                        c_fcntl_getfl (Z.of_nat fd);
                        c_fcntl_setfl (Z.of_nat fd) (Z.lor (Z.of_nat v4) O_NONBLOCK)]).
      split; [reflexivity|]. rewrite Ht5, Ht4, Ht3. split; [|auto].
      rewrite <- !app_assoc. reflexivity. }
  - (* client: connect, fcntl, fcntl *)
    destruct pre as [|[v2 y2|?] pre]; [| |discriminate].
    { cbn in Hlen, Hs3. subst k.
      unfold bind at 1.
      erewrite bind_Returned; [|eapply sys_plain_err; [exact Ho|exact Hs3]].
      cbn. eexists _, (cs ++ [c_connect (Z.of_nat fd) (htons (resolved_port s w))]).
      split; [reflexivity|].
      cbn. rewrite Ht3, <- !app_assoc. repeat split; reflexivity. }
    cbn [app] in Hs3.
    assert (R : exists w4,
      (r <- sys_plain (Z.of_nat fd) (c_connect (Z.of_nat fd) (htons (resolved_port s w))) ;;
       if r =? -1 then perror "connect" ;; exit_failure
       else ret tt) w3 = Returned tt w4 /\
      is_open (Z.of_nat fd) w4 = true /\ script w4 = pre ++ Err e :: rest /\
      trace w4 = trace w3 ++ [c_connect (Z.of_nat fd) (htons (resolved_port s w))]).
    { erewrite bind_Returned; [|eapply sys_plain_ok; [exact Ho|exact Hs3]].
      change (0 =? -1) with false. cbn iota.
      eexists. split; [reflexivity|]. cbn. auto. }
    destruct R as (w4 & E4 & Ho4 & Hs4 & Ht4).
    rewrite (bind_Returned _ _ _ _ _ E4).
    destruct pre as [|[v4 y4|?] pre]; [| |discriminate].
    { cbn in Hlen, Hs4. subst k.
      destruct (socketSetNonBlocking_get_fails _ _ _ _ Ho4 Hs4)
        as (w5 & E5 & Ht5 & Hn5 & Hs5).
      unfold bind. rewrite E5.
      exists w5, (cs ++ [c_connect (Z.of_nat fd) (htons (resolved_port s w));
                        c_fcntl_getfl (Z.of_nat fd)]).
      split; [reflexivity|]. rewrite Ht5, Ht4, Ht3. split; [|auto].
      rewrite <- !app_assoc. reflexivity. }
    destruct pre as [|? pre]; [|cbn in Hlen; lia].
    { cbn in Hlen, Hs4. subst k.
      destruct (socketSetNonBlocking_set_fails _ _ _ _ _ _ Ho4 Hs4)
        as (w5 & E5 & Ht5 & Hn5 & Hs5).
      unfold bind. rewrite E5.
      exists w5, (cs ++ [c_connect (Z.of_nat fd) (htons (resolved_port s w));
                        c_fcntl_getfl (Z.of_nat fd);
                        c_fcntl_setfl (Z.of_nat fd) (Z.lor (Z.of_nat v4) O_NONBLOCK)]).
      split; [reflexivity|]. rewrite Ht5, Ht4, Ht3. split; [|auto].
      rewrite <- !app_assoc. reflexivity. }
Qed.

(** ** The attach step of a server *)

Lemma set_conn_same s c : conn s = c -> set_conn s c = s.
Proof. destruct s. cbn. now intros ->. Qed.

Lemma sys_accept_ok fd w c x rest :
  is_open fd w = true -> script w = Ok c x :: rest ->
  sys_accept fd w =
    Returned (Z.of_nat c) (opened (Z.of_nat c) (answered rest (logged (c_accept fd) w))).
Proof.
  intros Ho Hs. unfold sys_accept, bind. now rewrite (on_fd_open _ _ _ _ _ Ho Hs).
Qed.

Lemma sys_accept_err fd w e rest :
  is_open fd w = true -> script w = Err e :: rest ->
  sys_accept fd w = Returned (-1) (failed e (answered rest (logged (c_accept fd) w))).
Proof.
  intros Ho Hs. unfold sys_accept, bind. now rewrite (on_fd_open _ _ _ _ _ Ho Hs).
Qed.

Lemma is_open_opened_other fd c w : is_open fd w = true -> is_open fd (opened c w) = true.
Proof.
  unfold is_open. cbn [open_fds opened existsb]. intros ->. apply orb_true_r.
Qed.

Lemma sys_close_keeps_open fd w u w' fd' :
  sys_close fd w = Returned u w' -> fd' <> fd ->
  is_open fd' w' = is_open fd' w.
Proof.
  unfold sys_close, bind, emit, drop_fd. intros [= _ <-] Hne.
  unfold is_open. cbn [open_fds logged].
  induction (open_fds w) as [|y l IH]; [reflexivity|].
  cbn [filter existsb]. destruct (fd =? y) eqn:E; cbn [negb existsb].
  - apply Z.eqb_eq in E. subst y.
    assert (E' : (fd' =? fd) = false) by now apply Z.eqb_neq.
    now rewrite E', IH.
  - now rewrite IH.
Qed.

(** The attach step of an initialised server that finds no peer waiting. *)
Lemma acceptConnection_no_peer s w e rest :
  sock s <> -1 -> conn s = -1 -> is_open (sock s) w = true ->
  script w = Err e :: rest ->
  acceptConnection s true w =
    Returned s (failed e (answered rest (logged (c_accept (sock s)) w))).
Proof.
  intros Hk Hc Ho Hs. unfold acceptConnection. rewrite Hc.
  change (negb (-1 =? -1)) with false. cbn iota.
  apply Z.eqb_neq in Hk. rewrite Hk.
  unfold bind at 1, ret at 1.
  rewrite (bind_Returned _ _ _ _ _ (sys_accept_err _ _ _ _ Ho Hs)).
  cbn [conn set_conn]. change (negb (-1 =? -1)) with false. cbn iota.
  unfold ret. now rewrite set_conn_same.
Qed.

(** The attach step of an initialised server that finds a peer waiting. *)
Lemma acceptConnection_peer s w c x flags y v z rest :
  sock s <> -1 -> conn s = -1 -> is_open (sock s) w = true ->
  script w = Ok c x :: Ok flags y :: Ok v z :: rest ->
  exists w', acceptConnection s true w = Returned (set_conn s (Z.of_nat c)) w' /\
    is_open (Z.of_nat c) w' = true /\ is_open (sock s) w' = true /\
    trace w' = trace w ++ accept_calls (sock s) (Z.of_nat c) flags /\
    script w' = rest /\ errno w' = errno w /\ env w' = env w.
Proof.
  intros Hk Hc Ho Hs. unfold acceptConnection. rewrite Hc.
  change (negb (-1 =? -1)) with false. cbn iota.
  apply Z.eqb_neq in Hk. rewrite Hk.
  unfold bind at 1, ret at 1.
  rewrite (bind_Returned _ _ _ _ _ (sys_accept_ok _ _ _ _ _ Ho Hs)).
  cbn [conn set_conn].
  assert (E : (Z.of_nat c =? -1) = false) by (apply Z.eqb_neq; lia).
  rewrite E. cbn [negb].
  unfold bind at 1, printf, emit.
  set (w1 := logged _ (opened _ _)).
  assert (Ho1 : is_open (Z.of_nat c) w1 = true) by apply is_open_opened.
  erewrite bind_Returned;
    [|eapply socketSetNonBlocking_ok; [exact Ho1|reflexivity]].
  unfold ret. eexists. split; [reflexivity|].
  split; [exact Ho1|]. split; [now apply is_open_opened_other|].
  cbn [trace script errno env answered logged opened w1].
  unfold accept_calls. rewrite <- !app_assoc. auto.
Qed.

(** X4. When a peer is waiting, the attach step of an initialised server
    without connection accepts it on the listening socket, switches the new
    descriptor to non-blocking with the two fcntl calls and attaches it: the
    connection field is the new descriptor, which is open, and the listening
    socket stays open and in place. *)
Theorem server_attaches_waiting_peer s w c x flags y v z rest :
  sock s <> -1 -> conn s = -1 -> is_open (sock s) w = true ->
  script w = Ok c x :: Ok flags y :: Ok v z :: rest ->
  exists s' w', acceptConnection s true w = Returned s' w' /\
    conn s' = Z.of_nat c /\ attached s' /\ sock s' = sock s /\
    port s' = port s /\ name s' = name s /\
    is_open (conn s') w' = true /\ is_open (sock s') w' = true /\
    trace w' = trace w ++ accept_calls (sock s) (Z.of_nat c) flags /\
    script w' = rest.
Proof.
  intros Hk Hc Ho Hs.
  destruct (acceptConnection_peer s w c x flags y v z rest Hk Hc Ho Hs)
    as (w' & E & Hoc & Hos & Ht & Hs' & _).
  exists (set_conn s (Z.of_nat c)), w'. cbn [conn sock port name set_conn].
  unfold attached. cbn [conn set_conn]. repeat split; auto. lia.
Qed.

(** X5. As long as no peer is waiting, an initialised server without
    connection fails every get and put without harm: the operation makes one
    accept call, which the kernel answers with an error, reports failure or
    no data, and hands the endpoint back unchanged.  The process goes on, and
    getN leaves the caller's buffer as it was but for the status byte. *)
Theorem server_without_peer o s w e rest :
  sock s <> -1 -> conn s = -1 -> is_open (sock s) w = true ->
  script w = Err e :: rest -> o <> op_init ->
  exists r w', run_op true o s w = Returned (r, s) w' /\
    reports_failure o r /\
    trace w' = trace w ++ [c_accept (sock s)] /\ script w' = rest /\
    open_fds w' = open_fds w /\
    (forall result n, o = op_getN result n ->
       exists m, r = r_bytes m /\ status m n = xff /\
         forall i, i <> n -> m i = result i).
Proof.
  intros Hk Hc Ho Hs Hne.
  pose proof (acceptConnection_no_peer s w e rest Hk Hc Ho Hs) as E.
  set (w' := failed e (answered rest (logged (c_accept (sock s)) w))) in *.
  assert (Hw : trace w' = trace w ++ [c_accept (sock s)] /\ script w' = rest /\
               open_fds w' = open_fds w) by (cbn; auto).
  destruct o as [| |b|b|result n|n data]; [contradiction| | | | |]; cbn [run_op].
  - assert (E1 : socket_get8 s true w = Returned (NO_DATA, s) w').
    { unfold socket_get8. rewrite (bind_Returned _ _ _ _ _ E), Hc. reflexivity. }
    rewrite (bind_Returned _ _ _ _ _ E1). unfold ret.
    exists (r_word NO_DATA), w'. split; [reflexivity|]. split; [reflexivity|].
    repeat split; try apply Hw. discriminate.
  - assert (E1 : socket_put8 s b true w = Returned (0, s) w').
    { unfold socket_put8. rewrite (bind_Returned _ _ _ _ _ E), Hc. reflexivity. }
    rewrite (bind_Returned _ _ _ _ _ E1). unfold ret.
    exists (r_word 0), w'. split; [reflexivity|]. split; [reflexivity|].
    repeat split; try apply Hw. discriminate.
  - assert (E1 : socket_put8_blocking s b true w = Returned (0, s) w').
    { unfold socket_put8_blocking. rewrite (bind_Returned _ _ _ _ _ E), Hc. reflexivity. }
    rewrite (bind_Returned _ _ _ _ _ E1). unfold ret.
    exists (r_word 0), w'. split; [reflexivity|]. split; [reflexivity|].
    repeat split; try apply Hw. discriminate.
  - assert (E1 : socket_getN result s n true w = Returned (poke result n xff, s) w').
    { unfold socket_getN. rewrite (bind_Returned _ _ _ _ _ E), Hc. reflexivity. }
    rewrite (bind_Returned _ _ _ _ _ E1). unfold ret.
    exists (r_bytes (poke result n xff)), w'. split; [reflexivity|].
    split; [apply poke_same|].
    repeat split; try apply Hw. intros result' n' [= <- <-].
    eexists. split; [reflexivity|]. split; [apply poke_same|].
    intros i Hi. now apply poke_other.
  - assert (E1 : socket_putN s n data true w = Returned (0, s) w').
    { unfold socket_putN. rewrite (bind_Returned _ _ _ _ _ E), Hc. reflexivity. }
    rewrite (bind_Returned _ _ _ _ _ E1). unfold ret.
    exists (r_word 0), w'. split; [reflexivity|]. split; [reflexivity|].
    repeat split; try apply Hw. discriminate.
Qed.

(** ** A server loses its peer and takes the next one *)

Lemma not_transient_other n e : errno_eqb e EAGAIN = false -> not_transient n e = true.
Proof. unfold not_transient. intros ->. now rewrite andb_false_r. Qed.

(** X6. A server survives the loss of its peer.  When the read of get8
    fails with an error other than EAGAIN, get8 reports no data, closes the
    connection and keeps the listening socket open; the next get8 accepts the
    peer that is waiting by then and returns its first byte, and the next
    put8 would instead accept it and send its byte. *)
Theorem server_detach_then_reattach s w e c x flags y v z k b bs rest :
  sock s <> -1 -> attached s -> conn s <> sock s ->
  is_open (sock s) w = true -> is_open (conn s) w = true ->
  errno_eqb e EAGAIN = false ->
  script w = Err e :: Ok c x :: Ok flags y :: Ok v z :: Ok (S k) (b :: bs) :: rest ->
  exists w0,
    socket_get8 s true w = Returned (NO_DATA, set_conn s (-1)) w0 /\
    is_open (conn s) w0 = false /\ is_open (sock s) w0 = true /\
    (exists w1,
       socket_get8 (set_conn s (-1)) true w0
         = Returned (uint32_of_byte b, set_conn s (Z.of_nat c)) w1 /\
       script w1 = rest /\ is_open (Z.of_nat c) w1 = true) /\
    (forall b', exists w1,
       socket_put8 (set_conn s (-1)) b' true w0
         = Returned (1, set_conn s (Z.of_nat c)) w1 /\
       script w1 = rest /\ is_open (Z.of_nat c) w1 = true).
Proof.
  intros Hk Ha Hne Hos Hoc He Hs.
  pose proof (acceptConnection_attached s true w Ha) as Eatt.
  pose proof (sys_read_err (conn s) 1 w e _ Hoc Hs) as Er.
  pose proof (socket_get8_read s true w s w _ _ _ Eatt Ha Er) as E.
  change (-1 =? 1) with false in E. cbn iota in E.
  cbn [errno failed] in E. rewrite (not_transient_other _ _ He) in E.
  set (w2 := failed e _) in *.
  destruct (sys_close_spec (conn s) w2) as (w0 & Hcl & Hclosed & _ & Hs0 & _ & _ & _).
  rewrite (bind_Returned _ _ _ _ _ Hcl) in E. unfold ret in E.
  assert (Hos0 : is_open (sock s) w0 = true).
  { rewrite (sys_close_keeps_open _ _ _ _ (sock s) Hcl) by congruence. exact Hos. }
  cbn [script w2 failed answered] in Hs0.
  set (s0 := set_conn s (-1)).
  assert (Hk0 : sock s0 <> -1) by exact Hk.
  destruct (acceptConnection_peer s0 w0 c x flags y v z _ Hk0 eq_refl Hos0 Hs0)
    as (w' & Eacc & Hoc' & _ & _ & Hs' & _).
  change (set_conn s0 (Z.of_nat c)) with (set_conn s (Z.of_nat c)) in Eacc.
  set (s1 := set_conn s (Z.of_nat c)) in *.
  assert (Hc1 : conn s1 <> -1) by (cbn; lia).
  exists w0. split; [exact E|]. split; [exact Hclosed|]. split; [exact Hos0|].
  split.
  - pose proof (sys_read_open (conn s1) 1 w' _ _ _ Hoc' Hs') as Er1.
    pose proof (socket_get8_read s0 true w0 s1 w' _ _ _ Eacc Hc1 Er1) as E1.
    cbn in E1. eexists. split; [exact E1|]. split; [reflexivity|exact Hoc'].
  - intros b'.
    pose proof (sys_write_ok (conn s1) [b'] w' _ _ _ Hoc' Hs') as Ew1.
    pose proof (socket_put8_write s0 b' true w0 s1 w' _ _ Eacc Hc1 Ew1) as E1.
    cbn [length] in E1. rewrite Nat.min_r in E1 by lia. cbn in E1.
    eexists. split; [exact E1|]. split; [reflexivity|exact Hoc'].
Qed.

(** ** What getN writes *)

(** X7. getN writes into the caller's buffer only at the offsets 0 to n:
    whenever it returns, for n >= 0, every byte before the buffer and every
    byte after the status byte is as it was.  A buffer of n + 1 bytes is
    enough, whatever the kernel delivers. *)
Theorem socket_getN_writes_within result s n server w m s' w' :
  0 <= n -> socket_getN result s n server w = Returned (m, s') w' ->
  forall i, i < 0 \/ n < i -> m i = result i.
Proof.
  intros Hn H i Hi. unfold socket_getN in H.
  apply bind_inv in H as (s1 & w1 & _ & H).
  destruct (conn s1 =? -1).
  { unfold ret in H. injection H as <- _ _. apply poke_other. lia. }
  apply bind_inv in H as ([count got] & w2 & H2 & H).
  assert (Hgot : Z.of_nat (length got) <= n /\ (count = -1 \/ count = Z.of_nat (length got))).
  { apply sys_read_inv in H2 as [[-> ->]|[-> Hl]]; cbn; split; auto; lia. }
  destruct Hgot as [Hlen Hcount].
  assert (Hst : store result 0 got i = result i) by (apply store_outside; lia).
  destruct (count =? n).
  { unfold ret in H. injection H as <- _ _. rewrite poke_other by lia. exact Hst. }
  destruct (0 <? count) eqn:Epos.
  - apply Z.ltb_lt in Epos.
    apply bind_inv in H as (rounds & w3 & _ & H).
    apply bind_inv in H as (m' & w4 & H4 & H).
    unfold ret in H. injection H as <- _ _.
    apply getN_rest_inv in H4 as (chunks & -> & Hsum); [|lia].
    rewrite poke_other by lia. rewrite fill_spec.
    assert (E : (count <=? i) && (i <? count + Z.of_nat (length (concat chunks))) = false).
    { apply andb_false_iff.
      destruct Hi; [left; apply Z.leb_gt|right; apply Z.ltb_ge]; lia. }
    rewrite E. exact Hst.
  - unfold bind at 1, get_errno in H.
    destruct (not_transient count (errno w2)).
    + apply close_tail in H as (-> & _ & _). rewrite poke_other by lia. exact Hst.
    + unfold ret in H. injection H as <- _ _. rewrite poke_other by lia. exact Hst.
Qed.

(** ** What put8Blocking leaves alone *)

Lemma sys_write_cases fd bs w :
  (is_open fd w = false /\
     sys_write fd bs w = Returned (-1) (failed EBADF (logged (c_write fd bs) w))) \/
  (is_open fd w = true /\ script w = [] /\
     sys_write fd bs w = Blocked (logged (c_write fd bs) w)) \/
  (exists e rest, is_open fd w = true /\ script w = Err e :: rest /\
     sys_write fd bs w = Returned (-1) (failed e (answered rest (logged (c_write fd bs) w)))) \/
  (exists v x rest, is_open fd w = true /\ script w = Ok v x :: rest /\
     sys_write fd bs w =
       Returned (Z.of_nat (Nat.min v (length bs))) (answered rest (logged (c_write fd bs) w))).
Proof.
  unfold sys_write, bind.
  destruct (on_fd_cases fd (c_write fd bs) w)
    as [[Ho ->]|[(Ho & Hs & ->)|(r & rest & Ho & Hs & ->)]].
  - left. auto.
  - right; left. auto.
  - destruct r as [v x|e].
    + right; right; right. exists v, x, rest. auto.
    + right; right; left. exists e, rest. auto.
Qed.

Lemma slept_app a b : slept (a ++ b) = slept a + slept b.
Proof.
  induction a as [|c a IH]; [reflexivity|].
  destruct c; cbn [app slept]; rewrite IH; lia.
Qed.

(** What a write leaves, however it ends: one more call, a write, and the
    same open descriptors. *)
Lemma sys_write_final fd bs w :
  trace (final (sys_write fd bs w)) = trace w ++ [c_write fd bs] /\
  open_fds (final (sys_write fd bs w)) = open_fds w.
Proof.
  destruct (sys_write_cases fd bs w)
    as [[_ ->]|[(_ & _ & ->)|[(e & rest & _ & _ & ->)|(v & x & rest & _ & _ & ->)]]];
    cbn; auto.
Qed.

Lemma final_bind {A B} (c : OS A) (k : A -> OS B) w :
  final (bind c k w) =
    match c w with
    | Returned a w' => final (k a w')
    | Exited w' | AssertFailed w' | Blocked w' => w'
    end.
Proof. unfold bind. now destruct (c w). Qed.

(** The rounds of put8Blocking close nothing and sleep one second a round at
    most. *)
Lemma put8_rounds_quiet left : forall fd b w,
  let w' := final (put8_rounds left fd b w) in
  open_fds w' = open_fds w /\
  count_calls is_close w' = count_calls is_close w /\
  slept (trace w) <= slept (trace w') <= slept (trace w) + Z.of_nat left * 1000000.
Proof.
  induction left as [|left IH]; intros fd b w; cbv zeta.
  - cbn. unfold count_calls. cbn. rewrite filter_app, length_app, slept_app. cbn.
    repeat split; lia.
  - cbn [put8_rounds]. rewrite final_bind.
    pose proof (sys_write_final fd [b] w) as [Ht Hf].
    assert (Hstep : forall w1, trace w1 = trace w ++ [c_write fd [b]] ->
              count_calls is_close w1 = count_calls is_close w /\
              slept (trace w1) = slept (trace w)).
    { intros w1 E. unfold count_calls.
      rewrite E, filter_app, length_app, slept_app. cbn. lia. }
    destruct (sys_write fd [b] w) as [n w1|w1|w1|w1]; cbn [final] in Ht, Hf;
      destruct (Hstep w1 Ht) as [Hc1 Hs1];
      try (rewrite Hf, Hc1, Hs1; repeat split; lia).
    destruct (n =? 1).
    { cbn [final ret]. rewrite Hf, Hc1, Hs1. repeat split; lia. }
    rewrite final_bind. unfold get_errno.
    destruct (not_transient n (errno w1)).
    { cbn [final ret]. rewrite Hf, Hc1, Hs1. repeat split; lia. }
    rewrite final_bind. unfold usleep, emit.
    destruct (IH fd b (logged (c_usleep 1000000) w1)) as (If & Ic & Is).
    rewrite If, Ic. cbn [open_fds logged].
    assert (Hc2 : count_calls is_close (logged (c_usleep 1000000) w1)
                  = count_calls is_close w1).
    { unfold count_calls. cbn [trace logged]. rewrite filter_app, length_app. cbn. lia. }
    cbn [trace logged] in Is. rewrite slept_app in Is. cbn [slept] in Is.
    rewrite Hc2, Hc1, Hf. repeat split; lia.
Qed.

(** X8. put8Blocking on an attached endpoint closes nothing, whatever the
    kernel answers and however the run ends: it makes no close call and the
    set of open descriptors is as before, and when it returns, with success
    or failure, the endpoint is exactly as it was, its connection descriptor
    still set. *)
Theorem socket_put8_blocking_never_detaches s b server w :
  attached s ->
  let o := socket_put8_blocking s b server w in
  open_fds (final o) = open_fds w /\
  count_calls is_close (final o) = count_calls is_close w /\
  (forall r s' w', o = Returned (r, s') w' -> s' = s /\ attached s').
Proof.
  intros Ha. cbv zeta.
  rewrite (socket_put8_blocking_attached s b server w s w
             (acceptConnection_attached s server w Ha) Ha).
  destruct (put8_rounds_quiet 1000 (conn s) b w) as (Hf & Hc & _).
  unfold bind.
  destruct (put8_rounds 1000 (conn s) b w) as [r w1|w1|w1|w1];
    cbn [final] in *; (split; [exact Hf|]); (split; [exact Hc|]);
    try discriminate.
  unfold ret. intros r0 s' w' [= _ <- _]. auto.
Qed.

(** X9. put8Blocking on an attached endpoint sleeps at most 1000 times one
    second in all, however the run ends. *)
Theorem socket_put8_blocking_sleeps_bounded s b server w :
  attached s ->
  let w' := final (socket_put8_blocking s b server w) in
  slept (trace w) <= slept (trace w') <= slept (trace w) + 1000 * 1000000.
Proof.
  intros Ha. cbv zeta.
  rewrite (socket_put8_blocking_attached s b server w s w
             (acceptConnection_attached s server w Ha) Ha).
  destruct (put8_rounds_quiet 1000 (conn s) b w) as (_ & _ & Hs).
  change (Z.of_nat 1000) with 1000 in Hs.
  unfold bind.
  destruct (put8_rounds 1000 (conn s) b w) as [r w1|w1|w1|w1];
    cbn [final] in *; exact Hs.
Qed.

(** ** Calls an operation never makes *)

Section Avoids.
Variable p : call -> bool.

Lemma avoids_ret {A} (a : A) : avoids p (ret a).
Proof. intros w. reflexivity. Qed.

Lemma avoids_bind {A B} (c : OS A) (k : A -> OS B) :
  avoids p c -> (forall a, avoids p (k a)) -> avoids p (bind c k).
Proof.
  intros Hc Hk w. specialize (Hc w). unfold bind.
  destruct (c w) as [a w1|w1|w1|w1]; cbn [final] in *; auto.
  now rewrite Hk.
Qed.

Lemma avoids_emit c : p c = false -> avoids p (emit c).
Proof.
  intros Hp w. unfold emit, count_calls. cbn.
  rewrite filter_app, length_app. cbn. rewrite Hp. cbn. lia.
Qed.

Lemma avoids_exit {A} : avoids p (@exit_failure A).
Proof. intros w. reflexivity. Qed.

Lemma avoids_blocked {A} : avoids p (@blocked A).
Proof. intros w. reflexivity. Qed.

Lemma avoids_assert b : avoids p (assert b).
Proof. intros w. unfold assert. now destruct b. Qed.

Lemma avoids_get_errno : avoids p get_errno.
Proof. intros w. reflexivity. Qed.

Lemma avoids_set_errno e : avoids p (set_errno e).
Proof. intros w. reflexivity. Qed.

Lemma avoids_rounds_left : avoids p rounds_left.
Proof. intros w. reflexivity. Qed.

Lemma avoids_open_fd fd : avoids p (open_fd fd).
Proof. intros w. reflexivity. Qed.

Lemma avoids_drop_fd fd : avoids p (drop_fd fd).
Proof. intros w. reflexivity. Qed.

Lemma avoids_next_reply : avoids p next_reply.
Proof. intros w. unfold next_reply. now destruct (script w). Qed.

Lemma avoids_fails e : avoids p (fails e).
Proof. apply avoids_bind; [apply avoids_set_errno|intros; apply avoids_ret]. Qed.

Lemma avoids_on_fd fd c : p c = false -> avoids p (on_fd fd c).
Proof.
  intros Hp. unfold on_fd. apply avoids_bind; [now apply avoids_emit|].
  intros _ w. destruct (is_open fd w); [apply avoids_next_reply|reflexivity].
Qed.

Lemma avoids_sys_plain fd c : p c = false -> avoids p (sys_plain fd c).
Proof.
  intros Hp. unfold sys_plain. apply avoids_bind; [now apply avoids_on_fd|].
  intros [v x|e]; [apply avoids_ret|apply avoids_fails].
Qed.

Lemma avoids_sys_value fd c : p c = false -> avoids p (sys_value fd c).
Proof.
  intros Hp. unfold sys_value. apply avoids_bind; [now apply avoids_on_fd|].
  intros [v x|e]; [apply avoids_ret|apply avoids_fails].
Qed.

Lemma avoids_sys_socket : p c_socket = false -> avoids p sys_socket.
Proof.
  intros Hp. unfold sys_socket. apply avoids_bind; [now apply avoids_emit|].
  intros _. apply avoids_bind; [apply avoids_next_reply|].
  intros [v x|e]; [|apply avoids_fails].
  apply avoids_bind; [apply avoids_open_fd|intros; apply avoids_ret].
Qed.

Lemma avoids_sys_accept fd : p (c_accept fd) = false -> avoids p (sys_accept fd).
Proof.
  intros Hp. unfold sys_accept. apply avoids_bind; [now apply avoids_on_fd|].
  intros [v x|e]; [|apply avoids_fails].
  apply avoids_bind; [apply avoids_open_fd|intros; apply avoids_ret].
Qed.

Lemma avoids_sys_read fd n : p (c_read fd n) = false -> avoids p (sys_read fd n).
Proof.
  intros Hp. unfold sys_read. apply avoids_bind; [now apply avoids_on_fd|].
  intros [v x|e]; [apply avoids_ret|].
  apply avoids_bind; [apply avoids_set_errno|intros; apply avoids_ret].
Qed.

Lemma avoids_sys_write fd bs : p (c_write fd bs) = false -> avoids p (sys_write fd bs).
Proof.
  intros Hp. unfold sys_write. apply avoids_bind; [now apply avoids_on_fd|].
  intros [v x|e]; [apply avoids_ret|apply avoids_fails].
Qed.

Lemma avoids_sys_close fd : p (c_close fd) = false -> avoids p (sys_close fd).
Proof.
  intros Hp. unfold sys_close.
  apply avoids_bind; [now apply avoids_emit|intros; apply avoids_drop_fd].
Qed.

Lemma avoids_sys_getenv var : p (c_getenv var) = false -> avoids p (sys_getenv var).
Proof.
  intros Hp. unfold sys_getenv. apply avoids_bind; [now apply avoids_emit|].
  intros _ w. reflexivity.
Qed.
End Avoids.

(** Takes a computation apart along its binds, branches and calls; what is
    left are the loops. *)
Ltac avoid :=
  repeat first
    [ progress cbv beta iota
    | apply avoids_ret
    | apply avoids_exit
    | apply avoids_blocked
    | apply avoids_assert
    | apply avoids_get_errno
    | apply avoids_rounds_left
    | apply avoids_emit; reflexivity
    | apply avoids_sys_plain; reflexivity
    | apply avoids_sys_value; reflexivity
    | apply avoids_sys_socket; reflexivity
    | apply avoids_sys_accept; reflexivity
    | apply avoids_sys_read; reflexivity
    | apply avoids_sys_write; reflexivity
    | apply avoids_sys_close; reflexivity
    | apply avoids_sys_getenv; reflexivity
    | apply avoids_bind; [|intros]
    | match goal with
      | |- avoids _ (if ?b then _ else _) => destruct b
      | |- avoids _ (match ?x with _ => _ end) => destruct x
      end ].

Lemma getPortNumber_avoids p nm d :
  p (c_getenv (nm ++ "_PORT")%string) = false ->
  (forall fmt, p (c_printf fmt) = false) ->
  avoids p (getPortNumber nm d).
Proof.
  intros H1 H2. unfold getPortNumber, printf.
  apply avoids_bind; [now apply avoids_sys_getenv|]. intros [v|].
  - avoid.
  - apply avoids_bind; [|intros; avoid].
    apply avoids_bind; [apply avoids_emit, H2|intros; avoid].
Qed.

Lemma socket_init_never_waits s server : avoids is_waiting (socket_init s server).
Proof.
  unfold socket_init, socketSetNonBlocking, perror, printf.
  destruct (negb (sock s =? -1)); [avoid|].
  apply avoids_bind; [avoid|intros].
  apply avoids_bind; [avoid|intros].
  destruct (sock (set_sock s a0) =? -1); [avoid|].
  apply avoids_bind; [avoid|intros].
  destruct (a1 =? -1); [avoid|].
  apply avoids_bind; [apply getPortNumber_avoids; reflexivity|intros].
  avoid.
Qed.

Lemma acceptConnection_never_waits s server : avoids is_waiting (acceptConnection s server).
Proof.
  unfold acceptConnection.
  destruct (negb (conn s =? -1)); [avoid|].
  apply avoids_bind.
  - destruct (sock s =? -1); [apply socket_init_never_waits|avoid].
  - intros s1. unfold socketSetNonBlocking, perror, printf. avoid.
Qed.

(** X10. init, get8 and put8 never wait on purpose: whatever the state of
    the endpoint and whatever the kernel answers, and however the run ends,
    they make no select call and no usleep call, their attach step
    included. *)
Theorem single_byte_operations_never_wait s server b :
  avoids is_waiting (socket_init s server) /\
  avoids is_waiting (socket_get8 s server) /\
  avoids is_waiting (socket_put8 s b server).
Proof.
  split; [apply socket_init_never_waits|]. split.
  - unfold socket_get8. apply avoids_bind; [apply acceptConnection_never_waits|].
    intros s1. avoid.
  - unfold socket_put8. apply avoids_bind; [apply acceptConnection_never_waits|].
    intros s1. avoid.
Qed.

(** The loops, for calls that are neither a write, a read, a select, a sleep
    nor a report. *)
Section Loops.
Variable p : call -> bool.
Hypothesis p_write : forall fd bs, p (c_write fd bs) = false.
Hypothesis p_read : forall fd n, p (c_read fd n) = false.
Hypothesis p_select_read : forall fd, p (c_select_read fd) = false.
Hypothesis p_select_write : forall fd, p (c_select_write fd) = false.
Hypothesis p_usleep : forall usec, p (c_usleep usec) = false.
Hypothesis p_perror : forall msg, p (c_perror msg) = false.
Hypothesis p_close : forall fd, p (c_close fd) = false.

Lemma put8_rounds_avoids left : forall fd b, avoids p (put8_rounds left fd b).
Proof.
  induction left as [|left IH]; intros fd b; cbn [put8_rounds].
  - apply avoids_bind; [apply avoids_emit, p_perror|intros; apply avoids_ret].
  - apply avoids_bind; [apply avoids_sys_write, p_write|intros n].
    destruct (n =? 1); [apply avoids_ret|].
    apply avoids_bind; [apply avoids_get_errno|intros e].
    destruct (not_transient n e); [apply avoids_ret|].
    apply avoids_bind; [apply avoids_emit, p_usleep|intros; apply IH].
Qed.

Lemma getN_rest_avoids rounds : forall fd bytes count n,
  avoids p (getN_rest rounds fd bytes count n).
Proof.
  induction rounds as [|rounds IH]; intros fd bytes count n;
    rewrite getN_rest_unfold; destruct (count <? n);
    try apply avoids_ret; try apply avoids_blocked.
  apply avoids_bind; [apply avoids_sys_value, p_select_read|intros res].
  apply avoids_bind; [apply avoids_assert|intros _].
  apply avoids_bind; [apply avoids_sys_read, p_read|intros [res' got]].
  apply avoids_bind; [apply avoids_assert|intros _]. apply IH.
Qed.

Lemma putN_rest_avoids rounds : forall fd data count n,
  avoids p (putN_rest rounds fd data count n).
Proof.
  induction rounds as [|rounds IH]; intros fd data count n;
    rewrite putN_rest_unfold; destruct (count <? n);
    try apply avoids_ret; try apply avoids_blocked.
  apply avoids_bind; [apply avoids_sys_value, p_select_write|intros res].
  apply avoids_bind; [apply avoids_assert|intros _].
  apply avoids_bind; [apply avoids_sys_write, p_write|intros res'].
  apply avoids_bind; [apply avoids_assert|intros _]. apply IH.
Qed.

(** What follows the attach step in the five transfer operations. *)
Lemma transfer_avoids server o s :
  o <> op_init -> avoids p (acceptConnection s server) ->
  avoids p (run_op server o s).
Proof.
  intros Ho Ha.
  destruct o as [| |b|b|result n|n data]; [contradiction| | | | |];
    cbn [run_op]; (apply avoids_bind; [|intros [? ?]; apply avoids_ret]).
  - unfold socket_get8. apply avoids_bind; [exact Ha|intros s1].
    destruct (conn s1 =? -1); [apply avoids_ret|].
    apply avoids_bind; [apply avoids_sys_read, p_read|intros [k got]].
    destruct (k =? 1); [apply avoids_ret|].
    apply avoids_bind; [apply avoids_get_errno|intros e].
    destruct (not_transient k e); [|apply avoids_ret].
    apply avoids_bind; [apply avoids_sys_close, p_close|intros; apply avoids_ret].
  - unfold socket_put8. apply avoids_bind; [exact Ha|intros s1].
    destruct (conn s1 =? -1); [apply avoids_ret|].
    apply avoids_bind; [apply avoids_sys_write, p_write|intros k].
    destruct (k =? 1); [apply avoids_ret|].
    apply avoids_bind; [apply avoids_get_errno|intros e].
    destruct (not_transient k e); [|apply avoids_ret].
    apply avoids_bind; [apply avoids_sys_close, p_close|intros; apply avoids_ret].
  - unfold socket_put8_blocking. apply avoids_bind; [exact Ha|intros s1].
    destruct (conn s1 =? -1); [apply avoids_ret|].
    apply avoids_bind; [apply put8_rounds_avoids|intros; apply avoids_ret].
  - unfold socket_getN. apply avoids_bind; [exact Ha|intros s1].
    destruct (conn s1 =? -1); [apply avoids_ret|].
    apply avoids_bind; [apply avoids_sys_read, p_read|intros [k got]].
    cbv zeta. destruct (k =? n); [apply avoids_ret|].
    destruct (0 <? k).
    + apply avoids_bind; [apply avoids_rounds_left|intros r].
      apply avoids_bind; [apply getN_rest_avoids|intros; apply avoids_ret].
    + apply avoids_bind; [apply avoids_get_errno|intros e].
      destruct (not_transient k e); [|apply avoids_ret].
      apply avoids_bind; [apply avoids_sys_close, p_close|intros; apply avoids_ret].
  - unfold socket_putN. apply avoids_bind; [exact Ha|intros s1].
    destruct (conn s1 =? -1); [apply avoids_ret|].
    cbv zeta.
    apply avoids_bind; [apply avoids_sys_write, p_write|intros k].
    destruct (k =? n); [apply avoids_ret|].
    destruct (0 <? k).
    + apply avoids_bind; [apply avoids_rounds_left|intros r].
      apply avoids_bind; [apply putN_rest_avoids|intros; apply avoids_ret].
    + apply avoids_bind; [apply avoids_get_errno|intros e].
      destruct (not_transient k e); [|apply avoids_ret].
      apply avoids_bind; [apply avoids_sys_close, p_close|intros; apply avoids_ret].
Qed.
End Loops.

Lemma client_init_avoids s : avoids is_server_call (socket_init s false).
Proof.
  unfold socket_init, socketSetNonBlocking, perror, printf.
  destruct (negb (sock s =? -1)); [avoid|].
  apply avoids_bind; [avoid|intros].
  apply avoids_bind; [avoid|intros].
  destruct (sock (set_sock s a0) =? -1); [avoid|].
  apply avoids_bind; [avoid|intros].
  destruct (a1 =? -1); [avoid|].
  apply avoids_bind; [apply getPortNumber_avoids; reflexivity|intros].
  avoid.
Qed.

Lemma server_init_avoids s : avoids is_connect (socket_init s true).
Proof.
  unfold socket_init, socketSetNonBlocking, perror, printf.
  destruct (negb (sock s =? -1)); [avoid|].
  apply avoids_bind; [avoid|intros].
  apply avoids_bind; [avoid|intros].
  destruct (sock (set_sock s a0) =? -1); [avoid|].
  apply avoids_bind; [avoid|intros].
  destruct (a1 =? -1); [avoid|].
  apply avoids_bind; [apply getPortNumber_avoids; reflexivity|intros].
  avoid.
Qed.

(** X11. The two roles keep to their own calls.  No operation run for a
    client ever calls bind, listen or accept, and no operation run for a
    server ever calls connect, whatever the state of the endpoint and the
    answers of the kernel, the blocking phases and every failing run
    included. *)
Theorem roles_keep_to_their_calls o s :
  avoids is_server_call (run_op false o s) /\
  avoids is_connect (run_op true o s).
Proof.
  split.
  - destruct o as [| |b|b|result n|n data];
      try (apply transfer_avoids; try reflexivity; try discriminate;
           unfold acceptConnection;
           (destruct (negb (conn s =? -1)); [avoid|]);
           (apply avoids_bind; [|intros; avoid]);
           (destruct (sock s =? -1); [apply client_init_avoids|avoid])).
    cbn [run_op]. apply avoids_bind; [apply client_init_avoids|intros; avoid].
  - destruct o as [| |b|b|result n|n data];
      try (apply transfer_avoids; try reflexivity; try discriminate;
           unfold acceptConnection;
           (destruct (negb (conn s =? -1)); [avoid|]);
           (apply avoids_bind; [|intros; unfold socketSetNonBlocking, perror, printf; avoid]);
           (destruct (sock s =? -1); [apply server_init_avoids|avoid])).
    cbn [run_op]. apply avoids_bind; [apply server_init_avoids|intros; avoid].
Qed.

(** ** Creation without a name *)

(** X12. serv_socket_create_nameless with a default port that an unsigned
    int holds, when the name it settles on has fewer than STR_BUFF_SZ
    characters, as the name buffer of the endpoint asks, and the endpoint has
    been allocated: it returns the endpoint and does not touch the network,
    opening no descriptor and asking the kernel nothing.  The endpoint is
    named by the variable SOCKET_PACKET_UTILS_DFLT_SOCKET_NAME when that is
    defined and SOCKET_PACKET_UTILS_DFLT otherwise, and has neither socket
    nor connection.  The first operation run on it then takes its port from
    the variable made of that name and _PORT, or else from the default given
    here.  The built-in name is within the bound. *)
Theorem serv_socket_create_nameless_named dflt w :
  let nm := match env w ENV_DFLT_SOCKET_NAME with
            | Some n => n
            | None => DFLT_SOCKET_NAME
            end in
  Z.of_nat (String.length nm) < STR_BUFF_SZ -> 0 <= dflt < 2 ^ 32 ->
  Z.of_nat (String.length DFLT_SOCKET_NAME) < STR_BUFF_SZ /\
  exists s w',
    serv_socket_create_nameless dflt w = Returned s w' /\
    name s = nm /\ sock s = -1 /\ conn s = -1 /\
    script w' = script w /\ open_fds w' = open_fds w /\ env w' = env w /\
    forall server o r s1 w1 w2,
      run_op server o s w1 = Returned (r, s1) w2 ->
      port s1 = match env w1 (nm ++ "_PORT")%string with
                | Some v => atoi v
                | None => dflt
                end /\
      0 <= port s1 <= 65535.
Proof.
  cbv zeta. intros _ Hd. split; [reflexivity|].
  unfold serv_socket_create_nameless, sys_getenv, serv_socket_create,
    socket_create, printf, bind, emit, ret. cbn [env logged].
  assert (K : forall nm server o r s1 w1 w2,
            run_op server o (mkState nm (to_int (to_uint dflt)) (-1) (-1)) w1
              = Returned (r, s1) w2 ->
            port s1 = match env w1 (nm ++ "_PORT")%string with
                      | Some v => atoi v
                      | None => dflt
                      end /\
            0 <= port s1 <= 65535).
  { intros nm server o r s1 w1 w2 H.
    apply run_op_first in H as (_ & Hp & Hv); [|reflexivity|reflexivity].
    apply valid_port_range in Hv. split; [|exact Hv].
    rewrite Hp in Hv |- *. unfold resolved_port in *. cbn [name port] in *.
    rewrite !to_int_to_uint, to_int_idem in *.
    destruct (env w1 (nm ++ "_PORT")%string); [reflexivity|].
    apply to_int_in_range; [exact Hd|exact Hv]. }
  destruct (env w ENV_DFLT_SOCKET_NAME) as [n|];
    eexists _, _; (split; [reflexivity|]); cbn [name sock conn script open_fds env logged];
    do 6 (split; [reflexivity|]); apply K.
Qed.

(** ** Lazy initialisation *)

Lemma bind_same {A B} (c1 c2 : OS A) (k : A -> OS B) w1 w2 :
  c1 w1 = c2 w2 -> bind c1 k w1 = bind c2 k w2.
Proof. unfold bind. now intros ->. Qed.

Lemma acceptConnection_lazy s server w s2 w2 :
  sock s = -1 -> conn s = -1 ->
  socket_init s server w = Returned s2 w2 ->
  acceptConnection s server w = acceptConnection s2 server w2.
Proof.
  intros Hk Hc H.
  destruct (socket_init_first _ _ _ _ _ Hk H) as (fd & Hfd & E & _).
  assert (Hc2 : conn s2 = -1) by (subst s2; exact Hc).
  assert (Hk2 : (sock s2 =? -1) = false) by (subst s2; cbn; apply Z.eqb_neq; lia).
  unfold acceptConnection. rewrite Hc, Hc2, Hk, Hk2.
  change (negb (-1 =? -1)) with false. change (-1 =? -1) with true. cbn iota.
  unfold bind at 1 2. rewrite H. reflexivity.
Qed.

Lemma acceptConnection_lazy_stops s server w :
  sock s = -1 -> conn s = -1 ->
  (forall w', socket_init s server w = Exited w' ->
     acceptConnection s server w = Exited w') /\
  (forall w', socket_init s server w = AssertFailed w' ->
     acceptConnection s server w = AssertFailed w').
Proof.
  intros Hk Hc. unfold acceptConnection. rewrite Hc, Hk.
  change (negb (-1 =? -1)) with false. change (-1 =? -1) with true. cbn iota.
  split; intros w' H; unfold bind; now rewrite H.
Qed.

(** X13. Initialisation is lazy and shows no difference.  On an endpoint
    that has neither socket nor connection, every operation behaves exactly
    as the same operation run after an explicit init: same result, same
    endpoint, same world, calls made included.  When that first
    initialisation ends the process, by exit or by the port assertion, so
    does the operation, in the same world. *)
Theorem lazy_init_transparent s server w o :
  sock s = -1 -> conn s = -1 ->
  (forall s2 w2, socket_init s server w = Returned s2 w2 ->
     run_op server o s w = run_op server o s2 w2) /\
  (forall w', socket_init s server w = Exited w' ->
     run_op server o s w = Exited w') /\
  (forall w', socket_init s server w = AssertFailed w' ->
     run_op server o s w = AssertFailed w').
Proof.
  intros Hk Hc.
  destruct (acceptConnection_lazy_stops s server w Hk Hc) as [Hx Ha].
  split; [|split].
  - intros s2 w2 H.
    pose proof (acceptConnection_lazy s server w s2 w2 Hk Hc H) as E.
    destruct o as [| |b|b|result n|n data]; cbn [run_op].
    + destruct (socket_init_first _ _ _ _ _ Hk H) as (fd & Hfd & E2 & _).
      assert (Hk2 : sock s2 <> -1) by (subst s2; cbn; lia).
      unfold bind. now rewrite H, (socket_init_done s2 server w2 Hk2).
    + apply bind_same. unfold socket_get8. now apply bind_same.
    + apply bind_same. unfold socket_put8. now apply bind_same.
    + apply bind_same. unfold socket_put8_blocking. now apply bind_same.
    + apply bind_same. unfold socket_getN. now apply bind_same.
    + apply bind_same. unfold socket_putN. now apply bind_same.
  - intros w' H. specialize (Hx w' H).
    destruct o as [| |b|b|result n|n data]; cbn [run_op];
      [unfold bind; now rewrite H
      |unfold socket_get8|unfold socket_put8|unfold socket_put8_blocking
      |unfold socket_getN|unfold socket_putN];
      unfold bind; now rewrite Hx.
  - intros w' H. specialize (Ha w' H).
    destruct o as [| |b|b|result n|n data]; cbn [run_op];
      [unfold bind; now rewrite H
      |unfold socket_get8|unfold socket_put8|unfold socket_put8_blocking
      |unfold socket_getN|unfold socket_putN];
      unfold bind; now rewrite Ha.
Qed.

(** ** The peer hangs up, and transfers of nothing *)

(** X14. When the peer has closed its side, so that the read finds the end
    of the stream (no byte and no error), get8 and getN (for n > 0) report
    no data, close the connection and unset its descriptor, whatever value
    errno holds from earlier calls, EAGAIN included.  getN leaves the
    caller's buffer as it was but for the status byte. *)
Theorem end_of_stream_detaches s server w v rest :
  attached s -> is_open (conn s) w = true -> script w = Ok v [] :: rest ->
  (exists w', socket_get8 s server w = Returned (NO_DATA, set_conn s (-1)) w' /\
     is_open (conn s) w' = false /\ script w' = rest) /\
  (forall result n, 0 < n ->
     exists m w', socket_getN result s n server w = Returned (m, set_conn s (-1)) w' /\
       status m n = xff /\ (forall i, i <> n -> m i = result i) /\
       is_open (conn s) w' = false /\ script w' = rest).
Proof.
  intros Ha Ho Hs. split.
  - pose proof (sys_read_open (conn s) 1 w v [] rest Ho Hs) as Er.
    rewrite firstn_nil in Er. cbn [length Z.of_nat] in Er.
    pose proof (socket_get8_read s server w s w _ _ _
                  (acceptConnection_attached s server w Ha) Ha Er) as E.
    change (0 =? 1) with false in E. cbn iota in E.
    change (not_transient 0 _) with true in E. cbn iota in E.
    set (w2 := answered rest _) in *.
    destruct (sys_close_spec (conn s) w2) as (w3 & Hcl & Hc & _ & Hs3 & _).
    rewrite (bind_Returned _ _ _ _ _ Hcl) in E.
    exists w3. split; [exact E|]. split; [exact Hc|exact Hs3].
  - intros result n Hn.
    pose proof (sys_read_open (conn s) n w v [] rest Ho Hs) as Er.
    rewrite firstn_nil in Er. cbn [length Z.of_nat] in Er.
    pose proof (socket_getN_attached result s n server w _ _ _ Ha Er) as E.
    assert (E1 : (0 =? n) = false) by (apply Z.eqb_neq; lia).
    rewrite E1 in E. change (0 <? 0) with false in E. cbn iota in E.
    change (not_transient 0 _) with true in E. cbn iota in E.
    set (w2 := answered rest _) in *.
    destruct (sys_close_spec (conn s) w2) as (w3 & Hcl & Hc & _ & Hs3 & _).
    rewrite (bind_Returned _ _ _ _ _ Hcl) in E.
    eexists _, w3. split; [exact E|]. split; [apply poke_same|].
    split; [|split; [exact Hc|exact Hs3]].
    intros i Hi. rewrite poke_other by exact Hi. apply store_outside. cbn. lia.
Qed.

(** X15. putN of no bytes on an attached endpoint: when the zero-length
    write yields 0, putN returns 1 after that one call, without a select and
    without a change to the endpoint; when that write fails with an error
    other than EAGAIN, putN closes the connection and returns 0. *)
Theorem socket_putN_zero s data server w count w1 :
  attached s ->
  sys_write (conn s) [] w = Returned count w1 ->
  (count = 0 ->
     socket_putN s 0 data server w = Returned (1, s) w1 /\
     trace w1 = trace w ++ [c_write (conn s) []]) /\
  (count = -1 -> errno_eqb (errno w1) EAGAIN = false ->
     exists w2, sys_close (conn s) w1 = Returned tt w2 /\
       socket_putN s 0 data server w = Returned (0, set_conn s (-1)) w2) /\
  (count = 0 \/ count = -1).
Proof.
  intros Ha Hw.
  pose proof (socket_putN_attached s 0 data server w count w1 Ha Hw) as E.
  split; [|split].
  - intros ->. cbn in E. split; [exact E|].
    now apply sys_write_trace in Hw as (Ht & _).
  - intros -> He. change (-1 =? 0) with false in E.
    change (0 <? -1) with false in E. cbn iota in E.
    rewrite (not_transient_other _ _ He) in E.
    destruct (sys_close_spec (conn s) w1) as (w2 & Hcl & _).
    rewrite (bind_Returned _ _ _ _ _ Hcl) in E. exists w2. auto.
  - apply sys_write_inv in Hw as [->|H]; [now right|]. cbn in H. left. lia.
Qed.

(** ** More runs on sample inputs *)

Lemma socket_init_returns_complete_witness :
  let w := world_of [] (init_replies true 3 2) in
  let s' := mkState "sim" 5000 3 (-1) in
  let w' := final (socket_init created true w) in
  exists fd flags replies,
    script w = replies ++ script w' /\
    length replies = setup_length true /\
    forallb is_ok replies = true /\
    trace w' = trace w ++ init_calls true created w fd flags /\
    s' = mkState (name created) (resolved_port created w) (Z.of_nat fd) (conn created) /\
    is_open (sock s') w' = true /\ errno w' = errno w.
Proof.
  intros w s' w'.
  assert (H : socket_init created true w = Returned s' w') by (vm_compute; reflexivity).
  exact (socket_init_returns_complete created true w s' w' eq_refl H).
Defined.

Lemma socket_init_setup_failure_exits_witness :
  let w := world_of [] [Ok 3 []; Ok 0 []; Err EADDRINUSE] in
  exists w' cs, socket_init created true w = Exited w' /\
    trace w' = trace w ++ cs ++ [c_perror "bind"] /\
    errno w' = EADDRINUSE /\ script w' = [].
Proof.
  intros w.
  assert (Hlt : (2 < setup_length true)%nat) by (cbn; lia).
  exact (socket_init_setup_failure_exits created true w 2 [Ok 3 []; Ok 0 []]
           EADDRINUSE [] eq_refl Hlt eq_refl eq_refl eq_refl (fun _ => eq_refl)).
Defined.

Lemma server_without_peer_witness :
  let w := world_of [3] [Err EAGAIN] in
  exists r w', run_op true op_get8 server_listening w = Returned (r, server_listening) w' /\
    reports_failure op_get8 r /\
    trace w' = trace w ++ [c_accept 3] /\ script w' = [] /\
    open_fds w' = open_fds w /\
    (forall result n, op_get8 = op_getN result n ->
       exists m, r = r_bytes m /\ status m n = xff /\
         forall i, i <> n -> m i = result i).
Proof.
  intros w.
  assert (Hk : sock server_listening <> -1) by (cbn; lia).
  assert (Ho : op_get8 <> op_init) by discriminate.
  exact (server_without_peer op_get8 server_listening w EAGAIN []
           Hk eq_refl eq_refl eq_refl Ho).
Defined.

Lemma server_attaches_waiting_peer_witness :
  let w := world_of [3] [Ok 4 []; Ok 2 []; Ok 0 []] in
  exists s' w', acceptConnection server_listening true w = Returned s' w' /\
    conn s' = 4 /\ attached s' /\ sock s' = 3 /\
    port s' = 5000 /\ name s' = "sim"%string /\
    is_open (conn s') w' = true /\ is_open (sock s') w' = true /\
    trace w' = trace w ++ accept_calls 3 4 2 /\
    script w' = [].
Proof.
  intros w.
  assert (Hk : sock server_listening <> -1) by (cbn; lia).
  exact (server_attaches_waiting_peer server_listening w 4 [] 2 [] 0 [] []
           Hk eq_refl eq_refl eq_refl).
Defined.

Lemma server_detach_then_reattach_witness :
  let s := server_attached in
  let w := world_of [3; 4]
             [Err ECONNRESET; Ok 5 []; Ok 2 []; Ok 0 []; Ok 1 [x41]] in
  exists w0,
    socket_get8 s true w = Returned (NO_DATA, set_conn s (-1)) w0 /\
    is_open (conn s) w0 = false /\ is_open (sock s) w0 = true /\
    (exists w1,
       socket_get8 (set_conn s (-1)) true w0
         = Returned (uint32_of_byte x41, set_conn s 5) w1 /\
       script w1 = [] /\ is_open 5 w1 = true) /\
    (forall b', exists w1,
       socket_put8 (set_conn s (-1)) b' true w0
         = Returned (1, set_conn s 5) w1 /\
       script w1 = [] /\ is_open 5 w1 = true).
Proof.
  intros s w.
  assert (Hk : sock s <> -1) by (cbn; lia).
  assert (Ha : attached s) by (unfold attached; cbn; lia).
  assert (Hne : conn s <> sock s) by (cbn; lia).
  exact (server_detach_then_reattach s w ECONNRESET 5 [] 2 [] 0 [] 0 x41 [] []
           Hk Ha Hne eq_refl eq_refl eq_refl eq_refl).
Defined.

Lemma socket_getN_writes_within_witness :
  let w := world_of [3; 4] [Ok 0 [x41; x42; x43]] in
  let m := poke (store zeros 0 [x41; x42]) 2 x00 in
  let w' := mkWorld [3; 4] EINTR no_env [] [c_read 4 2] in
  socket_getN zeros server_attached 2 true w = Returned (m, server_attached) w' /\
  forall i, i < 0 \/ 2 < i -> m i = zeros i.
Proof.
  intros w m w'.
  assert (Hn : 0 <= 2) by lia.
  assert (E : socket_getN zeros server_attached 2 true w = Returned (m, server_attached) w')
    by reflexivity.
  split; [exact E|].
  exact (socket_getN_writes_within zeros server_attached 2 true w m server_attached w' Hn E).
Defined.

Lemma socket_put8_blocking_never_detaches_witness :
  let s := server_attached in
  let w := world_of [3; 4] [Err EAGAIN; Err EPIPE] in
  let o := socket_put8_blocking s x41 true w in
  open_fds (final o) = open_fds w /\
  count_calls is_close (final o) = count_calls is_close w /\
  (forall r s' w', o = Returned (r, s') w' -> s' = s /\ attached s').
Proof.
  intros s w.
  assert (Ha : attached s) by (unfold attached; cbn; lia).
  exact (socket_put8_blocking_never_detaches s x41 true w Ha).
Defined.

Lemma socket_put8_blocking_sleeps_bounded_witness :
  let s := server_attached in
  let w := world_of [3; 4] [Err EAGAIN; Err EAGAIN; Ok 1 []] in
  let w' := final (socket_put8_blocking s x41 true w) in
  slept (trace w) <= slept (trace w') <= slept (trace w) + 1000 * 1000000.
Proof.
  intros s w.
  assert (Ha : attached s) by (unfold attached; cbn; lia).
  exact (socket_put8_blocking_sleeps_bounded s x41 true w Ha).
Defined.

Lemma lazy_init_transparent_witness :
  let w := world_of [] (init_replies false 3 2 ++ [Ok 0 [x41]]) in
  let s2 := mkState "sim" 5000 3 (-1) in
  let w2 := final (socket_init created false w) in
  run_op false op_get8 created w = run_op false op_get8 s2 w2.
Proof.
  intros w s2 w2.
  assert (H : socket_init created false w = Returned s2 w2) by (vm_compute; reflexivity).
  exact (proj1 (lazy_init_transparent created false w op_get8 eq_refl eq_refl)
           s2 w2 H).
Defined.

Lemma end_of_stream_detaches_witness :
  let s := server_attached in
  let w := mkWorld [3; 4] EAGAIN no_env [Ok 0 []] [] in
  exists w', socket_get8 s true w = Returned (NO_DATA, set_conn s (-1)) w' /\
    is_open (conn s) w' = false /\ script w' = [].
Proof.
  intros s w.
  assert (Ha : attached s) by (unfold attached; cbn; lia).
  exact (proj1 (end_of_stream_detaches s true w 0 [] Ha eq_refl eq_refl)).
Defined.

Lemma socket_putN_zero_witness :
  let s := server_attached in
  let w := world_of [3; 4] [Ok 5 []] in
  let w1 := mkWorld [3; 4] EINTR no_env [] [c_write 4 []] in
  socket_putN s 0 one_to_four true w = Returned (1, s) w1 /\
  trace w1 = trace w ++ [c_write (conn s) []].
Proof.
  intros s w w1.
  assert (Ha : attached s) by (unfold attached; cbn; lia).
  exact (proj1 (socket_putN_zero s one_to_four true w 0 w1 Ha eq_refl) eq_refl).
Defined.

Lemma serv_socket_create_nameless_named_witness :
  Z.of_nat (String.length DFLT_SOCKET_NAME) < STR_BUFF_SZ /\
  exists s w',
    serv_socket_create_nameless 5000 (world_of [] []) = Returned s w' /\
    name s = DFLT_SOCKET_NAME /\ sock s = -1 /\ conn s = -1 /\
    script w' = [] /\ open_fds w' = [] /\ env w' = no_env /\
    forall server o r s1 w1 w2,
      run_op server o s w1 = Returned (r, s1) w2 ->
      port s1 = match env w1 (DFLT_SOCKET_NAME ++ "_PORT")%string with
                | Some v => atoi v
                | None => 5000
                end /\
      0 <= port s1 <= 65535.
Proof.
  assert (Hn : Z.of_nat (String.length DFLT_SOCKET_NAME) < STR_BUFF_SZ) by reflexivity.
  assert (Hd : 0 <= 5000 < 2 ^ 32) by lia.
  exact (serv_socket_create_nameless_named 5000 (world_of [] []) Hn Hd).
Defined.
